(** * updatewcs/dgeo.py: the DGEO lookup-table annotator

    A shallow embedding of [DGEO.applyDgeoCorr] and of the methods it calls
    ([getwcsindex], [addSciExtKw], [createDgeoHDU], [createDgeoHdr],
    [getDgeoData], [updateDGEOkw]), followed by the properties of the
    bookkeeping: numbering of the WCSDVARR extensions, the keywords written
    to the science headers, what is left untouched, and what happens on the
    error paths.

    The pyfits objects are modelled by value: a header is the ordered list of
    its cards, an HDU is a header with an optional data array, an HDUList is
    the list of its HDUs.  The file object [self.fobj] is mutated in place by
    the program, so the methods are written in a state-and-exception monad
    whose state is the HDUList; an exception leaves the state as it was when
    it was raised.  The positions of an HDUList are taken to hold distinct
    HDU objects, as in a list produced by [pyfits.open]. *)

From stdpp Require Import base list strings.
From Stdlib Require Import ZArith QArith String Ascii DecimalString Lia.

Local Open Scope string_scope.
Local Open Scope Z_scope.
Local Open Scope list_scope.

(** ** Python values *)

(** The values a header card, a keyword argument or a defaults table can
    hold.  A finite Python float is the rational it denotes. *)
Inductive pyval : Type :=
| PNone
| PBool (b : bool)
| PInt (n : Z)
| PFloat (q : Q)
| PStr (s : string).

(** [bool(v)], as used by [a or b] and [if d:]. *)
Definition truthy (v : pyval) : bool :=
  match v with
  | PNone => false
  | PBool b => b
  | PInt n => negb (n =? 0)
  | PFloat q => negb (Qnum q =? 0)
  | PStr s => negb (String.eqb s "")
  end.

(** The number a numeric value denotes ([True] is 1, [False] is 0). *)
Definition num_of (v : pyval) : option Q :=
  match v with
  | PBool b => Some (inject_Z (if b then 1 else 0))
  | PInt n => Some (inject_Z n)
  | PFloat q => Some q
  | PNone | PStr _ => None
  end.

(** [v == w]: numbers compare by value across [bool], [int] and [float];
    strings compare character by character; nothing else is equal across
    types.  Equal values hash alike, so this is also the equality of
    dictionary keys. *)
Definition py_eq (v w : pyval) : bool :=
  match v, w with
  | PNone, PNone => true
  | PStr s, PStr t => String.eqb s t
  | _, _ =>
      match num_of v, num_of w with
      | Some a, Some b => Qeq_bool a b
      | _, _ => false
      end
  end.

(** [str.lower] of Python 2 in the C locale: the 26 ASCII capitals. *)
Definition lower_ascii (c : ascii) : ascii :=
  let n := nat_of_ascii c in
  if (andb (Nat.leb 65 n) (Nat.leb n 90)) then ascii_of_nat (n + 32) else c.

Fixpoint lower (s : string) : string :=
  match s with
  | EmptyString => EmptyString
  | String c r => String (lower_ascii c) (lower r)
  end.

(** ['%s' % n] for an integer. *)
Definition str_of_int (n : Z) : string := NilZero.string_of_int (Z.to_int n).

(** ** Exceptions and results *)

Inductive exn : Type :=
| KeyError
| AttributeError
| IndexError
| IOError.

Inductive res (A : Type) : Type :=
| Ok (a : A)
| Raise (e : exn).
Arguments Ok {A} a.
Arguments Raise {A} e.

(** ** Dictionaries *)

(** A dictionary with string keys, in insertion order. *)
Definition sdict := list (string * pyval).

Fixpoint sdict_get (d : sdict) (k : string) : option pyval :=
  match d with
  | [] => None
  | (k', v) :: r => if String.eqb k' k then Some v else sdict_get r k
  end.

(** [d[k]], raising [KeyError] when the key is missing. *)
Definition sdict_item (d : sdict) (k : string) : res pyval :=
  match sdict_get d k with
  | Some v => Ok v
  | None => Raise KeyError
  end.

(** The dictionary [wcsd] of [getwcsindex]: header values to positions. *)
Definition dict := list (pyval * nat).

Fixpoint dict_get (d : dict) (k : pyval) : option nat :=
  match d with
  | [] => None
  | (k', e) :: r => if py_eq k' k then Some e else dict_get r k
  end.

(** [d[k] = e]: an equal key keeps its place and takes the new value. *)
Fixpoint dict_set (d : dict) (k : pyval) (e : nat) : dict :=
  match d with
  | [] => [(k, e)]
  | (k', e') :: r => if py_eq k' k then (k', e) :: r else (k', e') :: dict_set r k e
  end.

(** [bool(d)]. *)
Definition dict_nonempty (d : dict) : bool :=
  match d with
  | [] => false
  | _ :: _ => true
  end.

(** ** Headers, HDUs and file objects *)

Record Card : Type := mkCard { key : string; value : pyval; comment : string }.

Abbreviation Header := (list Card).

(** A data array: rows of pixel values. *)
Definition ndarray := list (list Q).

Record HDU : Type := mkHDU { header : Header; data : option ndarray }.

Abbreviation HDUList := (list HDU).

(** [hdr.has_key(k)]. *)
Definition has_key (hdr : Header) (k : string) : bool :=
  existsb (fun c => String.eqb (key c) k) hdr.

(** [hdr[k]]: the value of the first card with this keyword. *)
Fixpoint header_get (hdr : Header) (k : string) : option pyval :=
  match hdr with
  | [] => None
  | c :: r => if String.eqb (key c) k then Some (value c) else header_get r k
  end.

(** [hdr.ascard[hdr.ascard.index_of(k)] = c]: the first card with keyword
    [k] replaced. *)
Fixpoint replace_first (hdr : Header) (k : string) (c : Card) : Header :=
  match hdr with
  | [] => []
  | c' :: r => if String.eqb (key c') k then c :: r else c' :: replace_first r k c
  end.

(** Insertion of a new card before the first card with keyword [before];
    a header without that keyword takes the card at its end. *)
Fixpoint insert_before (hdr : Header) (before : string) (c : Card) : Header :=
  match hdr with
  | [] => [c]
  | c' :: r => if String.eqb (key c') before then c :: c' :: r else c' :: insert_before r before c
  end.

(** Modelled from the spec: [hdr.update(key=k, value=v, comment=cm,
    before=b)] of pyfits, which is not part of this repository.  A keyword
    already present has the value and comment of its first card replaced
    where it stands; a new keyword is inserted before the first [b] card,
    and appended when there is none ("new keys inserted before a sentinel
    HISTORY marker if present, else appended").  Keywords are compared as
    they are written; those of this program are all in upper case. *)
Definition update (hdr : Header) (k : string) (v : pyval) (cm : string) (before : string) : Header :=
  if has_key hdr k then replace_first hdr k (mkCard k v cm)
  else insert_before hdr before (mkCard k v cm).

Definition set_header (f : Header -> Header) (h : HDU) : HDU :=
  mkHDU (f (header h)) (data h).

(** ** The state-and-exception monad over the file object *)

Definition M (A : Type) : Type := HDUList -> HDUList * res A.

Definition ret {A} (a : A) : M A := fun fobj => (fobj, Ok a).

Definition raise {A} (e : exn) : M A := fun fobj => (fobj, Raise e).

Definition bind {A B} (m : M A) (k : A -> M B) : M B :=
  fun fobj =>
    match m fobj with
    | (fobj', Ok a) => k a fobj'
    | (fobj', Raise e) => (fobj', Raise e)
    end.

Notation "x <- m ;; k" := (bind m (fun x => k))
  (at level 100, m at next level, right associativity).
Notation "m ;;; k" := (bind m (fun _ => k))
  (at level 100, right associativity).

(** A pure computation that may raise. *)
Definition lift {A} (r : res A) : M A := fun fobj => (fobj, r).

Definition of_option {A} (o : option A) (e : exn) : res A :=
  match o with
  | Some a => Ok a
  | None => Raise e
  end.

(** [self.fobj[i]]. *)
Definition getitem (i : nat) : M HDU :=
  fun fobj => (fobj, of_option (fobj !! i) IndexError).

(** [self.fobj[i] = hdu]. *)
Definition setitem (i : nat) (hdu : HDU) : M unit :=
  fun fobj =>
    if (i <? List.length fobj)%nat then (<[i:=hdu]> fobj, Ok tt)
    else (fobj, Raise IndexError).

(** [self.fobj.append(hdu)]. *)
Definition append (hdu : HDU) : M unit :=
  fun fobj => (fobj ++ [hdu], Ok tt).

(** [self.fobj[i].header[k]]. *)
Definition getkw (i : nat) (k : string) : M pyval :=
  h <- getitem i ;; lift (of_option (header_get (header h) k) KeyError).

(** [for a in l: body(a)]. *)
Fixpoint for_each {A} (l : list A) (body : A -> M unit) : M unit :=
  match l with
  | [] => ret tt
  | a :: r => body a ;;; for_each r body
  end.

(** ** The methods of [DGEO] *)

Section DGEO.

(** [fileutil.osfn]: resolution of the path held by [DGEOFILE]. *)
Variable osfn : pyval -> res string.

(** [pyfits.getdata(dgfile, ext=(ename, extver))]: the array of the
    extension [(ename, extver)] of the reference file [dgfile]. *)
Variable getdata : string -> string -> pyval -> res ndarray.

(** [hstwcs.mappings.dgeo_vals]: the defaults of each instrument. *)
Variable dgeo_vals : string -> option sdict.

(** [dgeo_vals[instr]]: only a string can be one of its keys. *)
Definition dgeo_vals_item (instr : pyval) : res sdict :=
  match instr with
  | PStr s => of_option (dgeo_vals s) KeyError
  | _ => Raise KeyError
  end.

(** [getwcsindex]: the loop over [range(len(self.fobj))], from position
    [e] on, with the dictionary built so far. *)
Fixpoint getwcsindex_from (e : nat) (l : HDUList) (wcsd : dict) : res dict :=
  match l with
  | [] => Ok wcsd
  | h :: r =>
      match header_get (header h) "EXTNAME" with
      | None => getwcsindex_from (S e) r wcsd
      | Some ename =>
          if py_eq ename (PStr "WCSDVARR") then
            match header_get (header h) "EXTVER" with
            | None => Raise KeyError
            | Some v => getwcsindex_from (S e) r (dict_set wcsd v e)
            end
          else getwcsindex_from (S e) r wcsd
      end
  end.

Definition getwcsindex (fobj : HDUList) : res dict :=
  getwcsindex_from 0 fobj [].

(** A header update through the reference [ext.header].  The science HDU
    is the object in slot [i] of the file object while [slot = Some i];
    once that slot has been assigned another HDU the object is no longer
    part of the file object ([slot = None]) and writes to its header do
    not reach it. *)
Definition hdr_update (slot : option nat) (k : string) (v : pyval) (cm : string) : M unit :=
  fun fobj =>
    match slot with
    | Some i => (alter (set_header (fun hdr => update hdr k v cm "HISTORY")) i fobj, Ok tt)
    | None => (fobj, Ok tt)
    end.

(** The axis number [j] of [addSciExtKw]. *)
Definition axis_of (ename : string) : Z := if String.eqb ename "DX" then 1 else 2.

(** The lists [keys], [values] and [comments] of [addSciExtKw], card by
    card, in the order of [keys]. *)
Definition sci_cards (j extver : Z) : list Card :=
  let dp := "DP" +:+ str_of_int j +:+ "." in
  [ mkCard ("CPERROR" +:+ str_of_int j) (PFloat (0 # 1))
      ("Maximum error of dgeo correction for axis " +:+ str_of_int (extver / 2));
    mkCard ("CPDIS" +:+ str_of_int j) (PStr "Lookup")
      "Prior distortion funcion type";
    mkCard (dp +:+ "EXTVER") (PInt extver)
      "Version number of WCSDVARR extension containing lookup distortion table";
    mkCard (dp +:+ "NAXES") (PInt 2)
      "Number of independent variables in distortion function";
    mkCard (dp +:+ "AXIS.1") (PInt 1)
      "Axis number of the jth independent variable in a distortion function";
    mkCard (dp +:+ "AXIS.2") (PInt 2)
      "Axis number of the jth independent variable in a distortion function" ].

Definition dgeofile_comment : string := "DGEOFILE used to create WCSDVARR extensions".

Definition addSciExtKw (slot : option nat) (extver : Z) (ename : string) : M unit :=
  let j := axis_of ename in
  for_each (sci_cards j extver)
    (fun c => hdr_update slot (key c) (value c) (comment c)) ;;;
  dgfile <- getkw 0 "DGEOFILE" ;;
  hdr_update slot "DGEOFILE" dgfile dgeofile_comment.

Definition updateDGEOkw (slot : option nat) : M unit :=
  dgfile <- getkw 0 "DGEOFILE" ;;
  hdr_update slot "DGEOFILE" dgfile dgeofile_comment.

Definition getDgeoData (dgfile : string) (ename : string) (extver : pyval) : M ndarray :=
  lift (getdata dgfile ename extver).

(** [kw[k] or instr_vals[k]]: the default is looked up only when the
    keyword argument is false. *)
Definition kw_or (kw instr_vals : sdict) (k : string) : M pyval :=
  a <- lift (sdict_item kw k) ;;
  if truthy a then ret a else lift (sdict_item instr_vals k).

(** The card list [cdl] of [createDgeoHdr]: the dictionaries [values] and
    [comments] read in the order of [keys], from the nine locals. *)
Definition dgeo_cardlist (naxis1 naxis2 extver crpix1 crpix2 cdelt1 cdelt2 crval1 crval2 : pyval)
    : Header :=
  [ mkCard "XTENSION" (PStr "IMAGE") "Image extension";
    mkCard "BITPIX" (PInt (-32)) "IEEE floating point";
    mkCard "NAXIS" (PInt 2) "Number of image columns";
    mkCard "NAXIS1" naxis1 "Number of image columns";
    mkCard "NAXIS2" naxis2 "Number of image rows";
    mkCard "EXTNAME" (PStr "WCSDVARR") "WCS distortion array";
    mkCard "EXTVER" extver "Distortion array version number";
    mkCard "PCOUNT" (PInt 0) "Special data area of size 0";
    mkCard "GCOUNT" (PInt 1) "One data group";
    mkCard "CRPIX1" crpix1 "Distortion array reference pixel";
    mkCard "CDELT1" cdelt1 "Grid step size in first coordinate";
    mkCard "CRVAL1" crval1 "Image array pixel coordinate";
    mkCard "CRPIX2" crpix1 "Distortion array reference pixel";
    mkCard "CDELT2" cdelt2 "Grid step size in second coordinate";
    mkCard "CRVAL2" crval2 "Image array pixel coordinate" ].

Definition createDgeoHdr (kw : sdict) : M Header :=
  instr <- getkw 0 "INSTRUME" ;;
  instr_vals <- lift (dgeo_vals_item instr) ;;
  naxis1 <- kw_or kw instr_vals "naxis1" ;;
  naxis2 <- kw_or kw instr_vals "naxis2" ;;
  extver <- kw_or kw instr_vals "extver" ;;
  crpix1 <- kw_or kw instr_vals "crpix1" ;;
  crpix2 <- kw_or kw instr_vals "crpix2" ;;
  cdelt1 <- kw_or kw instr_vals "cdelt1" ;;
  cdelt2 <- kw_or kw instr_vals "cdelt2" ;;
  crval1 <- kw_or kw instr_vals "crval1" ;;
  crval2 <- kw_or kw instr_vals "crval2" ;;
  ret (dgeo_cardlist naxis1 naxis2 extver crpix1 crpix2 cdelt1 cdelt2 crval1 crval2).

(** The dictionary [dgeokw] of [createDgeoHDU]. *)
Definition dgeokw (dgeover : Z) : sdict :=
  [ ("naxis1", PNone); ("naxis2", PNone); ("extver", PInt dgeover);
    ("crpix1", PNone); ("crpix2", PNone); ("cdelt1", PNone);
    ("cdelt2", PNone); ("crval1", PNone); ("crval2", PNone) ].

(** [pyfits.ImageHDU(header=hdr, data=data)] is the pair of the two. *)
Definition createDgeoHDU (dgeofile : string) (dgeover : Z) (ename : string) (extver : pyval) : M HDU :=
  hdr <- createDgeoHdr (dgeokw dgeover) ;;
  dat <- getDgeoData dgeofile ename extver ;;
  ret (mkHDU hdr (Some dat)).

(** One turn of [for ename in ['DX', 'DY']], on the pair of the reference
    to the science HDU and the counter [dgeover]. *)
Definition axis_step (dgfile : string) (wcsdvarr_ind : dict) (extversion : pyval)
    (ename : string) (st : option nat * Z) : M (option nat * Z) :=
  let dgeover := snd st + 1 in
  addSciExtKw (fst st) dgeover ename ;;;
  hdu <- createDgeoHDU dgfile dgeover ename extversion ;;
  if dict_nonempty wcsdvarr_ind then
    idx <- lift (of_option (dict_get wcsdvarr_ind (PInt dgeover)) KeyError) ;;
    setitem idx hdu ;;;
    ret (if decide (fst st = Some idx) then None else fst st, dgeover)
  else
    append hdu ;;;
    ret (fst st, dgeover).

Fixpoint axis_loop (dgfile : string) (wcsdvarr_ind : dict) (extversion : pyval)
    (enames : list string) (st : option nat * Z) : M (option nat * Z) :=
  match enames with
  | [] => ret st
  | ename :: r =>
      st' <- axis_step dgfile wcsdvarr_ind extversion ename st ;;
      axis_loop dgfile wcsdvarr_ind extversion r st'
  end.

(** The body of [if extname == 'sci':] for the HDU in slot [i]. *)
Definition sci_body (dgfile : string) (wcsdvarr_ind : dict) (i : nat) (dgeover : Z) : M Z :=
  extversion <- getkw i "EXTVER" ;;
  st <- axis_loop dgfile wcsdvarr_ind extversion ["DX"; "DY"] (Some i, dgeover) ;;
  updateDGEOkw (fst st) ;;;
  ret (snd st).

(** The body of [for ext in self.fobj], for [ext] the HDU in slot [i]:
    the new value of [dgeover]. *)
Definition ext_body (dgfile : string) (wcsdvarr_ind : dict) (i : nat) (ext : HDU) (dgeover : Z) : M Z :=
  match header_get (header ext) "EXTNAME" with
  | None => ret dgeover
  | Some (PStr s) =>
      if String.eqb (lower s) "sci" then sci_body dgfile wcsdvarr_ind i dgeover
      else ret dgeover
  | Some _ => raise AttributeError
  end.

(** [for ext in self.fobj]: the list iterator holds a position [i] and
    stops when [i] reaches the current length, so that HDUs appended by
    the body are visited too.  [None] when [fuel] turns do not reach the
    end. *)
Fixpoint ext_loop (fuel : nat) (dgfile : string) (wcsdvarr_ind : dict) (i : nat) (dgeover : Z)
    (fobj : HDUList) : option (HDUList * res unit) :=
  match fuel with
  | O => None
  | S fuel' =>
      match fobj !! i with
      | None => Some (fobj, Ok tt)
      | Some ext =>
          match ext_body dgfile wcsdvarr_ind i ext dgeover fobj with
          | (fobj', Ok dgeover') => ext_loop fuel' dgfile wcsdvarr_ind (S i) dgeover' fobj'
          | (fobj', Raise e) => Some (fobj', Raise e)
          end
      end
  end.

(** Turns that always suffice: an HDU is visited once, and each of the
    HDUs of the file object can add two. *)
Definition turns (fobj : HDUList) : nat := (3 * List.length fobj + 1)%nat.

Definition applyDgeoCorr_fuel (fuel : nat) (fobj : HDUList) : option (HDUList * res unit) :=
  match (v <- getkw 0 "DGEOFILE" ;; lift (osfn v)) fobj with
  | (_, Raise e) => Some (fobj, Raise e)
  | (_, Ok dgfile) =>
      match getwcsindex fobj with
      | Raise e => Some (fobj, Raise e)
      | Ok wcsdvarr_ind => ext_loop fuel dgfile wcsdvarr_ind 0 0 fobj
      end
  end.

Definition applyDgeoCorr (fobj : HDUList) : option (HDUList * res unit) :=
  applyDgeoCorr_fuel (turns fobj) fobj.

End DGEO.

Arguments getwcsindex : clear implicits.

(** ** Kinds of extensions *)

(** The test [ext.header['EXTNAME'].lower() == 'sci'] of [applyDgeoCorr]. *)
Definition is_sci (h : HDU) : bool :=
  match header_get (header h) "EXTNAME" with
  | Some (PStr s) => String.eqb (lower s) "sci"
  | _ => false
  end.

(** The test [ename == 'WCSDVARR'] of [getwcsindex]. *)
Definition is_wcsdvarr (h : HDU) : bool :=
  match header_get (header h) "EXTNAME" with
  | Some ename => py_eq ename (PStr "WCSDVARR")
  | None => false
  end.

(** The number of science extensions of a file object. *)
Definition nsci (l : HDUList) : nat := List.length (filter (fun h => is_sci h = true) l).

(** ** A concrete setting

    An ACS file with the reference file [jref$qbu16424j_dxy.fits], used to
    run the methods on explicit inputs. *)
Module Sample.

Definition raw_path : string := "jref$qbu16424j_dxy.fits".
Definition os_path : string := "/grp/hst/cdbs/jref/qbu16424j_dxy.fits".

(** A resolver that knows the [jref] directory. *)
Definition osfn (v : pyval) : res string :=
  match v with
  | PStr s =>
      if String.prefix "jref$" s
      then Ok ("/grp/hst/cdbs/jref/" +:+ String.substring 5 (String.length s - 5) s)
      else Ok s
  | _ => Raise AttributeError
  end.

Definition dx1 : ndarray := [[1 # 10; 2 # 10]; [3 # 10; 4 # 10]].
Definition dy1 : ndarray := [[5 # 10; 6 # 10]; [7 # 10; 8 # 10]].
Definition dx2 : ndarray := [[-1 # 10; -2 # 10]; [-3 # 10; -4 # 10]].
Definition dy2 : ndarray := [[-5 # 10; -6 # 10]; [-7 # 10; -8 # 10]].

(** The reference file holds the arrays of two chips. *)
Definition getdata (dgfile ename : string) (extver : pyval) : res ndarray :=
  if String.eqb dgfile os_path then
    if String.eqb ename "DX" then
      if py_eq extver (PInt 1) then Ok dx1
      else if py_eq extver (PInt 2) then Ok dx2 else Raise KeyError
    else if String.eqb ename "DY" then
      if py_eq extver (PInt 1) then Ok dy1
      else if py_eq extver (PInt 2) then Ok dy2 else Raise KeyError
    else Raise KeyError
  else Raise IOError.

Definition acs_vals : sdict :=
  [ ("naxis1", PInt 65); ("naxis2", PInt 33); ("extver", PInt 1);
    ("crpix1", PFloat (67 # 2)); ("crpix2", PFloat (33 # 2));
    ("cdelt1", PFloat (1 # 1)); ("cdelt2", PFloat (1 # 1));
    ("crval1", PFloat (2048 # 1)); ("crval2", PFloat (1024 # 1)) ].

Definition dgeo_vals (instr : string) : option sdict :=
  if String.eqb instr "ACS" then Some acs_vals else None.

Definition primary (instrume : string) : HDU :=
  mkHDU [ mkCard "SIMPLE" (PBool true) "";
          mkCard "INSTRUME" (PStr instrume) "";
          mkCard "DGEOFILE" (PStr raw_path) "" ] None.

(** An extension named [extname] with version [extver], whose header ends
    with a history card. *)
Definition ext (extname : string) (extver : Z) : HDU :=
  mkHDU [ mkCard "XTENSION" (PStr "IMAGE") "";
          mkCard "EXTNAME" (PStr extname) "";
          mkCard "EXTVER" (PInt extver) "";
          mkCard "HISTORY" (PStr "flat-fielded") "" ] (Some [[0 # 1; 0 # 1]; [0 # 1; 0 # 1]]).

(** An extension without [EXTNAME]. *)
Definition anon : HDU :=
  mkHDU [ mkCard "XTENSION" (PStr "BINTABLE") "" ] None.

Definition run : HDUList -> option (HDUList * res unit) :=
  applyDgeoCorr osfn getdata dgeo_vals.

(** The file object a run ends with. *)
Definition final (fobj : HDUList) : HDUList :=
  match run fobj with
  | Some (fin, _) => fin
  | None => []
  end.

(** A file with one chip. *)
Definition one_chip : HDUList := [primary "ACS"; ext "SCI" 1].

(** A file with two chips, the second named in lower case and numbered
    out of order, and a table without [EXTNAME] between them. *)
Definition two_chips : HDUList := [primary "ACS"; ext "SCI" 2; anon; ext "sci" 1].

(** A file that holds the first lookup extension of its chip and not the
    second. *)
Definition partial : HDUList := [primary "ACS"; ext "SCI" 1; ext "WCSDVARR" 1].

(** A file whose lookup extensions are named in lower case. *)
Definition lower_case : HDUList :=
  [primary "ACS"; ext "SCI" 1; ext "wcsdvarr" 1; ext "wcsdvarr" 2].

(** A file of an instrument without defaults. *)
Definition unknown : HDUList := [primary "WFC3"; ext "SCI" 1; anon].

(** A file whose chip is named in lower case and whose two lookup
    extensions are in place. *)
Definition lower_sci : HDUList :=
  [primary "ACS"; ext "sci" 1; ext "WCSDVARR" 1; ext "WCSDVARR" 2].

(** A file without the reference-file keyword. *)
Definition no_dgeofile : HDUList :=
  [mkHDU [mkCard "SIMPLE" (PBool true) ""; mkCard "INSTRUME" (PStr "ACS") ""] None;
   ext "SCI" 1].

Definition one_chip_out : HDUList := Eval vm_compute in final one_chip.
Definition two_chips_out : HDUList := Eval vm_compute in final two_chips.
Definition partial_out : HDUList := Eval vm_compute in final partial.
Definition unknown_out : HDUList := Eval vm_compute in final unknown.
Definition lower_sci_out : HDUList := Eval vm_compute in final lower_sci.

(** A file with two WCSDVARR extensions of version 1, one before and one
    after that of version 2. *)
Definition duplicated : HDUList :=
  [primary "ACS"; ext "SCI" 1; ext "WCSDVARR" 1; ext "WCSDVARR" 2; ext "WCSDVARR" 1].

(** A file with a WCSDVARR extension that has no [EXTVER]. *)
Definition versionless : HDUList :=
  [primary "ACS"; ext "SCI" 1;
   mkHDU [mkCard "XTENSION" (PStr "IMAGE") ""; mkCard "EXTNAME" (PStr "WCSDVARR") ""] None].

(** A file whose second chip has a version the reference file does not
    hold. *)
Definition third_chip : HDUList := [primary "ACS"; ext "SCI" 1; ext "SCI" 3].

(** The lookup HDU of version 1 for the [DX] axis of chip 1. *)
Definition lookup_dx : HDU :=
  Eval vm_compute in
    match createDgeoHDU getdata dgeo_vals os_path 1 "DX" (PInt 1) one_chip with
    | (_, Ok hdu) => hdu
    | (_, Raise _) => anon
    end.

(** Defaults that lack [crpix2], and a table that holds them. *)
Definition bare_vals : sdict :=
  [ ("naxis1", PInt 65); ("naxis2", PInt 33); ("extver", PInt 1);
    ("crpix1", PFloat (67 # 2));
    ("cdelt1", PFloat (1 # 1)); ("cdelt2", PFloat (1 # 1));
    ("crval1", PFloat (2048 # 1)); ("crval2", PFloat (1024 # 1)) ].

Definition bare_table (instr : string) : option sdict :=
  if String.eqb instr "ACS" then Some bare_vals else None.

Definition duplicated_out : HDUList := Eval vm_compute in final duplicated.
Definition third_chip_out : HDUList := Eval vm_compute in final third_chip.

(** A file whose chip has, after its history, a [CPDIS1] card written by
    an earlier processing. *)
Definition late_cpdis : HDUList :=
  [primary "ACS";
   mkHDU [ mkCard "XTENSION" (PStr "IMAGE") "";
           mkCard "EXTNAME" (PStr "SCI") "";
           mkCard "EXTVER" (PInt 1) "";
           mkCard "HISTORY" (PStr "flat-fielded") "";
           mkCard "CPDIS1" (PStr "Polynomial") "" ] (Some [[0 # 1; 0 # 1]; [0 # 1; 0 # 1]])].

Definition late_cpdis_out : HDUList := Eval vm_compute in final late_cpdis.

(** A file whose primary HDU is named and numbered as the lookup
    extension of version 2, beside the lookup extension of version 1. *)
Definition primary_lookup : HDUList :=
  [mkHDU [ mkCard "SIMPLE" (PBool true) "";
           mkCard "INSTRUME" (PStr "ACS") "";
           mkCard "DGEOFILE" (PStr raw_path) "";
           mkCard "EXTNAME" (PStr "WCSDVARR") "";
           mkCard "EXTVER" (PInt 2) "" ] None;
   ext "SCI" 1; ext "WCSDVARR" 1].

End Sample.

(** ** Vocabulary of the statements *)

(** The first card with keyword [k]. *)
Fixpoint card_get (hdr : Header) (k : string) : option Card :=
  match hdr with
  | [] => None
  | c :: r => if String.eqb (key c) k then Some c else card_get r k
  end.

(** The effect of [hdr.update(..., before='HISTORY')] for each card of a
    list, in order. *)
Definition apply_cards (cs : list Card) (hdr : Header) : Header :=
  fold_left (fun h c => update h (key c) (value c) (comment c) "HISTORY") cs hdr.

(** The cards one call of [addSciExtKw] writes, given the value [raw] of
    [DGEOFILE] in the primary header. *)
Definition kw_cards (raw : pyval) (ename : string) (extver : Z) : list Card :=
  sci_cards (axis_of ename) extver ++ [mkCard "DGEOFILE" raw dgeofile_comment].

(** The cards written to a science header whose [DX] table has version
    [v]: both calls of [addSciExtKw], then [updateDGEOkw]. *)
Definition annot_cards (raw : pyval) (v : Z) : list Card :=
  kw_cards raw "DX" v ++ kw_cards raw "DY" (v + 1) ++ [mkCard "DGEOFILE" raw dgeofile_comment].

Definition annotate (raw : pyval) (v : Z) (h : HDU) : HDU :=
  set_header (apply_cards (annot_cards raw v)) h.

(** A computation that leaves the file object alone and looks at nothing
    but the instrument named by the primary header. *)
Definition reads_instr {A} (m : M A) : Prop :=
  (forall s, (m s).1 = s) /\
  (forall s1 s2, (getkw 0 "INSTRUME" s1).2 = (getkw 0 "INSTRUME" s2).2 ->
                 (m s1).2 = (m s2).2).

(** The value of [kw[k] or instr_vals[k]]. *)
Definition kw_or_res (kw instr_vals : sdict) (k : string) : res pyval :=
  match sdict_item kw k with
  | Ok a => if truthy a then Ok a else sdict_item instr_vals k
  | Raise e => Raise e
  end.

(** A function applied to the header of the HDU a reference points to,
    when that HDU still is in the file object. *)
Definition upd_slot (slot : option nat) (f : Header -> Header) (s : HDUList) : HDUList :=
  match slot with
  | Some i => alter (set_header f) i s
  | None => s
  end.

(** The value of [self.fobj[0].header[k]]. *)
Definition primary_kw (s : HDUList) (k : string) : res pyval := (getkw 0 k s).2.

(** The keywords of a list of cards. *)
Definition keys_of (cs : list Card) : list string := map key cs.

(** A Hoare-style judgement on the monad: every run of [m] takes the file
    object along [R], whether it raises or not, and a value it returns
    satisfies [V]. *)
Definition hoare {A} (R : HDUList -> HDUList -> Prop) (m : M A) (V : A -> Prop) : Prop :=
  forall s, R s (m s).1 /\ forall a, (m s).2 = Ok a -> V a.

(** The positions held by the dictionary of [getwcsindex]. *)
Definition in_range (wcsd : dict) (p : nat) : Prop := exists q, dict_get wcsd q = Some p.

(** An HDU made of the card list of [createDgeoHdr] and a data array. *)
Definition is_lookup (hdu : HDU) : Prop :=
  exists naxis1 naxis2 extver crpix1 crpix2 cdelt1 cdelt2 crval1 crval2 dat,
    hdu = mkHDU (dgeo_cardlist naxis1 naxis2 extver crpix1 crpix2 cdelt1 cdelt2 crval1 crval2)
                (Some dat).

(** What the body run for the science HDU of slot [i] may change: that
    slot, the length, and the slots held by the dictionary, which may take
    a lookup HDU. *)
Definition frame (wcsd : dict) (i : nat) (s s' : HDUList) : Prop :=
  (List.length s <= List.length s')%nat /\
  forall p, p ≠ i -> (p < List.length s)%nat ->
            s' !! p = s !! p \/
            (in_range wcsd p /\ exists hdu, s' !! p = Some hdu /\ is_lookup hdu).

(** Growth of the file object by at most [a] HDUs, none of them a science
    extension beyond position [k]. *)
Definition grows (k a : nat) (s s' : HDUList) : Prop :=
  (List.length s' <= List.length s + a)%nat /\ (nsci (drop k s') <= nsci (drop k s))%nat.

(** The turns [for ext in self.fobj] still needs from position [i]. *)
Definition turns_from (i : nat) (s : HDUList) : nat :=
  (2 * nsci (drop i s) + (List.length s - i) + 1)%nat.

(** The test [getwcsindex] applies to an HDU, for the key [q]: a WCSDVARR
    extension whose [EXTVER] equals [q]. *)
Definition matches (h : HDU) (q : pyval) : bool :=
  is_wcsdvarr h &&
  match header_get (header h) "EXTVER" with
  | Some v => py_eq v q
  | None => false
  end.

(** The last position from [e] on whose HDU matches [q], and [acc] when
    there is none. *)
Fixpoint scan_from (e : nat) (l : HDUList) (acc : option nat) (q : pyval) : option nat :=
  match l with
  | [] => acc
  | h :: r => scan_from (S e) r (if matches h q then Some e else acc) q
  end.

(** Where a lookup HDU of version [dgeover] goes: into the slot the
    dictionary holds for it, or at the end when the dictionary is empty. *)
Definition place (wcsd : dict) (dgeover : Z) (hdu : HDU) (s : HDUList) : HDUList :=
  if dict_nonempty wcsd then
    match dict_get wcsd (PInt dgeover) with
    | Some e => <[e:=hdu]> s
    | None => s
    end
  else s ++ [hdu].

(** The HDUs on which [ext.header['EXTNAME'].lower()] raises nothing: no
    [EXTNAME], or a string. *)
Definition name_ok (x : HDU) : bool :=
  match header_get (header x) "EXTNAME" with
  | None | Some (PStr _) => true
  | Some _ => false
  end.

(** [hdu] is the lookup HDU of version [j] of the file object [orig]: the
    one [createDgeoHDU] builds for the [DX] axis (odd [j]) or the [DY] axis
    (even [j]) of the science extension that has [(j - 1) / 2] science
    extensions before it. *)
Definition built (getdata : string -> string -> pyval -> res ndarray)
    (dgeo_vals : string -> option sdict) (orig : HDUList) (dgfile : string)
    (j : Z) (hdu : HDU) : Prop :=
  exists q hq v,
    orig !! q = Some hq /\ is_sci hq = true /\
    header_get (header hq) "EXTVER" = Some v /\
    ((j = 2 * Z.of_nat (nsci (take q orig)) + 1 /\
      (createDgeoHDU getdata dgeo_vals dgfile j "DX" v orig).2 = Ok hdu) \/
     (j = 2 * Z.of_nat (nsci (take q orig)) + 2 /\
      (createDgeoHDU getdata dgeo_vals dgfile j "DY" v orig).2 = Ok hdu)).

(** The state of [for ext in self.fobj] before the turn for position [i],
    when no exception has been raised so far: [cur] is the file object,
    [dg] the counter [dgeover], [orig] the file object the run started
    with, [wcsd] the dictionary of the scan and [raw] the value of
    [DGEOFILE] in the primary header. *)
Record loop_inv (getdata : string -> string -> pyval -> res ndarray)
    (dgeo_vals : string -> option sdict) (orig : HDUList) (wcsd : dict)
    (raw : pyval) (dgfile : string) (i : nat) (dg : Z) (cur : HDUList) : Prop := {
  inv_count : dg = 2 * Z.of_nat (nsci (take i orig));
  inv_length :
    List.length cur =
    if dict_nonempty wcsd then List.length orig
    else (List.length orig + Z.to_nat dg)%nat;
  inv_sci : forall p h,
    orig !! p = Some h -> is_sci h = true ->
    cur !! p = Some (if decide (p < i)%nat
                     then annotate raw (2 * Z.of_nat (nsci (take p orig)) + 1) h
                     else h);
  inv_other : forall p h,
    orig !! p = Some h -> is_sci h = false ->
    cur !! p = Some h \/
    exists j hdu, 1 <= j <= dg /\ dict_get wcsd (PInt j) = Some p /\
                  cur !! p = Some hdu /\ built getdata dgeo_vals orig dgfile j hdu;
  inv_slots : dict_nonempty wcsd = true -> forall j,
    1 <= j <= dg ->
    exists e hdu, dict_get wcsd (PInt j) = Some e /\ cur !! e = Some hdu /\
                  built getdata dgeo_vals orig dgfile j hdu;
  inv_new : dict_nonempty wcsd = false -> forall j,
    1 <= j <= dg ->
    exists hdu, cur !! (List.length orig + Z.to_nat (j - 1))%nat = Some hdu /\
                built getdata dgeo_vals orig dgfile j hdu;
  inv_dgeofile : primary_kw cur "DGEOFILE" = Ok raw;
  inv_instrume : primary_kw cur "INSTRUME" = primary_kw orig "INSTRUME";
  inv_names : forall p x, (p < i)%nat -> cur !! p = Some x -> name_ok x = true
}.

(** The last card of a list with keyword [k]. *)
Fixpoint last_card (cs : list Card) (k : string) : option Card :=
  match cs with
  | [] => None
  | c :: r =>
      match last_card r k with
      | Some c' => Some c'
      | None => if String.eqb (key c) k then Some c else None
      end
  end.

(** Keyword [k] occurs in the header, and before any card with keyword
    [b]. *)
Fixpoint before (hdr : Header) (k b : string) : bool :=
  match hdr with
  | [] => false
  | c :: r =>
      if String.eqb (key c) k then true
      else if String.eqb (key c) b then false
      else before r k b
  end.

(** The keywords the annotation writes to a science header. *)
Definition annot_keys : list string :=
  [ "CPERROR1"; "CPDIS1"; "DP1.EXTVER"; "DP1.NAXES"; "DP1.AXIS.1"; "DP1.AXIS.2";
    "CPERROR2"; "CPDIS2"; "DP2.EXTVER"; "DP2.NAXES"; "DP2.AXIS.1"; "DP2.AXIS.2";
    "DGEOFILE" ].

(** The defaults of an instrument hold every grid descriptor that
    [createDgeoHDU] leaves to them. *)
Definition complete (vals : sdict) : bool :=
  forallb (fun k => match sdict_get vals k with Some _ => true | None => false end)
    ["naxis1"; "naxis2"; "crpix1"; "crpix2"; "cdelt1"; "cdelt2"; "crval1"; "crval2"].

(** The cards of a header other than those of the annotation keywords,
    in the order of the header. *)
Definition other_cards (hdr : Header) : Header :=
  filter (fun c => key c ∉ annot_keys) hdr.

(** A science HDU after cards for some of the annotation keywords have
    been written to its header: the data are the same. *)
Definition rewritten (x x' : HDU) : Prop :=
  exists cs, (forall c, c ∈ cs -> key c ∈ annot_keys) /\ x' = set_header (apply_cards cs) x.

(** What the pass over the science HDU of slot [i], entered with the
    counter at [dg], may have done to the file object when it ends or
    raises: the file object is no shorter, and as long when the dictionary
    holds something; another slot is as it was, or is the slot the
    dictionary holds for version [dg + 1] or [dg + 2] and has a lookup HDU
    of that version in it; what lies beyond the old length is lookup HDUs;
    slot [i] itself has had annotation keywords written. *)
Definition pass (wcsd : dict) (i : nat) (dg : Z) (s s' : HDUList) : Prop :=
  (List.length s <= List.length s')%nat /\
  (dict_nonempty wcsd = true -> List.length s' = List.length s) /\
  (forall p, p ≠ i -> (p < List.length s)%nat ->
     s' !! p = s !! p \/
     exists j hdu, dg < j <= dg + 2 /\ dict_get wcsd (PInt j) = Some p /\
                   s' !! p = Some hdu /\ is_lookup hdu /\
                   header_get (header hdu) "EXTVER" = Some (PInt j)) /\
  ((i < List.length s)%nat ->
   forall p x, (List.length s <= p)%nat -> s' !! p = Some x -> is_lookup x) /\
  (~ in_range wcsd i ->
   forall x, s !! i = Some x -> exists x', s' !! i = Some x' /\ rewritten x x').

(** The keyword arguments of [createDgeoHdr] with the keyword each one
    fills; [crpix2] is not among them, its value is not written. *)
Definition descriptors : list (string * string) :=
  [ ("naxis1", "NAXIS1"); ("naxis2", "NAXIS2"); ("extver", "EXTVER");
    ("crpix1", "CRPIX1"); ("cdelt1", "CDELT1"); ("crval1", "CRVAL1");
    ("cdelt2", "CDELT2"); ("crval2", "CRVAL2") ].

(** The names [createDgeoHdr] looks up, in the order it does. *)
Definition kw_names : list string :=
  [ "naxis1"; "naxis2"; "extver"; "crpix1"; "crpix2"; "cdelt1"; "cdelt2"; "crval1";
    "crval2" ].

(** * Properties *)

(** ** Strings and values *)

Lemma eqb_false_ne (a b : string) : a ≠ b -> String.eqb a b = false.
Proof. intros H. now apply String.eqb_neq. Qed.

Lemma py_eq_int (a b : Z) : py_eq (PInt a) (PInt b) = (a =? b).
Proof.
  change (py_eq (PInt a) (PInt b)) with (Qeq_bool (inject_Z a) (inject_Z b)).
  destruct (Z.eqb_spec a b) as [->|Hne].
  - apply Qeq_bool_iff. reflexivity.
  - destruct (Qeq_bool (inject_Z a) (inject_Z b)) eqn:E; [|reflexivity].
    apply Qeq_bool_iff in E. destruct (inject_Z_injective a b) as [Hi _].
    elim Hne. exact (Hi E).
Qed.

Lemma py_eq_sym (v w : pyval) : py_eq v w = py_eq w v.
Proof.
  assert (Hq : forall a b, Qeq_bool a b = Qeq_bool b a).
  { intros a b. destruct (Qeq_bool a b) eqn:E1, (Qeq_bool b a) eqn:E2; try reflexivity.
    - apply Qeq_bool_iff in E1. symmetry in E1. apply Qeq_bool_iff in E1. congruence.
    - apply Qeq_bool_iff in E2. symmetry in E2. apply Qeq_bool_iff in E2. congruence. }
  destruct v, w; simpl; try reflexivity; try apply Hq.
  apply String.eqb_sym.
Qed.

Lemma py_eq_trans (u v w : pyval) :
  py_eq u v = true -> py_eq v w = true -> py_eq u w = true.
Proof.
  assert (Hq : forall a b c, Qeq_bool a b = true -> Qeq_bool b c = true -> Qeq_bool a c = true).
  { intros a b c H1 H2. apply Qeq_bool_iff in H1, H2. apply Qeq_bool_iff.
    now rewrite H1. }
  destruct u, v, w; simpl; try discriminate; try reflexivity; try apply Hq.
  intros H1 H2. apply String.eqb_eq in H1, H2. subst. apply String.eqb_refl.
Qed.

Lemma py_eq_str_inv (v : pyval) (s : string) : py_eq v (PStr s) = true -> v = PStr s.
Proof.
  destruct v; simpl; try discriminate.
  intros H. apply String.eqb_eq in H. now subst.
Qed.

(** ** Headers *)

Lemma header_get_card (hdr : Header) (k : string) :
  header_get hdr k = value <$> card_get hdr k.
Proof.
  induction hdr as [|c r IH]; simpl; [reflexivity|].
  destruct (String.eqb (key c) k); [reflexivity|apply IH].
Qed.

Lemma has_key_card (hdr : Header) (k : string) :
  has_key hdr k = true <-> is_Some (card_get hdr k).
Proof.
  unfold has_key. induction hdr as [|c r IH]; simpl.
  - split; [discriminate|intros [? ?]; discriminate].
  - destruct (String.eqb (key c) k); simpl; [split; eauto|apply IH].
Qed.

Lemma has_key_false (hdr : Header) (k : string) :
  has_key hdr k = false <-> card_get hdr k = None.
Proof.
  destruct (has_key hdr k) eqn:E.
  - apply has_key_card in E. destruct E as [c Hc]. rewrite Hc. split; discriminate.
  - split; [intros _|reflexivity].
    destruct (card_get hdr k) eqn:E'; [|reflexivity].
    assert (H : has_key hdr k = true) by (apply has_key_card; rewrite E'; eauto).
    congruence.
Qed.

Lemma card_get_key (hdr : Header) (k : string) (c : Card) :
  card_get hdr k = Some c -> key c = k.
Proof.
  induction hdr as [|c' r IH]; simpl; [discriminate|].
  destruct (String.eqb_spec (key c') k); [congruence|apply IH].
Qed.

Lemma card_get_replace_first_eq (hdr : Header) (k : string) (c : Card) :
  key c = k -> is_Some (card_get hdr k) -> card_get (replace_first hdr k c) k = Some c.
Proof.
  intros Hk. induction hdr as [|c' r IH]; simpl.
  - intros [? ?]; discriminate.
  - destruct (String.eqb (key c') k) eqn:E; simpl.
    + intros _. now rewrite Hk, String.eqb_refl.
    + rewrite E. apply IH.
Qed.

Lemma card_get_replace_first_ne (hdr : Header) (k k' : string) (c : Card) :
  key c = k -> k ≠ k' -> card_get (replace_first hdr k c) k' = card_get hdr k'.
Proof.
  intros Hk Hne. induction hdr as [|c' r IH]; simpl; [reflexivity|].
  destruct (String.eqb_spec (key c') k) as [E|E]; simpl.
  - rewrite Hk, E. now rewrite !eqb_false_ne.
  - destruct (String.eqb (key c') k'); [reflexivity|apply IH].
Qed.

Lemma card_get_insert_before_eq (hdr : Header) (b k : string) (c : Card) :
  key c = k -> card_get hdr k = None -> card_get (insert_before hdr b c) k = Some c.
Proof.
  intros Hk. induction hdr as [|c' r IH]; simpl.
  - intros _. now rewrite Hk, String.eqb_refl.
  - destruct (String.eqb (key c') k) eqn:E; [discriminate|]. intros Hr.
    destruct (String.eqb (key c') b); simpl.
    + now rewrite Hk, String.eqb_refl.
    + rewrite E. now apply IH.
Qed.

Lemma card_get_insert_before_ne (hdr : Header) (b k k' : string) (c : Card) :
  key c = k -> k ≠ k' -> card_get (insert_before hdr b c) k' = card_get hdr k'.
Proof.
  intros Hk Hne. induction hdr as [|c' r IH]; simpl.
  - rewrite Hk. now rewrite eqb_false_ne.
  - destruct (String.eqb (key c') b); simpl.
    + rewrite Hk. now rewrite (eqb_false_ne k k').
    + destruct (String.eqb (key c') k'); [reflexivity|apply IH].
Qed.

Lemma card_get_update_eq (hdr : Header) (k : string) (v : pyval) (cm b : string) :
  card_get (update hdr k v cm b) k = Some (mkCard k v cm).
Proof.
  unfold update. destruct (has_key hdr k) eqn:E.
  - apply card_get_replace_first_eq; [reflexivity|now apply has_key_card].
  - apply card_get_insert_before_eq; [reflexivity|now apply has_key_false].
Qed.

Lemma card_get_update_ne (hdr : Header) (k k' : string) (v : pyval) (cm b : string) :
  k ≠ k' -> card_get (update hdr k v cm b) k' = card_get hdr k'.
Proof.
  intros Hne. unfold update. destruct (has_key hdr k).
  - now apply (card_get_replace_first_ne hdr k k').
  - now apply (card_get_insert_before_ne hdr b k k').
Qed.

Lemma replace_first_id (hdr : Header) (k : string) (c : Card) :
  card_get hdr k = Some c -> replace_first hdr k c = hdr.
Proof.
  induction hdr as [|c' r IH]; simpl; [reflexivity|].
  destruct (String.eqb (key c') k).
  - congruence.
  - intros H. now rewrite IH.
Qed.

(** Writing again what a header already says changes nothing. *)
Lemma update_id (hdr : Header) (k : string) (v : pyval) (cm b : string) :
  card_get hdr k = Some (mkCard k v cm) -> update hdr k v cm b = hdr.
Proof.
  intros H. unfold update.
  assert (Hk : has_key hdr k = true) by (apply has_key_card; rewrite H; eauto).
  rewrite Hk. now apply replace_first_id.
Qed.

Lemma header_get_update_eq (hdr : Header) (k : string) (v : pyval) (cm b : string) :
  header_get (update hdr k v cm b) k = Some v.
Proof. now rewrite header_get_card, card_get_update_eq. Qed.

Lemma header_get_update_ne (hdr : Header) (k k' : string) (v : pyval) (cm b : string) :
  k ≠ k' -> header_get (update hdr k v cm b) k' = header_get hdr k'.
Proof. intros H. now rewrite !header_get_card, card_get_update_ne. Qed.

(** ** The monad *)

Lemma bind_inv {A B} (m : M A) (k : A -> M B) (s s' : HDUList) (r : res B) :
  bind m k s = (s', r) ->
  (exists s1 a, m s = (s1, Ok a) /\ k a s1 = (s', r)) \/
  (exists e, m s = (s', Raise e) /\ r = Raise e).
Proof.
  unfold bind. destruct (m s) as [s1 [a|e]]; intros H.
  - left. eauto.
  - right. inversion H; subst. eauto.
Qed.

Lemma bind_ok_inv {A B} (m : M A) (k : A -> M B) (s s' : HDUList) (b : B) :
  bind m k s = (s', Ok b) ->
  exists s1 a, m s = (s1, Ok a) /\ k a s1 = (s', Ok b).
Proof.
  intros H. apply bind_inv in H. destruct H as [H|[e [_ H]]]; [exact H|discriminate].
Qed.

Lemma bind_ok {A B} (m : M A) (k : A -> M B) (s s1 : HDUList) (a : A) :
  m s = (s1, Ok a) -> bind m k s = k a s1.
Proof. intros H. unfold bind. now rewrite H. Qed.

Lemma getkw_eq (i : nat) (k : string) (s : HDUList) :
  getkw i k s =
  (s, match s !! i with
      | None => Raise IndexError
      | Some h => of_option (header_get (header h) k) KeyError
      end).
Proof. unfold getkw, bind, getitem, lift. destruct (s !! i); reflexivity. Qed.

Lemma getkw_ok (i : nat) (k : string) (s s' : HDUList) (v : pyval) :
  getkw i k s = (s', Ok v) ->
  s' = s /\ exists h, s !! i = Some h /\ header_get (header h) k = Some v.
Proof.
  rewrite getkw_eq. destruct (s !! i) as [h|] eqn:E; [|discriminate].
  destruct (header_get (header h) k) eqn:E'; simpl; [|discriminate].
  intros H. inversion H; subst. eauto.
Qed.

Lemma getkw_state (i : nat) (k : string) (s : HDUList) : (getkw i k s).1 = s.
Proof. now rewrite getkw_eq. Qed.

Lemma reads_instr_lift {A} (r : res A) : reads_instr (lift r).
Proof. split; reflexivity. Qed.

Lemma reads_instr_ret {A} (a : A) : reads_instr (ret a).
Proof. split; reflexivity. Qed.

Lemma reads_instr_getkw : reads_instr (getkw 0 "INSTRUME").
Proof. split; [intros s; apply getkw_state|auto]. Qed.

Lemma reads_instr_bind {A B} (m : M A) (k : A -> M B) :
  reads_instr m -> (forall a, reads_instr (k a)) -> reads_instr (bind m k).
Proof.
  intros [Hm1 Hm2] Hk. split.
  - intros s. unfold bind. specialize (Hm1 s).
    destruct (m s) as [s1 [a|e]]; simpl in Hm1; subst; [|reflexivity].
    apply (Hk a).
  - intros s1 s2 Heq. unfold bind.
    pose proof (Hm1 s1) as H1. pose proof (Hm1 s2) as H2.
    specialize (Hm2 s1 s2 Heq).
    destruct (m s1) as [t1 [a1|e1]], (m s2) as [t2 [a2|e2]];
      simpl in *; subst; try discriminate.
    + inversion Hm2; subst. now apply (Hk a2).
    + now inversion Hm2.
Qed.

Lemma reads_instr_kw_or (kw vals : sdict) (k : string) : reads_instr (kw_or kw vals k).
Proof.
  unfold kw_or. apply reads_instr_bind; [apply reads_instr_lift|].
  intros a. destruct (truthy a); [apply reads_instr_ret|apply reads_instr_lift].
Qed.

Lemma reads_instr_createDgeoHdr (dgeo_vals : string -> option sdict) (kw : sdict) :
  reads_instr (createDgeoHdr dgeo_vals kw).
Proof.
  unfold createDgeoHdr.
  repeat first
    [ apply reads_instr_ret
    | apply reads_instr_lift
    | apply reads_instr_getkw
    | apply reads_instr_kw_or
    | apply reads_instr_bind; [|intros ?] ].
Qed.

Lemma reads_instr_createDgeoHDU getdata dgeo_vals (dgfile : string) (dgeover : Z)
    (ename : string) (extver : pyval) :
  reads_instr (createDgeoHDU getdata dgeo_vals dgfile dgeover ename extver).
Proof.
  unfold createDgeoHDU, getDgeoData.
  apply reads_instr_bind; [apply reads_instr_createDgeoHdr|intros hdr].
  apply reads_instr_bind; [apply reads_instr_lift|intros dat].
  apply reads_instr_ret.
Qed.

Lemma kw_or_eq (kw vals : sdict) (k : string) (s : HDUList) :
  kw_or kw vals k s = (s, kw_or_res kw vals k).
Proof.
  unfold kw_or, kw_or_res, bind, lift, ret.
  destruct (sdict_item kw k) as [a|e]; [|reflexivity].
  destruct (truthy a); reflexivity.
Qed.

Lemma kw_or_res_extver (dgeover : Z) (vals : sdict) :
  dgeover ≠ 0 -> kw_or_res (dgeokw dgeover) vals "extver" = Ok (PInt dgeover).
Proof.
  intros H. unfold kw_or_res. simpl.
  destruct (Z.eqb_spec dgeover 0); [contradiction|reflexivity].
Qed.

(** What a successful [createDgeoHdr] has read and built. *)
Lemma createDgeoHdr_ok dgeo_vals (kw : sdict) (s s' : HDUList) (hdr : Header) :
  createDgeoHdr dgeo_vals kw s = (s', Ok hdr) ->
  s' = s /\
  exists instr vals naxis1 naxis2 extver crpix1 crpix2 cdelt1 cdelt2 crval1 crval2,
    getkw 0 "INSTRUME" s = (s, Ok instr) /\
    dgeo_vals_item dgeo_vals instr = Ok vals /\
    kw_or_res kw vals "naxis1" = Ok naxis1 /\
    kw_or_res kw vals "naxis2" = Ok naxis2 /\
    kw_or_res kw vals "extver" = Ok extver /\
    kw_or_res kw vals "crpix1" = Ok crpix1 /\
    kw_or_res kw vals "crpix2" = Ok crpix2 /\
    kw_or_res kw vals "cdelt1" = Ok cdelt1 /\
    kw_or_res kw vals "cdelt2" = Ok cdelt2 /\
    kw_or_res kw vals "crval1" = Ok crval1 /\
    kw_or_res kw vals "crval2" = Ok crval2 /\
    hdr = dgeo_cardlist naxis1 naxis2 extver crpix1 crpix2 cdelt1 cdelt2 crval1 crval2.
Proof.
  unfold createDgeoHdr. intros H.
  apply bind_ok_inv in H. destruct H as (s1 & instr & H0 & H).
  pose proof (getkw_ok _ _ _ _ _ H0) as [-> _].
  apply bind_ok_inv in H. destruct H as (s2 & vals & H1 & H).
  unfold lift in H1. assert (s2 = s) by congruence. subst s2.
  assert (H1' : dgeo_vals_item dgeo_vals instr = Ok vals) by congruence. clear H1.
  repeat (apply bind_ok_inv in H;
          let sx := fresh "sx" in let x := fresh "x" in let Hx := fresh "Hx" in
          destruct H as (sx & x & Hx & H);
          rewrite kw_or_eq in Hx; inversion Hx; subst sx; clear Hx).
  unfold ret in H. inversion H; subst.
  split; [reflexivity|].
  exists instr, vals, x, x0, x1, x2, x3, x4, x5, x6, x7.
  repeat split; try assumption; congruence.
Qed.

(** ** Writes to a science header *)

Lemma set_header_compose (f g : Header -> Header) (h : HDU) :
  set_header g (set_header f h) = set_header (fun x => g (f x)) h.
Proof. reflexivity. Qed.

Lemma upd_slot_compose (slot : option nat) (f g : Header -> Header) (s : HDUList) :
  upd_slot slot g (upd_slot slot f s) = upd_slot slot (fun x => g (f x)) s.
Proof.
  destruct slot as [i|]; unfold upd_slot; [|reflexivity].
  rewrite list_alter_alter_eq. apply list_alter_ext; [|reflexivity].
  intros h _. apply set_header_compose.
Qed.

Lemma upd_slot_length (slot : option nat) (f : Header -> Header) (s : HDUList) :
  List.length (upd_slot slot f s) = List.length s.
Proof. destruct slot; unfold upd_slot; [apply length_alter|reflexivity]. Qed.

Lemma hdr_update_eq (slot : option nat) (k : string) (v : pyval) (cm : string) (s : HDUList) :
  hdr_update slot k v cm s = (upd_slot slot (fun h => update h k v cm "HISTORY") s, Ok tt).
Proof. destruct slot; reflexivity. Qed.

Lemma upd_slot_id (slot : option nat) (s : HDUList) : upd_slot slot (fun h => h) s = s.
Proof.
  destruct slot as [i|]; unfold upd_slot; [|reflexivity].
  apply list_alter_id. intros [hdr dat]. reflexivity.
Qed.

Lemma for_each_hdr_update (slot : option nat) (cs : list Card) (s : HDUList) :
  for_each cs (fun c => hdr_update slot (key c) (value c) (comment c)) s =
  (upd_slot slot (apply_cards cs) s, Ok tt).
Proof.
  revert s. induction cs as [|c cs IH]; intros s; simpl.
  - unfold ret, apply_cards. simpl. now rewrite upd_slot_id.
  - unfold bind. rewrite hdr_update_eq, IH. now rewrite upd_slot_compose.
Qed.

Lemma apply_cards_app (cs1 cs2 : list Card) (hdr : Header) :
  apply_cards (cs1 ++ cs2) hdr = apply_cards cs2 (apply_cards cs1 hdr).
Proof. unfold apply_cards. apply fold_left_app. Qed.

Lemma card_get_apply_cards_notin (cs : list Card) (hdr : Header) (k : string) :
  k ∉ keys_of cs -> card_get (apply_cards cs hdr) k = card_get hdr k.
Proof.
  revert hdr. induction cs as [|c cs IH]; intros hdr Hk; [reflexivity|].
  unfold keys_of in Hk. simpl in Hk. apply not_elem_of_cons in Hk. destruct Hk as [Hne Hk].
  change (apply_cards (c :: cs) hdr) with
    (apply_cards cs (update hdr (key c) (value c) (comment c) "HISTORY")).
  rewrite IH by exact Hk. apply card_get_update_ne. congruence.
Qed.

Lemma header_get_apply_cards_notin (cs : list Card) (hdr : Header) (k : string) :
  k ∉ keys_of cs -> header_get (apply_cards cs hdr) k = header_get hdr k.
Proof. intros H. now rewrite !header_get_card, card_get_apply_cards_notin. Qed.

(** The last card of a list written for a keyword is the one the header
    ends up with. *)
Lemma card_get_apply_cards_last (cs1 cs2 : list Card) (c : Card) (hdr : Header) :
  key c ∉ keys_of cs2 ->
  card_get (apply_cards (cs1 ++ c :: cs2) hdr) (key c) = Some c.
Proof.
  intros Hk. rewrite apply_cards_app.
  change (apply_cards (c :: cs2) (apply_cards cs1 hdr)) with
    (apply_cards cs2 (update (apply_cards cs1 hdr) (key c) (value c) (comment c) "HISTORY")).
  rewrite card_get_apply_cards_notin by exact Hk.
  rewrite card_get_update_eq. now destruct c.
Qed.

(** Cards a header already holds are written without effect. *)
Lemma apply_cards_id (cs : list Card) (hdr : Header) :
  (forall c, c ∈ cs -> card_get hdr (key c) = Some c) -> apply_cards cs hdr = hdr.
Proof.
  induction cs as [|c cs IH]; intros H; [reflexivity|].
  change (apply_cards (c :: cs) hdr) with
    (apply_cards cs (update hdr (key c) (value c) (comment c) "HISTORY")).
  rewrite update_id.
  - apply IH. intros c' Hc'. apply H. now right.
  - rewrite (H c) by now left. now destruct c.
Qed.

Lemma primary_kw_eq (s : HDUList) (k : string) :
  primary_kw s k =
  match s !! 0%nat with
  | None => Raise IndexError
  | Some h => of_option (header_get (header h) k) KeyError
  end.
Proof. unfold primary_kw. now rewrite getkw_eq. Qed.

Lemma getkw_primary (k : string) (s : HDUList) : getkw 0 k s = (s, primary_kw s k).
Proof. unfold primary_kw. now rewrite getkw_eq. Qed.

Lemma primary_kw_upd_slot (slot : option nat) (f : Header -> Header) (s : HDUList) (k : string) :
  (forall hdr, header_get (f hdr) k = header_get hdr k) ->
  primary_kw (upd_slot slot f s) k = primary_kw s k.
Proof.
  intros Hf. rewrite !primary_kw_eq. destruct slot as [i|]; unfold upd_slot; [|reflexivity].
  destruct (decide (i = 0%nat)) as [->|Hne].
  - rewrite list_lookup_alter_eq. destruct (s !! 0%nat) as [h|]; simpl; [|reflexivity].
    now rewrite Hf.
  - now rewrite list_lookup_alter_ne.
Qed.

Lemma addSciExtKw_eq (slot : option nat) (extver : Z) (ename : string) (s : HDUList) :
  addSciExtKw slot extver ename s =
  let s1 := upd_slot slot (apply_cards (sci_cards (axis_of ename) extver)) s in
  match primary_kw s1 "DGEOFILE" with
  | Ok raw => (upd_slot slot (apply_cards (kw_cards raw ename extver)) s, Ok tt)
  | Raise e => (s1, Raise e)
  end.
Proof.
  unfold addSciExtKw. unfold bind at 1. rewrite for_each_hdr_update.
  unfold bind. rewrite getkw_primary. simpl.
  destruct (primary_kw _ "DGEOFILE") as [raw|e]; [|reflexivity].
  rewrite hdr_update_eq, upd_slot_compose. unfold kw_cards.
  f_equal.
Qed.

Lemma updateDGEOkw_eq (slot : option nat) (s : HDUList) :
  updateDGEOkw slot s =
  match primary_kw s "DGEOFILE" with
  | Ok raw => (upd_slot slot (apply_cards [mkCard "DGEOFILE" raw dgeofile_comment]) s, Ok tt)
  | Raise e => (s, Raise e)
  end.
Proof.
  unfold updateDGEOkw, bind. rewrite getkw_primary.
  destruct (primary_kw s "DGEOFILE"); [|reflexivity].
  now rewrite hdr_update_eq.
Qed.

(** ** Rules of the judgement *)

Lemma hoare_bind {A B} (R1 R2 R3 : HDUList -> HDUList -> Prop) (m : M A) (k : A -> M B)
    (V : A -> Prop) (W : B -> Prop) :
  hoare R1 m V ->
  (forall a, V a -> hoare R2 (k a) W) ->
  (forall s1 s2, R1 s1 s2 -> R3 s1 s2) ->
  (forall s1 s2 s3, R1 s1 s2 -> R2 s2 s3 -> R3 s1 s3) ->
  hoare R3 (bind m k) W.
Proof.
  intros Hm Hk Hsub Hcomp s. destruct (Hm s) as [H1 H2]. unfold bind.
  destruct (m s) as [s1 [a|e]]; simpl in *.
  - destruct (Hk a (H2 a eq_refl) s1) as [H3 H4]. split; [|exact H4].
    eapply Hcomp; eassumption.
  - split; [now apply Hsub|discriminate].
Qed.

Lemma hoare_bind_pre {A B} (R : HDUList -> HDUList -> Prop) (m : M A) (k : A -> M B)
    (V : A -> Prop) (W : B -> Prop) :
  (forall s1 s2 s3, R s1 s2 -> R s2 s3 -> R s1 s3) ->
  hoare R m V -> (forall a, V a -> hoare R (k a) W) -> hoare R (bind m k) W.
Proof. intros Ht Hm Hk. eapply hoare_bind; eauto. Qed.

Lemma hoare_pure {A} (R : HDUList -> HDUList -> Prop) (m : M A) (V : A -> Prop) :
  (forall s, R s s) -> (forall s, (m s).1 = s) ->
  (forall s a, (m s).2 = Ok a -> V a) -> hoare R m V.
Proof.
  intros Hr Hs Hv s. rewrite Hs. split; [apply Hr|apply Hv].
Qed.

(** ** The lookup HDU *)

Lemma createDgeoHDU_state getdata dgeo_vals (dgfile : string) (dgeover : Z)
    (ename : string) (extver : pyval) (s : HDUList) :
  (createDgeoHDU getdata dgeo_vals dgfile dgeover ename extver s).1 = s.
Proof. apply reads_instr_createDgeoHDU. Qed.

(** What a successful [createDgeoHDU] returns. *)
Lemma createDgeoHDU_ok getdata dgeo_vals (dgfile : string) (dgeover : Z)
    (ename : string) (extver : pyval) (s : HDUList) (hdu : HDU) :
  (createDgeoHDU getdata dgeo_vals dgfile dgeover ename extver s).2 = Ok hdu ->
  exists instr vals naxis1 naxis2 ev crpix1 crpix2 cdelt1 cdelt2 crval1 crval2 dat,
    primary_kw s "INSTRUME" = Ok instr /\
    dgeo_vals_item dgeo_vals instr = Ok vals /\
    kw_or_res (dgeokw dgeover) vals "extver" = Ok ev /\
    getdata dgfile ename extver = Ok dat /\
    hdu = mkHDU (dgeo_cardlist naxis1 naxis2 ev crpix1 crpix2 cdelt1 cdelt2 crval1 crval2)
                (Some dat).
Proof.
  intros H.
  pose proof (createDgeoHDU_state getdata dgeo_vals dgfile dgeover ename extver s) as Hs.
  destruct (createDgeoHDU getdata dgeo_vals dgfile dgeover ename extver s) as [s' r] eqn:E.
  simpl in *. subst s' r. unfold createDgeoHDU in E.
  apply bind_ok_inv in E. destruct E as (s1 & hdr & E1 & E).
  apply createDgeoHdr_ok in E1.
  destruct E1 as (-> & instr & vals & n1 & n2 & ev & c1 & c2 & d1 & d2 & v1 & v2 &
                  Hi & Hv & _ & _ & Hev & _ & _ & _ & _ & _ & _ & ->).
  apply bind_ok_inv in E. destruct E as (s2 & dat & E2 & E).
  unfold getDgeoData, lift in E2. unfold ret in E.
  exists instr, vals, n1, n2, ev, c1, c2, d1, d2, v1, v2, dat.
  rewrite getkw_primary in Hi.
  repeat split; congruence.
Qed.

Lemma createDgeoHDU_kind getdata dgeo_vals (dgfile : string) (dgeover : Z)
    (ename : string) (extver : pyval) (s : HDUList) (hdu : HDU) :
  (createDgeoHDU getdata dgeo_vals dgfile dgeover ename extver s).2 = Ok hdu ->
  is_sci hdu = false /\ is_wcsdvarr hdu = true /\
  header_get (header hdu) "DGEOFILE" = None /\
  (dgeover ≠ 0 -> header_get (header hdu) "EXTVER" = Some (PInt dgeover)).
Proof.
  intros H. apply createDgeoHDU_ok in H.
  destruct H as (instr & vals & n1 & n2 & ev & c1 & c2 & d1 & d2 & v1 & v2 & dat &
                 _ & _ & Hev & _ & ->).
  repeat split; try reflexivity.
  intros Hne. rewrite kw_or_res_extver in Hev by exact Hne. simpl. congruence.
Qed.

(** The lookup HDU depends on the file object through [INSTRUME] alone. *)
Lemma createDgeoHDU_instr getdata dgeo_vals (dgfile : string) (dgeover : Z)
    (ename : string) (extver : pyval) (s1 s2 : HDUList) :
  primary_kw s1 "INSTRUME" = primary_kw s2 "INSTRUME" ->
  (createDgeoHDU getdata dgeo_vals dgfile dgeover ename extver s1).2 =
  (createDgeoHDU getdata dgeo_vals dgfile dgeover ename extver s2).2.
Proof. apply reads_instr_createDgeoHDU. Qed.

(** ** Counting science extensions *)

Lemma nsci_app (l1 l2 : HDUList) : nsci (l1 ++ l2) = (nsci l1 + nsci l2)%nat.
Proof. unfold nsci. now rewrite filter_app, length_app. Qed.

Lemma nsci_cons (h : HDU) (l : HDUList) :
  nsci (h :: l) = ((if is_sci h then 1 else 0) + nsci l)%nat.
Proof.
  unfold nsci. rewrite filter_cons. destruct (is_sci h); simpl.
  - destruct (decide (true = true)); [reflexivity|contradiction].
  - destruct (decide (false = true)); [discriminate|reflexivity].
Qed.

Lemma nsci_le_length (l : HDUList) : (nsci l <= List.length l)%nat.
Proof. unfold nsci. apply length_filter. Qed.

Lemma nsci_insert_le (l : HDUList) (i : nat) (h : HDU) :
  is_sci h = false -> (nsci (<[i:=h]> l) <= nsci l)%nat.
Proof.
  intros Hh. revert i. induction l as [|x l IH]; intros [|i]; simpl; try lia.
  - rewrite !nsci_cons, Hh. destruct (is_sci x); lia.
  - rewrite !nsci_cons. specialize (IH i). lia.
Qed.

Lemma nsci_drop_S (l : HDUList) (i : nat) (h : HDU) :
  l !! i = Some h ->
  nsci (drop i l) = ((if is_sci h then 1 else 0) + nsci (drop (S i) l))%nat.
Proof. intros H. rewrite (drop_S l h i H). apply nsci_cons. Qed.

Lemma nsci_take_S (l : HDUList) (i : nat) (h : HDU) :
  l !! i = Some h ->
  nsci (take (S i) l) = (nsci (take i l) + (if is_sci h then 1 else 0))%nat.
Proof.
  intros H. rewrite (take_S_r l i h H), nsci_app, nsci_cons.
  change (nsci []) with 0%nat. destruct (is_sci h); lia.
Qed.

(** ** One turn of the loop over the axes *)

Section Steps.

Variable getdata : string -> string -> pyval -> res ndarray.
Variable dgeo_vals : string -> option sdict.

Lemma axis_step_eq (dgfile : string) (wcsd : dict) (v : pyval) (ename : string)
    (st : option nat * Z) (s : HDUList) :
  axis_step getdata dgeo_vals dgfile wcsd v ename st s =
  match addSciExtKw st.1 (st.2 + 1) ename s with
  | (s1, Raise e) => (s1, Raise e)
  | (s1, Ok _) =>
      match (createDgeoHDU getdata dgeo_vals dgfile (st.2 + 1) ename v s1).2 with
      | Raise e => (s1, Raise e)
      | Ok hdu =>
          if dict_nonempty wcsd then
            match dict_get wcsd (PInt (st.2 + 1)) with
            | None => (s1, Raise KeyError)
            | Some idx =>
                if (idx <? List.length s1)%nat
                then (<[idx:=hdu]> s1,
                      Ok (if decide (st.1 = Some idx) then None else st.1, st.2 + 1))
                else (s1, Raise IndexError)
            end
          else (s1 ++ [hdu], Ok (st.1, st.2 + 1))
      end
  end.
Proof.
  unfold axis_step. unfold bind at 1.
  destruct (addSciExtKw st.1 (st.2 + 1) ename s) as [s1 [[]|e]]; [|reflexivity].
  unfold bind at 1.
  pose proof (createDgeoHDU_state getdata dgeo_vals dgfile (st.2 + 1) ename v s1) as Hs.
  destruct (createDgeoHDU getdata dgeo_vals dgfile (st.2 + 1) ename v s1) as [s2 [hdu|e]];
    simpl in *; subst s2; [|reflexivity].
  destruct (dict_nonempty wcsd); [|reflexivity].
  unfold bind, lift, setitem, ret.
  destruct (dict_get wcsd (PInt (st.2 + 1))) as [idx|]; simpl; [|reflexivity].
  destruct (idx <? List.length s1)%nat; reflexivity.
Qed.

(** *** The frame of a turn *)

Lemma frame_refl (wcsd : dict) (i : nat) (s : HDUList) : frame wcsd i s s.
Proof. split; [lia|]. intros p _ _. now left. Qed.

Lemma frame_trans (wcsd : dict) (i : nat) (s1 s2 s3 : HDUList) :
  frame wcsd i s1 s2 -> frame wcsd i s2 s3 -> frame wcsd i s1 s3.
Proof.
  intros [L1 F1] [L2 F2]. split; [lia|].
  intros p Hp Hlt.
  destruct (F2 p Hp ltac:(lia)) as [E2|H2]; [|now right].
  destruct (F1 p Hp Hlt) as [E1|(Hr & hdu & E1 & Hl)].
  - left. congruence.
  - right. split; [exact Hr|]. exists hdu. split; [congruence|exact Hl].
Qed.

Lemma frame_upd_slot (wcsd : dict) (i : nat) (slot : option nat) (f : Header -> Header)
    (s : HDUList) :
  slot = Some i \/ slot = None -> frame wcsd i s (upd_slot slot f s).
Proof.
  intros [->| ->]; unfold upd_slot; [|apply frame_refl].
  split; [rewrite length_alter; lia|].
  intros p Hp _. left. now apply list_lookup_alter_ne.
Qed.

Lemma frame_insert (wcsd : dict) (i idx : nat) (h : HDU) (s : HDUList) :
  in_range wcsd idx -> is_lookup h -> frame wcsd i s (<[idx:=h]> s).
Proof.
  intros Hr Hl. split; [rewrite length_insert; lia|].
  intros p _ Hp. destruct (decide (p = idx)) as [->|Hne].
  - right. split; [exact Hr|]. exists h. split; [|exact Hl].
    now apply list_lookup_insert_eq.
  - left. apply list_lookup_insert_ne. congruence.
Qed.

Lemma frame_app (wcsd : dict) (i : nat) (l : HDUList) (s : HDUList) :
  frame wcsd i s (s ++ l).
Proof.
  split; [rewrite length_app; lia|].
  intros p _ Hlt. left. now apply lookup_app_l.
Qed.

Lemma createDgeoHDU_is_lookup (dgfile : string) (dgeover : Z) (ename : string)
    (extver : pyval) (s : HDUList) (hdu : HDU) :
  (createDgeoHDU getdata dgeo_vals dgfile dgeover ename extver s).2 = Ok hdu ->
  is_lookup hdu.
Proof.
  intros H. apply createDgeoHDU_ok in H.
  destruct H as (instr & vals & n1 & n2 & ev & c1 & c2 & d1 & d2 & v1 & v2 & dat &
                 _ & _ & _ & _ & ->).
  exists n1, n2, ev, c1, c2, d1, d2, v1, v2, dat. reflexivity.
Qed.

Lemma addSciExtKw_frame (wcsd : dict) (i : nat) (slot : option nat) (extver : Z)
    (ename : string) (s : HDUList) :
  slot = Some i \/ slot = None -> frame wcsd i s (addSciExtKw slot extver ename s).1.
Proof.
  intros Hs. rewrite addSciExtKw_eq. simpl.
  destruct (primary_kw _ "DGEOFILE"); simpl; now apply frame_upd_slot.
Qed.

Lemma axis_step_frame (dgfile : string) (wcsd : dict) (v : pyval) (ename : string)
    (i : nat) (st : option nat * Z) :
  st.1 = Some i \/ st.1 = None ->
  hoare (frame wcsd i) (axis_step getdata dgeo_vals dgfile wcsd v ename st)
        (fun st' => st'.1 = Some i \/ st'.1 = None).
Proof.
  intros Hst s. rewrite axis_step_eq.
  pose proof (addSciExtKw_frame wcsd i st.1 (st.2 + 1) ename s Hst) as Hf.
  destruct (addSciExtKw st.1 (st.2 + 1) ename s) as [s1 [[]|e]]; simpl in Hf;
    [|split; [exact Hf|discriminate]].
  destruct (createDgeoHDU getdata dgeo_vals dgfile (st.2 + 1) ename v s1).2 as [hdu|e] eqn:Eh;
    [|split; [exact Hf|discriminate]].
  apply createDgeoHDU_is_lookup in Eh.
  destruct (dict_nonempty wcsd).
  - destruct (dict_get wcsd (PInt (st.2 + 1))) as [idx|] eqn:E;
      [|split; [exact Hf|discriminate]].
    destruct (idx <? List.length s1)%nat; [|split; [exact Hf|discriminate]].
    split; simpl.
    + eapply frame_trans; [exact Hf|].
      apply frame_insert; [now exists (PInt (st.2 + 1))|exact Eh].
    + intros a Ha. inversion Ha; subst; simpl. destruct (decide _); tauto.
  - split; simpl.
    + eapply frame_trans; [exact Hf|]. apply frame_app.
    + intros a Ha. inversion Ha; subst; simpl. exact Hst.
Qed.

Lemma sci_body_frame (dgfile : string) (wcsd : dict) (i : nat) (dgeover : Z) :
  hoare (frame wcsd i) (sci_body getdata dgeo_vals dgfile wcsd i dgeover) (fun _ => True).
Proof.
  unfold sci_body.
  eapply hoare_bind_pre; [apply frame_trans| |intros v _].
  { apply hoare_pure with (V := fun _ => True);
      [apply frame_refl|intros s; apply getkw_state|trivial]. }
  eapply hoare_bind_pre; [apply frame_trans| |intros st Hst].
  { simpl.
    eapply hoare_bind_pre; [apply frame_trans| |intros st1 Hst1].
    { apply axis_step_frame. now left. }
    eapply hoare_bind_pre; [apply frame_trans| |intros st2 Hst2].
    { apply axis_step_frame. exact Hst1. }
    apply hoare_pure with (V := fun st' => st'.1 = Some i \/ st'.1 = None);
      [apply frame_refl|reflexivity|].
    intros s a Ha. unfold ret in Ha. simpl in Ha. congruence. }
  apply hoare_bind_pre with (V := fun _ => True); [apply frame_trans| |intros [] _].
  { intros s. rewrite updateDGEOkw_eq. split; [|auto].
    destruct (primary_kw s "DGEOFILE"); simpl; [now apply frame_upd_slot|apply frame_refl]. }
  apply hoare_pure; [apply frame_refl|reflexivity|auto].
Qed.

End Steps.

(** ** Growth of the file object *)

Section Growth.

Variable getdata : string -> string -> pyval -> res ndarray.
Variable dgeo_vals : string -> option sdict.

Lemma grows_refl (k : nat) (s : HDUList) : grows k 0 s s.
Proof. split; lia. Qed.

Lemma grows_comp (k a b : nat) (s1 s2 s3 : HDUList) :
  grows k a s1 s2 -> grows k b s2 s3 -> grows k (a + b) s1 s3.
Proof. intros [L1 N1] [L2 N2]. split; lia. Qed.

Lemma grows_mono (k a b : nat) (s1 s2 : HDUList) :
  (a <= b)%nat -> grows k a s1 s2 -> grows k b s1 s2.
Proof. intros Hab [L N]. split; lia. Qed.

Lemma grows_upd_slot (k i : nat) (slot : option nat) (f : Header -> Header) (s : HDUList) :
  slot = Some i \/ slot = None -> (i < k)%nat -> grows k 0 s (upd_slot slot f s).
Proof.
  intros [->| ->] Hik; unfold upd_slot; [|apply grows_refl].
  split; [rewrite length_alter; lia|]. rewrite drop_alter_lt by exact Hik. lia.
Qed.

Lemma grows_insert (k idx : nat) (h : HDU) (s : HDUList) :
  is_sci h = false -> grows k 0 s (<[idx:=h]> s).
Proof.
  intros Hh. split; [rewrite length_insert; lia|].
  destruct (decide (idx < k)%nat) as [Hlt|Hge].
  - rewrite drop_insert_lt by exact Hlt. lia.
  - rewrite drop_insert_ge by lia. now apply nsci_insert_le.
Qed.

Lemma grows_app (k : nat) (h : HDU) (s : HDUList) :
  is_sci h = false -> grows k 1 s (s ++ [h]).
Proof.
  intros Hh. split; [rewrite length_app; simpl; lia|].
  rewrite drop_app, nsci_app.
  assert (nsci (drop (k - List.length s) [h]) = 0)%nat; [|lia].
  destruct (k - List.length s)%nat; simpl; [|now rewrite drop_nil].
  rewrite nsci_cons, Hh. reflexivity.
Qed.

Lemma addSciExtKw_grows (k i : nat) (slot : option nat) (extver : Z)
    (ename : string) (s : HDUList) :
  slot = Some i \/ slot = None -> (i < k)%nat ->
  grows k 0 s (addSciExtKw slot extver ename s).1.
Proof.
  intros Hs Hik. rewrite addSciExtKw_eq. simpl.
  destruct (primary_kw _ "DGEOFILE"); simpl; now apply grows_upd_slot with (i := i).
Qed.

Lemma axis_step_grows (dgfile : string) (wcsd : dict) (v : pyval) (ename : string)
    (k i : nat) (st : option nat * Z) :
  st.1 = Some i \/ st.1 = None -> (i < k)%nat ->
  hoare (grows k 1) (axis_step getdata dgeo_vals dgfile wcsd v ename st)
        (fun st' => st'.1 = Some i \/ st'.1 = None).
Proof.
  intros Hst Hik s. rewrite axis_step_eq.
  pose proof (addSciExtKw_grows k i st.1 (st.2 + 1) ename s Hst Hik) as Hf0.
  pose proof (grows_mono k 0 1 _ _ (Nat.le_0_l 1) Hf0) as Hf.
  destruct (addSciExtKw st.1 (st.2 + 1) ename s) as [s1 [[]|e]]; simpl in Hf, Hf0;
    [|split; [exact Hf|discriminate]].
  destruct (createDgeoHDU getdata dgeo_vals dgfile (st.2 + 1) ename v s1).2 as [hdu|e] eqn:Eh;
    [|split; [exact Hf|discriminate]].
  apply createDgeoHDU_kind in Eh. destruct Eh as (Hsci & _).
  destruct (dict_nonempty wcsd).
  - destruct (dict_get wcsd (PInt (st.2 + 1))) as [idx|] eqn:E;
      [|split; [exact Hf|discriminate]].
    destruct (idx <? List.length s1)%nat; [|split; [exact Hf|discriminate]].
    split; simpl.
    + destruct Hf0 as [L N]. destruct (grows_insert k idx hdu s1 Hsci) as [L' N'].
      split; lia.
    + intros a Ha. inversion Ha; subst; simpl. destruct (decide _); tauto.
  - split; simpl.
    + destruct Hf0 as [L N]. destruct (grows_app k hdu s1 Hsci) as [L' N'].
      split; lia.
    + intros a Ha. inversion Ha; subst; simpl. exact Hst.
Qed.

Lemma sci_body_grows (dgfile : string) (wcsd : dict) (i : nat) (dgeover : Z) (s : HDUList) :
  grows (S i) 2 s (sci_body getdata dgeo_vals dgfile wcsd i dgeover s).1.
Proof.
  revert s.
  assert (H : hoare (grows (S i) 2)
                (sci_body getdata dgeo_vals dgfile wcsd i dgeover) (fun _ => True));
    [|intros s; apply H].
  unfold sci_body.
  apply hoare_bind with (R1 := grows (S i) 0) (R2 := grows (S i) 2) (V := fun _ => True).
  { apply hoare_pure; [apply grows_refl|intros s; apply getkw_state|auto]. }
  2: { intros s1 s2. apply grows_mono. lia. }
  2: { intros s1 s2 s3. apply (grows_comp (S i) 0 2). }
  intros v _.
  apply hoare_bind with (R1 := grows (S i) 2) (R2 := grows (S i) 0)
                        (V := fun st' => st'.1 = Some i \/ st'.1 = None).
  2: { intros st Hst.
       apply hoare_bind with (R1 := grows (S i) 0) (R2 := grows (S i) 0) (V := fun _ => True).
       - intros s. rewrite updateDGEOkw_eq. split; [|auto].
         destruct (primary_kw s "DGEOFILE"); simpl;
           [apply grows_upd_slot with (i := i); [exact Hst|lia]|apply grows_refl].
       - intros [] _. apply hoare_pure; [apply grows_refl|reflexivity|auto].
       - auto.
       - intros s1 s2 s3. apply (grows_comp (S i) 0 0). }
  2: { auto. }
  2: { intros s1 s2 s3. apply (grows_comp (S i) 2 0). }
  simpl.
  apply hoare_bind with (R1 := grows (S i) 1) (R2 := grows (S i) 1)
                        (V := fun st' => st'.1 = Some i \/ st'.1 = None).
  { apply axis_step_grows with (i := i); [now left|lia]. }
  2: { intros s1 s2. apply grows_mono. lia. }
  2: { intros s1 s2 s3. apply (grows_comp (S i) 1 1). }
  intros st1 Hst1.
  apply hoare_bind with (R1 := grows (S i) 1) (R2 := grows (S i) 0)
                        (V := fun st' => st'.1 = Some i \/ st'.1 = None).
  { apply axis_step_grows with (i := i); [exact Hst1|lia]. }
  2: { auto. }
  2: { intros s1 s2 s3. apply (grows_comp (S i) 1 0). }
  intros st2 Hst2.
  apply hoare_pure; [apply grows_refl|reflexivity|].
  intros s a Ha. unfold ret in Ha. simpl in Ha. congruence.
Qed.

Lemma ext_body_not_sci (dgfile : string) (wcsd : dict) (i : nat) (ext : HDU) (dgeover : Z)
    (s : HDUList) :
  is_sci ext = false ->
  (ext_body getdata dgeo_vals dgfile wcsd i ext dgeover s).1 = s /\
  forall d, (ext_body getdata dgeo_vals dgfile wcsd i ext dgeover s).2 = Ok d -> d = dgeover.
Proof.
  unfold is_sci, ext_body. destruct (header_get (header ext) "EXTNAME") as [[| | | |n]|];
    simpl; try (intros _; split; [reflexivity|congruence]).
  intros ->. unfold ret. simpl. split; [reflexivity|congruence].
Qed.

Lemma ext_body_sci (dgfile : string) (wcsd : dict) (i : nat) (ext : HDU) (dgeover : Z) :
  is_sci ext = true ->
  ext_body getdata dgeo_vals dgfile wcsd i ext dgeover =
  sci_body getdata dgeo_vals dgfile wcsd i dgeover.
Proof.
  unfold is_sci, ext_body. destruct (header_get (header ext) "EXTNAME") as [[| | | |n]|];
    try discriminate.
  now intros ->.
Qed.

(** The loop over the extensions ends within [turns_from] turns. *)
Lemma ext_loop_total (dgfile : string) (wcsd : dict) (fuel : nat) :
  forall i dgeover s,
    (turns_from i s <= fuel)%nat ->
    is_Some (ext_loop getdata dgeo_vals fuel dgfile wcsd i dgeover s).
Proof.
  induction fuel as [|fuel IH]; intros i dgeover s Hf.
  - unfold turns_from in Hf. lia.
  - simpl. destruct (s !! i) as [ext|] eqn:Ei; [|eauto].
    pose proof (lookup_lt_Some _ _ _ Ei) as Hlt.
    pose proof (nsci_drop_S s i ext Ei) as Hn.
    destruct (is_sci ext) eqn:Esci.
    + rewrite ext_body_sci by exact Esci.
      pose proof (sci_body_grows dgfile wcsd i dgeover s) as [L N].
      destruct (sci_body getdata dgeo_vals dgfile wcsd i dgeover s) as [s' [d|e]];
        [|eauto].
      apply IH. simpl in L, N. unfold turns_from in *. lia.
    + pose proof (ext_body_not_sci dgfile wcsd i ext dgeover s Esci) as [Hs Hd].
      destruct (ext_body getdata dgeo_vals dgfile wcsd i ext dgeover s) as [s' [d|e]];
        [|eauto].
      simpl in Hs. subst s'. apply IH.
      assert (nsci (drop (S i) s) <= nsci (drop i s))%nat by lia.
      unfold turns_from in *. lia.
Qed.

(** More turns than needed give the same result. *)
Lemma ext_loop_fuel_mono (dgfile : string) (wcsd : dict) (fuel fuel' : nat) :
  forall i dgeover s r,
    ext_loop getdata dgeo_vals fuel dgfile wcsd i dgeover s = Some r ->
    (fuel <= fuel')%nat ->
    ext_loop getdata dgeo_vals fuel' dgfile wcsd i dgeover s = Some r.
Proof.
  revert fuel'. induction fuel as [|fuel IH]; intros fuel' i dgeover s r H Hle;
    [discriminate|].
  destruct fuel' as [|fuel']; [lia|]. simpl in *.
  destruct (s !! i) as [ext|]; [|exact H].
  destruct (ext_body getdata dgeo_vals dgfile wcsd i ext dgeover s) as [s' [d|e]];
    [|exact H].
  apply IH; [exact H|lia].
Qed.

End Growth.

(** ** The dictionary of [getwcsindex] *)

Lemma py_eq_left (u v w : pyval) : py_eq u v = true -> py_eq u w = py_eq v w.
Proof.
  intros H. destruct (py_eq v w) eqn:E.
  - now apply py_eq_trans with v.
  - destruct (py_eq u w) eqn:E'; [|reflexivity].
    rewrite py_eq_sym in H. rewrite <- E. symmetry. now apply py_eq_trans with u.
Qed.

Lemma dict_get_set (d : dict) (k q : pyval) (e : nat) :
  dict_get (dict_set d k e) q = if py_eq k q then Some e else dict_get d q.
Proof.
  induction d as [|[k' e'] r IH]; simpl; [reflexivity|].
  destruct (py_eq k' k) eqn:E; simpl.
  - rewrite (py_eq_left k' k q E). now destruct (py_eq k q).
  - rewrite IH. destruct (py_eq k' q) eqn:E1; [|reflexivity].
    destruct (py_eq k q) eqn:E2; [|reflexivity].
    rewrite py_eq_sym in E2. rewrite (py_eq_trans k' q k E1 E2) in E. discriminate.
Qed.

Lemma dict_set_nonempty (d : dict) (k : pyval) (e : nat) : dict_nonempty (dict_set d k e) = true.
Proof. destruct d as [|[k' e'] r]; simpl; [reflexivity|]. now destruct (py_eq k' k). Qed.

Lemma dict_get_nonempty (d : dict) (q : pyval) (e : nat) :
  dict_get d q = Some e -> dict_nonempty d = true.
Proof. destruct d; [discriminate|reflexivity]. Qed.

Lemma getwcsindex_from_get (l : HDUList) :
  forall e d wcsd q,
    getwcsindex_from e l d = Ok wcsd -> dict_get wcsd q = scan_from e l (dict_get d q) q.
Proof.
  induction l as [|h r IH]; intros e d wcsd q H; simpl in *; [congruence|].
  unfold matches, is_wcsdvarr.
  destruct (header_get (header h) "EXTNAME") as [ename|]; simpl; [|now apply IH].
  destruct (py_eq ename (PStr "WCSDVARR")); simpl; [|now apply IH].
  destruct (header_get (header h) "EXTVER") as [v|]; [|discriminate].
  rewrite (IH _ _ _ q H), dict_get_set. reflexivity.
Qed.

Lemma getwcsindex_from_nonempty (l : HDUList) :
  forall e d wcsd,
    getwcsindex_from e l d = Ok wcsd ->
    dict_nonempty wcsd = dict_nonempty d || existsb is_wcsdvarr l.
Proof.
  induction l as [|h r IH]; intros e d wcsd H; simpl in *.
  - rewrite orb_false_r. congruence.
  - unfold is_wcsdvarr at 1.
    destruct (header_get (header h) "EXTNAME") as [ename|]; simpl; [|now apply (IH _ _ _ H)].
    destruct (py_eq ename (PStr "WCSDVARR")); simpl; [|now apply (IH _ _ _ H)].
    destruct (header_get (header h) "EXTVER") as [v|]; [|discriminate].
    rewrite (IH _ _ _ H), dict_set_nonempty. now rewrite orb_true_r.
Qed.

(** The scan succeeds exactly when every WCSDVARR extension has a
    version. *)
Lemma getwcsindex_from_ok (l : HDUList) :
  forall e d,
    (forall h, h ∈ l -> is_wcsdvarr h = true -> is_Some (header_get (header h) "EXTVER")) ->
    exists wcsd, getwcsindex_from e l d = Ok wcsd.
Proof.
  induction l as [|h r IH]; intros e d H; simpl; [eauto|].
  assert (Hr : forall h', h' ∈ r -> is_wcsdvarr h' = true ->
                          is_Some (header_get (header h') "EXTVER")).
  { intros h' Hin. apply H. now right. }
  assert (Hh := H h (proj2 (elem_of_cons r h h) (or_introl eq_refl))). unfold is_wcsdvarr in Hh.
  destruct (header_get (header h) "EXTNAME") as [ename|]; [|now apply IH].
  destruct (py_eq ename (PStr "WCSDVARR")); [|now apply IH].
  destruct (Hh eq_refl) as [v ->]. now apply IH.
Qed.

Lemma getwcsindex_from_ok_inv (l : HDUList) :
  forall e d wcsd,
    getwcsindex_from e l d = Ok wcsd ->
    forall h, h ∈ l -> is_wcsdvarr h = true -> is_Some (header_get (header h) "EXTVER").
Proof.
  induction l as [|h r IH]; intros e d wcsd H h' Hin Hw; [inversion Hin|].
  simpl in H. apply elem_of_cons in Hin. destruct Hin as [->|Hin].
  - unfold is_wcsdvarr in Hw.
    destruct (header_get (header h) "EXTNAME") as [ename|]; [|discriminate].
    rewrite Hw in H. destruct (header_get (header h) "EXTVER"); [eauto|discriminate].
  - destruct (header_get (header h) "EXTNAME") as [ename|]; [|now apply (IH _ _ _ H)].
    destruct (py_eq ename (PStr "WCSDVARR")); [|now apply (IH _ _ _ H)].
    destruct (header_get (header h) "EXTVER"); [|discriminate]. now apply (IH _ _ _ H).
Qed.

(** A position found by the scan holds a matching HDU, and no later
    position does. *)
Lemma scan_from_Some (l : HDUList) :
  forall e acc q p,
    scan_from e l acc q = Some p ->
    (acc = Some p /\ forall h, h ∈ l -> matches h q = false) \/
    ((e <= p)%nat /\ (exists h, l !! (p - e)%nat = Some h /\ matches h q = true) /\
     forall p' h, (p - e < p')%nat -> l !! p' = Some h -> matches h q = false).
Proof.
  induction l as [|h r IH]; intros e acc q p H; simpl in H.
  - left. split; [exact H|]. intros h Hin. inversion Hin.
  - apply IH in H. destruct H as [[Hacc Hno]|(Hle & (h' & Hh' & Hm) & Hlast)].
    + destruct (matches h q) eqn:Em.
      * right. inversion Hacc; subst p. split; [lia|]. rewrite Nat.sub_diag. split.
        -- exists h. split; [reflexivity|exact Em].
        -- intros p' h' Hp' Hl. destruct p'; [lia|]. simpl in Hl.
           apply Hno. eapply list_elem_of_lookup_2. exact Hl.
      * left. split; [exact Hacc|]. intros h' Hin.
        apply elem_of_cons in Hin. destruct Hin as [->|Hin]; [exact Em|now apply Hno].
    + right. split; [lia|]. split.
      * exists h'. split; [|exact Hm].
        replace (p - e)%nat with (S (p - S e)) by lia. exact Hh'.
      * intros p' h'' Hp' Hl. destruct p'; [lia|]. simpl in Hl.
        apply (Hlast p' h''); [lia|exact Hl].
Qed.

Lemma scan_from_none (l : HDUList) :
  forall e acc q,
    (forall h, h ∈ l -> matches h q = false) -> scan_from e l acc q = acc.
Proof.
  induction l as [|y r IH]; intros e acc q Hno; [reflexivity|]. simpl.
  rewrite (Hno y) by now left. apply IH. intros h' Hin. apply Hno. now right.
Qed.

(** The position of the last matching HDU is the one the scan finds. *)
Lemma scan_from_last (l : HDUList) :
  forall e acc q p h,
    l !! p = Some h -> matches h q = true ->
    (forall p' h', (p < p')%nat -> l !! p' = Some h' -> matches h' q = false) ->
    scan_from e l acc q = Some (e + p)%nat.
Proof.
  induction l as [|x r IH]; intros e acc q p h Hl Hm Hlast; [discriminate|].
  simpl. destruct p as [|p]; simpl in Hl.
  - inversion Hl; subst x. rewrite Hm, Nat.add_0_r.
    apply scan_from_none.
    intros h' Hin. apply list_elem_of_lookup_1 in Hin. destruct Hin as [p' Hp'].
    apply (Hlast (S p') h'); [lia|exact Hp'].
  - replace (e + S p)%nat with (S e + p)%nat by lia.
    apply (IH (S e) _ q p h Hl Hm).
    intros p' h' Hp' Hl'. apply (Hlast (S p') h'); [lia|exact Hl'].
Qed.

Lemma in_range_wcsdvarr (fobj : HDUList) (wcsd : dict) (p : nat) :
  getwcsindex fobj = Ok wcsd -> in_range wcsd p ->
  exists h, fobj !! p = Some h /\ is_wcsdvarr h = true.
Proof.
  intros Hw [q Hq]. unfold getwcsindex in Hw.
  rewrite (getwcsindex_from_get _ _ _ _ q Hw) in Hq. simpl in Hq.
  apply scan_from_Some in Hq. destruct Hq as [[Hq _]|(_ & (h & Hh & Hm) & _)]; [discriminate|].
  rewrite Nat.sub_0_r in Hh. exists h. split; [exact Hh|].
  unfold matches in Hm. now apply andb_true_iff in Hm.
Qed.

(** ** The annotator *)

Section Annotator.

Variable osfn : pyval -> res string.
Variable getdata : string -> string -> pyval -> res ndarray.
Variable dgeo_vals : string -> option sdict.

Local Abbreviation run := (applyDgeoCorr osfn getdata dgeo_vals).
Local Abbreviation loop := (ext_loop getdata dgeo_vals).

(** How a run starts: it stops before the loop with the file object as it
    was, or it enters the loop with the resolved path and the dictionary
    of the scan. *)
Lemma applyDgeoCorr_fuel_inv (fuel : nat) (fobj fin : HDUList) (r : res unit) :
  applyDgeoCorr_fuel osfn getdata dgeo_vals fuel fobj = Some (fin, r) ->
  (fin = fobj /\ exists e, r = Raise e /\
     (primary_kw fobj "DGEOFILE" = Raise e \/
      (exists raw, primary_kw fobj "DGEOFILE" = Ok raw /\ osfn raw = Raise e) \/
      getwcsindex fobj = Raise e)) \/
  (exists raw dgfile wcsd,
     primary_kw fobj "DGEOFILE" = Ok raw /\ osfn raw = Ok dgfile /\
     getwcsindex fobj = Ok wcsd /\
     loop fuel dgfile wcsd 0%nat 0 fobj = Some (fin, r)).
Proof.
  unfold applyDgeoCorr_fuel, bind, lift. rewrite getkw_primary.
  destruct (primary_kw fobj "DGEOFILE") as [raw|e] eqn:Er.
  - destruct (osfn raw) as [dgfile|e] eqn:Eo.
    + destruct (getwcsindex fobj) as [wcsd|e] eqn:Ew.
      * intros H. right. exists raw, dgfile, wcsd. auto.
      * intros H. inversion H; subst. left. split; [reflexivity|]. exists e. auto.
    + intros H. inversion H; subst. left. split; [reflexivity|]. exists e.
      split; [reflexivity|]. right. left. eauto.
  - intros H. inversion H; subst. left. split; [reflexivity|]. exists e. auto.
Qed.

(** The annotator always returns: the turns it is given suffice. *)
Lemma applyDgeoCorr_total (fobj : HDUList) : is_Some (run fobj).
Proof.
  unfold applyDgeoCorr, applyDgeoCorr_fuel, bind, lift. rewrite getkw_primary.
  destruct (primary_kw fobj "DGEOFILE") as [raw|e]; [|eauto].
  destruct (osfn raw) as [dgfile|e]; [|eauto].
  destruct (getwcsindex fobj) as [wcsd|e]; [|eauto].
  apply ext_loop_total. unfold turns_from, turns.
  pose proof (nsci_le_length fobj). rewrite drop_0. lia.
Qed.

Lemma is_lookup_not_sci (hdu : HDU) : is_lookup hdu -> is_sci hdu = false.
Proof.
  intros (n1 & n2 & ev & c1 & c2 & d1 & d2 & v1 & v2 & dat & ->). reflexivity.
Qed.

Lemma ext_loop_frame (dgfile : string) (wcsd : dict) (fuel : nat) :
  forall i dgeover s fin r,
    loop fuel dgfile wcsd i dgeover s = Some (fin, r) ->
    forall p h, s !! p = Some h -> is_sci h = false ->
                fin !! p = Some h \/
                (in_range wcsd p /\ exists hdu, fin !! p = Some hdu /\ is_lookup hdu).
Proof.
  induction fuel as [|fuel IH]; intros i dgeover s fin r H p h Hp Hh; [discriminate|].
  simpl in H. destruct (s !! i) as [ext|] eqn:Ei; [|left; congruence].
  destruct (is_sci ext) eqn:Esci.
  - rewrite ext_body_sci in H by exact Esci.
    destruct (sci_body_frame getdata dgeo_vals dgfile wcsd i dgeover s) as [[_ Hf] _].
    assert (Hpi : p ≠ i) by (intros ->; congruence).
    specialize (Hf p Hpi (lookup_lt_Some _ _ _ Hp)). rewrite Hp in Hf.
    destruct (sci_body getdata dgeo_vals dgfile wcsd i dgeover s) as [s' [d|e]];
      simpl in Hf.
    + destruct Hf as [Hf|(Hr & hdu & Hf & Hl)].
      * eapply IH; eassumption.
      * right. split; [exact Hr|].
        destruct (IH _ _ _ _ _ H p hdu Hf (is_lookup_not_sci _ Hl))
          as [H'|(_ & hdu' & H' & Hl')]; eauto.
    + inversion H; subst. destruct Hf as [Hf|Hf]; [now left|now right].
  - destruct (ext_body_not_sci getdata dgeo_vals dgfile wcsd i ext dgeover s Esci) as [Hs _].
    destruct (ext_body getdata dgeo_vals dgfile wcsd i ext dgeover s) as [s' [d|e]];
      simpl in Hs; subst s'.
    + eapply IH; eassumption.
    + left. congruence.
Qed.

(** C8.  An extension that is not a science extension (whatever the case
    of its name), and so every extension without [EXTNAME], is in the file
    object after the run, whether the run ends normally or with an
    exception, exactly as it was before, header and data, or else it was a
    WCSDVARR extension found by the scan and its slot holds a lookup HDU;
    and the turn of the loop for an extension without [EXTNAME] changes
    nothing and raises nothing. *)
Theorem non_science_untouched (fobj fin : HDUList) (r : res unit) (p : nat) (h : HDU) :
  run fobj = Some (fin, r) ->
  fobj !! p = Some h ->
  is_sci h = false ->
  (fin !! p = Some h \/
   (is_wcsdvarr h = true /\ exists hdu, fin !! p = Some hdu /\ is_lookup hdu)) /\
  (is_wcsdvarr h = false -> fin !! p = Some h) /\
  (header_get (header h) "EXTNAME" = None ->
   is_wcsdvarr h = false /\
   forall dgfile wcsd dgeover s,
     ext_body getdata dgeo_vals dgfile wcsd p h dgeover s = (s, Ok dgeover)).
Proof.
  intros Hrun Hp Hsci.
  assert (H : fin !! p = Some h \/
              (is_wcsdvarr h = true /\ exists hdu, fin !! p = Some hdu /\ is_lookup hdu)).
  { apply applyDgeoCorr_fuel_inv in Hrun.
    destruct Hrun as [[-> _]|(raw & dgfile & wcsd & _ & _ & Hwcsd & Hloop)]; [now left|].
    destruct (ext_loop_frame _ _ _ _ _ _ _ _ Hloop p h Hp Hsci) as [H|(Hr & H)];
      [now left|].
    right. split; [|exact H].
    destruct (in_range_wcsdvarr _ _ _ Hwcsd Hr) as (h' & Hh' & Hw'). congruence. }
  split; [exact H|]. split.
  - intros Hw. destruct H as [H|[H _]]; [exact H|congruence].
  - intros Hn. split; [unfold is_wcsdvarr; now rewrite Hn|].
    intros dgfile wcsd dgeover s. unfold ext_body. now rewrite Hn.
Qed.

(** C10.  When the primary header has no [DGEOFILE], the run raises
    [KeyError] and the file object is what it was: nothing was written. *)
Theorem missing_DGEOFILE_raises_unchanged (fobj : HDUList) (primary : HDU) :
  fobj !! 0%nat = Some primary ->
  header_get (header primary) "DGEOFILE" = None ->
  run fobj = Some (fobj, Raise KeyError).
Proof.
  intros Hp Hk. unfold applyDgeoCorr, applyDgeoCorr_fuel, bind.
  rewrite getkw_primary, primary_kw_eq, Hp, Hk. reflexivity.
Qed.

End Annotator.

(** ** The header of a lookup extension *)

(** Eight of the nine grid descriptors of a constructed header are the
    keyword argument when it is true and the default of the instrument
    otherwise; [CRPIX2] repeats [CRPIX1]. *)
Lemma createDgeoHdr_descriptors dgeo_vals (kw : sdict) (s s' : HDUList) (hdr : Header) :
  createDgeoHdr dgeo_vals kw s = (s', Ok hdr) ->
  exists instr vals,
    primary_kw s "INSTRUME" = Ok instr /\
    dgeo_vals_item dgeo_vals instr = Ok vals /\
    Ok <$> header_get hdr "NAXIS1" = Some (kw_or_res kw vals "naxis1") /\
    Ok <$> header_get hdr "NAXIS2" = Some (kw_or_res kw vals "naxis2") /\
    Ok <$> header_get hdr "EXTVER" = Some (kw_or_res kw vals "extver") /\
    Ok <$> header_get hdr "CRPIX1" = Some (kw_or_res kw vals "crpix1") /\
    Ok <$> header_get hdr "CDELT1" = Some (kw_or_res kw vals "cdelt1") /\
    Ok <$> header_get hdr "CRVAL1" = Some (kw_or_res kw vals "crval1") /\
    Ok <$> header_get hdr "CDELT2" = Some (kw_or_res kw vals "cdelt2") /\
    Ok <$> header_get hdr "CRVAL2" = Some (kw_or_res kw vals "crval2") /\
    Ok <$> header_get hdr "CRPIX2" = Some (kw_or_res kw vals "crpix1").
Proof.
  intros H. apply createDgeoHdr_ok in H.
  destruct H as (-> & instr & vals & n1 & n2 & ev & c1 & c2 & d1 & d2 & v1 & v2 &
                 Hi & Hv & H1 & H2 & H3 & H4 & H5 & H6 & H7 & H8 & H9 & ->).
  exists instr, vals. rewrite getkw_primary in Hi.
  rewrite H1, H2, H3, H4, H6, H7, H8, H9.
  repeat split; try reflexivity; congruence.
Qed.

(** C6, at the defaults of ACS and with no override: the header is built,
    its [CRPIX2] is 33.5, the default [crpix1], and the default [crpix2]
    of the instrument is 16.5. *)
Theorem crpix2_default_ignored :
  exists hdr,
    createDgeoHdr Sample.dgeo_vals (dgeokw 1) [Sample.primary "ACS"] =
      ([Sample.primary "ACS"], Ok hdr) /\
    sdict_get (dgeokw 1) "crpix2" = Some PNone /\
    sdict_get Sample.acs_vals "crpix2" = Some (PFloat (33 # 2)) /\
    sdict_get Sample.acs_vals "crpix1" = Some (PFloat (67 # 2)) /\
    header_get hdr "CRPIX2" = Some (PFloat (67 # 2)).
Proof. eexists. repeat split. Qed.

(** ** Runs on the sample files *)

(** C3, on a file that holds the lookup extension of version 1 and not
    that of version 2: the scan finds version 1 alone, and the run ends
    with [KeyError], the file object still three HDUs long. *)
Theorem partial_slots_raise_KeyError :
  getwcsindex Sample.partial = Ok [(PInt 1, 2%nat)] /\
  Sample.run Sample.partial = Some (Sample.partial_out, Raise KeyError) /\
  List.length Sample.partial_out = 3%nat.
Proof. repeat split; vm_compute; reflexivity. Qed.

(** C5 fails as stated, twice.  The science header ends with the value of
    [DGEOFILE] of the primary header, [jref$qbu16424j_dxy.fits], and the
    path resolved and read from is another string.  And a keyword is not
    always put before the history: on a science header that holds
    [CPDIS1] after its [HISTORY] card the run rewrites that card where it
    stands, after the history, while the new [CPDIS2] goes before it. *)
Lemma DGEOFILE_raw_and_present_keyword_in_place :
  Sample.run Sample.one_chip = Some (Sample.one_chip_out, Ok tt) /\
  (exists h, Sample.one_chip_out !! 1%nat = Some h /\
             header_get (header h) "DGEOFILE" = Some (PStr Sample.raw_path)) /\
  Sample.osfn (PStr Sample.raw_path) = Ok Sample.os_path /\
  Sample.getdata Sample.raw_path "DX" (PInt 1) = Raise IOError /\
  Sample.raw_path ≠ Sample.os_path /\
  Sample.run Sample.late_cpdis = Some (Sample.late_cpdis_out, Ok tt) /\
  (exists h, Sample.late_cpdis_out !! 1%nat = Some h /\
             header_get (header h) "CPDIS1" = Some (PStr "Lookup") /\
             before (header h) "HISTORY" "CPDIS1" = true /\
             before (header h) "CPDIS1" "HISTORY" = false /\
             before (header h) "CPDIS2" "HISTORY" = true).
Proof.
  split; [vm_compute; reflexivity|].
  split; [eexists; split; vm_compute; reflexivity|].
  do 2 (split; [vm_compute; reflexivity|]).
  split; [discriminate|].
  split; [vm_compute; reflexivity|].
  eexists; repeat split; vm_compute; reflexivity.
Qed.

(** C7 fails as stated: with an instrument that has no defaults the run
    raises [KeyError] when the header of the first science extension
    already holds the keywords of the [DX] axis; and on the file made of
    a primary HDU and a table without [EXTNAME], with the same instrument,
    it raises nothing. *)
Lemma unknown_instrument_header_written :
  Sample.run Sample.unknown = Some (Sample.unknown_out, Raise KeyError) /\
  Sample.dgeo_vals "WFC3" = None /\
  (exists h, Sample.unknown_out !! 1%nat = Some h /\
             header_get (header h) "DP1.EXTVER" = Some (PInt 1) /\
             header_get (header (Sample.ext "SCI" 1)) "DP1.EXTVER" = None) /\
  Sample.run [Sample.primary "WFC3"; Sample.anon] =
    Some ([Sample.primary "WFC3"; Sample.anon], Ok tt).
Proof.
  split; [vm_compute; reflexivity|]. split; [reflexivity|].
  split; [eexists; repeat split; vm_compute; reflexivity|].
  vm_compute; reflexivity.
Qed.

(** C9 fails as stated: lookup extensions named [wcsdvarr] are not found
    by the scan, and the run appends two more instead of overwriting
    them. *)
Lemma lower_case_wcsdvarr_not_scanned :
  lower "wcsdvarr" = lower "WCSDVARR" /\
  getwcsindex Sample.lower_case = Ok [] /\
  List.length Sample.lower_case = 4%nat /\
  List.length (Sample.final Sample.lower_case) = 6%nat.
Proof. repeat split; vm_compute; reflexivity. Qed.


(** ** The header of an annotated science extension *)

Lemma card_get_update (hdr : Header) (k k' : string) (v : pyval) (cm b : string) :
  card_get (update hdr k v cm b) k' =
  if String.eqb k k' then Some (mkCard k v cm) else card_get hdr k'.
Proof.
  destruct (String.eqb_spec k k') as [<-|Hne].
  - apply card_get_update_eq.
  - now apply card_get_update_ne.
Qed.

(** After a list of cards is written, a keyword has the last card the list
    holds for it, and the card it had when the list holds none. *)
Lemma card_get_apply_cards (cs : list Card) (hdr : Header) (k : string) :
  card_get (apply_cards cs hdr) k =
  match last_card cs k with
  | Some c => Some c
  | None => card_get hdr k
  end.
Proof.
  revert hdr. induction cs as [|c cs IH]; intros hdr; [reflexivity|].
  change (apply_cards (c :: cs) hdr) with
    (apply_cards cs (update hdr (key c) (value c) (comment c) "HISTORY")).
  rewrite IH. simpl. destruct (last_card cs k); [reflexivity|].
  rewrite card_get_update. destruct (String.eqb (key c) k); [|reflexivity].
  now destruct c.
Qed.

Lemma header_get_apply_cards (cs : list Card) (hdr : Header) (k : string) :
  header_get (apply_cards cs hdr) k =
  match last_card cs k with
  | Some c => Some (value c)
  | None => header_get hdr k
  end.
Proof.
  rewrite !header_get_card, card_get_apply_cards. now destruct (last_card cs k).
Qed.

Lemma annotate_EXTNAME (raw : pyval) (v : Z) (h : HDU) :
  header_get (header (annotate raw v h)) "EXTNAME" = header_get (header h) "EXTNAME".
Proof. unfold annotate, set_header. cbn [header]. now rewrite header_get_apply_cards. Qed.

Lemma annotate_EXTVER (raw : pyval) (v : Z) (h : HDU) :
  header_get (header (annotate raw v h)) "EXTVER" = header_get (header h) "EXTVER".
Proof. unfold annotate, set_header. cbn [header]. now rewrite header_get_apply_cards. Qed.

Lemma annotate_is_sci (raw : pyval) (v : Z) (h : HDU) : is_sci (annotate raw v h) = is_sci h.
Proof. unfold is_sci. now rewrite annotate_EXTNAME. Qed.

Lemma annotate_is_wcsdvarr (raw : pyval) (v : Z) (h : HDU) :
  is_wcsdvarr (annotate raw v h) = is_wcsdvarr h.
Proof. unfold is_wcsdvarr. now rewrite annotate_EXTNAME. Qed.

Lemma annotate_data (raw : pyval) (v : Z) (h : HDU) : data (annotate raw v h) = data h.
Proof. reflexivity. Qed.

(** ** A successful pass over a science extension *)

Lemma is_wcsdvarr_not_sci (h : HDU) : is_wcsdvarr h = true -> is_sci h = false.
Proof.
  unfold is_wcsdvarr, is_sci. destruct (header_get (header h) "EXTNAME") as [v|]; [|discriminate].
  intros H. apply py_eq_str_inv in H. subst v. reflexivity.
Qed.

Lemma header_get_apply_cards_same (cs : list Card) (hdr : Header) (k : string) (v : pyval) :
  header_get hdr k = Some v ->
  (forall c, c ∈ cs -> key c = k -> value c = v) ->
  header_get (apply_cards cs hdr) k = Some v.
Proof.
  revert hdr. induction cs as [|c cs IH]; intros hdr Hh Hc; [exact Hh|].
  change (apply_cards (c :: cs) hdr) with
    (apply_cards cs (update hdr (key c) (value c) (comment c) "HISTORY")).
  apply IH.
  - destruct (String.eqb_spec (key c) k) as [E|E].
    + rewrite <- E, header_get_update_eq. f_equal. apply Hc; [now left|exact E].
    + now rewrite header_get_update_ne.
  - intros c' Hin. apply Hc. now right.
Qed.

Lemma primary_kw_upd_cards (slot : option nat) (cs : list Card) (s : HDUList)
    (k : string) (v : pyval) :
  primary_kw s k = Ok v ->
  (forall c, c ∈ cs -> key c = k -> value c = v) ->
  primary_kw (upd_slot slot (apply_cards cs) s) k = Ok v.
Proof.
  intros Hp Hc. rewrite primary_kw_eq in *. destruct slot as [i|]; unfold upd_slot; [|exact Hp].
  destruct (decide (i = 0%nat)) as [->|Hne].
  - rewrite list_lookup_alter_eq. destruct (s !! 0%nat) as [h|]; simpl in *; [|discriminate].
    destruct (header_get (header h) k) as [v'|] eqn:E; simpl in Hp; [|discriminate].
    assert (v' = v) by congruence. subst v'.
    now rewrite (header_get_apply_cards_same cs _ k v E Hc).
  - now rewrite list_lookup_alter_ne.
Qed.

Lemma primary_kw_app (s l : HDUList) (k : string) (v : pyval) :
  primary_kw s k = Ok v -> primary_kw (s ++ l) k = Ok v.
Proof.
  rewrite !primary_kw_eq. destruct (s !! 0%nat) as [h|] eqn:E; [|discriminate].
  now rewrite (lookup_app_l_Some _ _ _ _ E).
Qed.

Lemma primary_kw_insert_ne (s : HDUList) (e : nat) (h : HDU) (k : string) :
  e ≠ 0%nat -> primary_kw (<[e:=h]> s) k = primary_kw s k.
Proof. intros H. rewrite !primary_kw_eq. now rewrite list_lookup_insert_ne. Qed.

Lemma primary_kw_insert_0 (s : HDUList) (h : HDU) (k : string) :
  (0 < List.length s)%nat ->
  primary_kw (<[0%nat:=h]> s) k = of_option (header_get (header h) k) KeyError.
Proof. intros H. rewrite primary_kw_eq. now rewrite list_lookup_insert_eq. Qed.

Lemma sci_cards_no_DGEOFILE (ename : string) (extver : Z) (c : Card) :
  c ∈ sci_cards (axis_of ename) extver -> key c ≠ "DGEOFILE".
Proof.
  unfold axis_of. destruct (String.eqb ename "DX"); intros Hin;
    repeat (apply elem_of_cons in Hin; destruct Hin as [->|Hin]; [discriminate|]);
    inversion Hin.
Qed.

Lemma sci_cards_no_INSTRUME (ename : string) (extver : Z) (c : Card) :
  c ∈ sci_cards (axis_of ename) extver -> key c ≠ "INSTRUME".
Proof.
  unfold axis_of. destruct (String.eqb ename "DX"); intros Hin;
    repeat (apply elem_of_cons in Hin; destruct Hin as [->|Hin]; [discriminate|]);
    inversion Hin.
Qed.

Lemma kw_cards_DGEOFILE (raw : pyval) (ename : string) (extver : Z) (c : Card) :
  c ∈ kw_cards raw ename extver -> key c = "DGEOFILE" -> value c = raw.
Proof.
  unfold kw_cards. intros Hin Hk. apply elem_of_app in Hin. destruct Hin as [Hin|Hin].
  - now apply sci_cards_no_DGEOFILE in Hin.
  - apply list_elem_of_singleton in Hin. now subst c.
Qed.

Lemma kw_cards_no_INSTRUME (raw : pyval) (ename : string) (extver : Z) (c : Card) :
  c ∈ kw_cards raw ename extver -> key c ≠ "INSTRUME".
Proof.
  unfold kw_cards. intros Hin. apply elem_of_app in Hin. destruct Hin as [Hin|Hin].
  - now apply sci_cards_no_INSTRUME in Hin.
  - apply list_elem_of_singleton in Hin. now subst c.
Qed.

(** A header written by card lists that do not name [k] keeps [k]. *)
Lemma primary_kw_upd_notin (slot : option nat) (cs : list Card) (s : HDUList) (k : string) :
  (forall c, c ∈ cs -> key c ≠ k) ->
  primary_kw (upd_slot slot (apply_cards cs) s) k = primary_kw s k.
Proof.
  intros Hc. apply primary_kw_upd_slot. intros hdr.
  apply header_get_apply_cards_notin. unfold keys_of. intros Hin.
  apply list_elem_of_fmap in Hin. destruct Hin as (c & -> & Hin). now apply (Hc c).
Qed.

Lemma place_length (wcsd : dict) (j : Z) (hdu : HDU) (s : HDUList) :
  (List.length s <= List.length (place wcsd j hdu s))%nat.
Proof.
  unfold place. destruct (dict_nonempty wcsd).
  - destruct (dict_get wcsd (PInt j)); [rewrite length_insert|]; lia.
  - rewrite length_app. lia.
Qed.

Lemma upd_place_comm (wcsd : dict) (i : nat) (f : Header -> Header) (j : Z) (hdu : HDU)
    (s : HDUList) :
  ~ in_range wcsd i -> (i < List.length s)%nat ->
  upd_slot (Some i) f (place wcsd j hdu s) = place wcsd j hdu (upd_slot (Some i) f s).
Proof.
  intros Hr Hi. unfold place, upd_slot. destruct (dict_nonempty wcsd).
  - destruct (dict_get wcsd (PInt j)) as [e|] eqn:E; [|reflexivity].
    assert (Hne : i ≠ e) by (intros ->; apply Hr; now exists (PInt j)).
    rewrite !list_insert_alter. now apply list_alter_alter_ne.
  - now apply alter_app_l.
Qed.

(** A lookup HDU put in the file object hides the primary header only
    when it takes slot 0, and then [DGEOFILE] is gone. *)
Lemma place_primary (wcsd : dict) (j : Z) (hdu : HDU) (s : HDUList) (r : pyval) :
  header_get (header hdu) "DGEOFILE" = None ->
  (0 < List.length s)%nat ->
  primary_kw (place wcsd j hdu s) "DGEOFILE" = Ok r ->
  forall k, primary_kw (place wcsd j hdu s) k = primary_kw s k.
Proof.
  intros Hh Hs Hp k. unfold place in *. destruct (dict_nonempty wcsd).
  - destruct (dict_get wcsd (PInt j)) as [e|]; [|reflexivity].
    destruct (decide (e = 0%nat)) as [->|Hne].
    + rewrite primary_kw_insert_0 in Hp by exact Hs. rewrite Hh in Hp. discriminate.
    + now apply primary_kw_insert_ne.
  - rewrite !primary_kw_eq. destruct (s !! 0%nat) as [h|] eqn:E.
    + now rewrite (lookup_app_l_Some _ _ _ _ E).
    + apply lookup_ge_None in E. lia.
Qed.

Section Pass.

Variable getdata : string -> string -> pyval -> res ndarray.
Variable dgeo_vals : string -> option sdict.

Local Abbreviation mkhdu := (createDgeoHDU getdata dgeo_vals).

(** One axis done without an exception. *)
Lemma axis_step_ok (dgfile : string) (wcsd : dict) (v : pyval) (ename : string)
    (i : nat) (dg : Z) (s s' : HDUList) (st' : option nat * Z) :
  axis_step getdata dgeo_vals dgfile wcsd v ename (Some i, dg) s = (s', Ok st') ->
  ~ in_range wcsd i ->
  exists raw hdu,
    primary_kw s "DGEOFILE" = Ok raw /\
    (mkhdu dgfile (dg + 1) ename v s).2 = Ok hdu /\
    st' = (Some i, dg + 1) /\
    (dict_nonempty wcsd = true ->
     exists e, dict_get wcsd (PInt (dg + 1)) = Some e /\ (e < List.length s)%nat) /\
    s' = place wcsd (dg + 1) hdu (upd_slot (Some i) (apply_cards (kw_cards raw ename (dg + 1))) s).
Proof.
  intros H Hr. rewrite axis_step_eq, addSciExtKw_eq in H. cbn [fst snd] in H. cbv zeta in H.
  rewrite primary_kw_upd_notin in H by apply sci_cards_no_DGEOFILE.
  destruct (primary_kw s "DGEOFILE") as [raw|e] eqn:Eraw; [|discriminate].
  set (s1 := upd_slot (Some i) (apply_cards (kw_cards raw ename (dg + 1))) s) in *.
  assert (Hi : (mkhdu dgfile (dg + 1) ename v s1).2 = (mkhdu dgfile (dg + 1) ename v s).2).
  { apply createDgeoHDU_instr. apply (primary_kw_upd_notin (Some i)).
    apply kw_cards_no_INSTRUME. }
  rewrite Hi in H.
  destruct (mkhdu dgfile (dg + 1) ename v s).2 as [hdu|e]; [|discriminate].
  exists raw, hdu. split; [reflexivity|]. split; [reflexivity|].
  unfold place. fold s1.
  destruct (dict_nonempty wcsd).
  - destruct (dict_get wcsd (PInt (dg + 1))) as [e|] eqn:E; [|discriminate].
    destruct (e <? List.length s1)%nat eqn:El; [|discriminate].
    apply Nat.ltb_lt in El. unfold s1 in El. rewrite upd_slot_length in El.
    inversion H; subst. split.
    + destruct (decide (Some i = Some e)) as [Heq|_]; [|reflexivity].
      inversion Heq; subst e. exfalso. apply Hr. now exists (PInt (dg + 1)).
    + split; [|reflexivity]. intros _. eauto.
  - inversion H; subst. split; [reflexivity|]. split; [discriminate|reflexivity].
Qed.

(** Both axes done and [DGEOFILE] written: what was read, what was built,
    and the file object that results. *)
Lemma sci_body_ok (dgfile : string) (wcsd : dict) (i : nat) (dg dg' : Z) (s s' : HDUList) :
  sci_body getdata dgeo_vals dgfile wcsd i dg s = (s', Ok dg') ->
  ~ in_range wcsd i ->
  exists h v raw hduX hduY,
    s !! i = Some h /\ header_get (header h) "EXTVER" = Some v /\
    primary_kw s "DGEOFILE" = Ok raw /\
    (mkhdu dgfile (dg + 1) "DX" v s).2 = Ok hduX /\
    (mkhdu dgfile (dg + 2) "DY" v s).2 = Ok hduY /\
    dg' = dg + 2 /\
    primary_kw s' "DGEOFILE" = Ok raw /\
    primary_kw s' "INSTRUME" = primary_kw s "INSTRUME" /\
    (dict_nonempty wcsd = true ->
     exists eX eY, dict_get wcsd (PInt (dg + 1)) = Some eX /\
                   dict_get wcsd (PInt (dg + 2)) = Some eY /\
                   (eX < List.length s)%nat /\ (eY < List.length s)%nat) /\
    s' = place wcsd (dg + 2) hduY (place wcsd (dg + 1) hduX (alter (annotate raw (dg + 1)) i s)).
Proof.
  intros H Hr. unfold sci_body in H.
  apply bind_ok_inv in H. destruct H as (s0 & v & Hv & H).
  apply getkw_ok in Hv. destruct Hv as (-> & h & Hh & Hv).
  pose proof (lookup_lt_Some _ _ _ Hh) as Hi.
  apply bind_ok_inv in H. destruct H as (s2 & st2 & Hloop & H).
  simpl in Hloop.
  apply bind_ok_inv in Hloop. destruct Hloop as (s1 & st1 & HX & Hloop).
  apply axis_step_ok in HX; [|exact Hr].
  destruct HX as (raw & hduX & Hraw & HhX & -> & HeX & ->).
  apply bind_ok_inv in Hloop. destruct Hloop as (s2' & st2' & HY & Hret).
  unfold ret in Hret. inversion Hret; subst s2' st2'. clear Hret.
  apply axis_step_ok in HY; [|exact Hr].
  destruct HY as (raw2 & hduY & Hraw2 & HhY & -> & HeY & ->).
  apply bind_ok_inv in H. destruct H as (s3 & [] & HD & Hret).
  unfold ret in Hret. inversion Hret; subst s3 dg'. clear Hret.
  (* the primary header along the way *)
  replace (dg + 1 + 1) with (dg + 2) in * by lia.
  set (sX := upd_slot (Some i) (apply_cards (kw_cards raw "DX" (dg + 1))) s) in *.
  set (s1 := place wcsd (dg + 1) hduX sX) in *.
  set (sY := upd_slot (Some i) (apply_cards (kw_cards raw2 "DY" (dg + 2))) s1) in *.
  set (s2 := place wcsd (dg + 2) hduY sY) in *.
  rewrite updateDGEOkw_eq in HD. cbn [fst] in HD.
  destruct (primary_kw s2 "DGEOFILE") as [raw3|e] eqn:Hraw3; [|discriminate].
  assert (Hs' : s' = upd_slot (Some i)
                       (apply_cards [mkCard "DGEOFILE" raw3 dgeofile_comment]) s2)
    by congruence.
  subst s'. clear HD.
  assert (LX : List.length sX = List.length s) by apply upd_slot_length.
  assert (L1 : (List.length s <= List.length s1)%nat).
  { unfold s1. rewrite <- LX. apply place_length. }
  assert (LY : List.length sY = List.length s1) by apply upd_slot_length.
  destruct (createDgeoHDU_kind _ _ _ _ _ _ _ _ HhX) as (_ & _ & HnoX & _).
  destruct (createDgeoHDU_kind _ _ _ _ _ _ _ _ HhY) as (_ & _ & HnoY & _).
  assert (P1 : forall k, primary_kw s1 k = primary_kw sX k).
  { apply (place_primary wcsd (dg + 1) hduX sX raw2 HnoX); [lia|exact Hraw2]. }
  assert (PXd : primary_kw sX "DGEOFILE" = Ok raw).
  { apply primary_kw_upd_cards; [exact Hraw|apply kw_cards_DGEOFILE]. }
  assert (PXi : primary_kw sX "INSTRUME" = primary_kw s "INSTRUME").
  { apply primary_kw_upd_notin, kw_cards_no_INSTRUME. }
  assert (raw2 = raw) by (rewrite P1, PXd in Hraw2; congruence). subst raw2.
  assert (P2 : forall k, primary_kw s2 k = primary_kw sY k).
  { apply (place_primary wcsd (dg + 2) hduY sY raw3 HnoY); [lia|exact Hraw3]. }
  assert (PYd : primary_kw sY "DGEOFILE" = Ok raw).
  { apply primary_kw_upd_cards; [now rewrite P1|apply kw_cards_DGEOFILE]. }
  assert (PYi : primary_kw sY "INSTRUME" = primary_kw s "INSTRUME").
  { unfold sY. rewrite primary_kw_upd_notin by apply kw_cards_no_INSTRUME.
    now rewrite P1. }
  assert (raw3 = raw) by (rewrite P2, PYd in Hraw3; congruence). subst raw3.
  exists h, v, raw, hduX, hduY.
  split; [exact Hh|]. split; [exact Hv|]. split; [exact Hraw|]. split; [exact HhX|].
  split.
  { rewrite <- HhY. apply createDgeoHDU_instr. now rewrite P1, PXi. }
  split; [reflexivity|].
  split.
  { apply primary_kw_upd_cards; [now rewrite P2|].
    intros c Hc _. apply list_elem_of_singleton in Hc. now subst c. }
  split.
  { rewrite primary_kw_upd_notin.
    - now rewrite P2.
    - intros c Hc. apply list_elem_of_singleton in Hc. now subst c. }
  split.
  { intros Hne. destruct (HeX Hne) as (eX & EX & LeX).
    destruct (HeY Hne) as (eY & EY & LeY).
    exists eX, eY. repeat split; try assumption.
    unfold s1, place in LeY. rewrite Hne, EX, length_insert in LeY.
    unfold sX in LeY. now rewrite upd_slot_length in LeY. }
  (* the writes to the science header commute with the placements *)
  assert (HiX : (i < List.length sX)%nat) by lia.
  assert (HiY : (i < List.length sY)%nat) by lia.
  unfold s2. rewrite (upd_place_comm wcsd i _ (dg + 2) hduY sY Hr HiY).
  unfold sY. rewrite upd_slot_compose.
  unfold s1. rewrite (upd_place_comm wcsd i _ (dg + 1) hduX sX Hr HiX).
  unfold sX. rewrite upd_slot_compose. unfold upd_slot, annotate, annot_cards.
  do 2 f_equal. apply list_alter_ext; [|reflexivity].
  intros x _. unfold set_header. f_equal. rewrite !apply_cards_app.
  now replace (dg + 1 + 1) with (dg + 2) by lia.
Qed.

End Pass.

(** ** Lookups after a placement *)

Lemma place_lookup_keep (wcsd : dict) (j : Z) (hdu : HDU) (s : HDUList) (p : nat) :
  (p < List.length s)%nat ->
  (forall e, dict_get wcsd (PInt j) = Some e -> p ≠ e) ->
  place wcsd j hdu s !! p = s !! p.
Proof.
  intros Hp Hne. unfold place. destruct (dict_nonempty wcsd).
  - destruct (dict_get wcsd (PInt j)) as [e|]; [|reflexivity].
    apply list_lookup_insert_ne. intros ->. now apply (Hne p).
  - now apply lookup_app_l.
Qed.

Lemma place_lookup_slot (wcsd : dict) (j : Z) (hdu : HDU) (s : HDUList) (e : nat) :
  dict_nonempty wcsd = true -> dict_get wcsd (PInt j) = Some e -> (e < List.length s)%nat ->
  place wcsd j hdu s !! e = Some hdu.
Proof.
  intros Hn He Hl. unfold place. rewrite Hn, He. now apply list_lookup_insert_eq.
Qed.

Lemma place_lookup_end (wcsd : dict) (j : Z) (hdu : HDU) (s : HDUList) :
  dict_nonempty wcsd = false -> place wcsd j hdu s !! List.length s = Some hdu.
Proof.
  intros Hn. unfold place. rewrite Hn. rewrite lookup_app_r by lia.
  now rewrite Nat.sub_diag.
Qed.

Lemma place_length_nonempty (wcsd : dict) (j : Z) (hdu : HDU) (s : HDUList) :
  dict_nonempty wcsd = true -> List.length (place wcsd j hdu s) = List.length s.
Proof.
  intros Hn. unfold place. rewrite Hn.
  destruct (dict_get wcsd (PInt j)); [apply length_insert|reflexivity].
Qed.

Lemma place_length_empty (wcsd : dict) (j : Z) (hdu : HDU) (s : HDUList) :
  dict_nonempty wcsd = false -> List.length (place wcsd j hdu s) = S (List.length s).
Proof. intros Hn. unfold place. rewrite Hn, length_app. simpl. lia. Qed.

(** Two keys that the scan sends to one position are equal. *)
Lemma getwcsindex_same_slot (fobj : HDUList) (wcsd : dict) (q1 q2 : pyval) (e : nat) :
  getwcsindex fobj = Ok wcsd ->
  dict_get wcsd q1 = Some e -> dict_get wcsd q2 = Some e -> py_eq q1 q2 = true.
Proof.
  intros Hw H1 H2. unfold getwcsindex in Hw.
  rewrite (getwcsindex_from_get _ _ _ _ q1 Hw) in H1.
  rewrite (getwcsindex_from_get _ _ _ _ q2 Hw) in H2. simpl in *.
  apply scan_from_Some in H1, H2.
  destruct H1 as [[? _]|(_ & (h1 & Hh1 & Hm1) & _)]; [discriminate|].
  destruct H2 as [[? _]|(_ & (h2 & Hh2 & Hm2) & _)]; [discriminate|].
  rewrite Hh1 in Hh2. inversion Hh2; subst h2. unfold matches in *.
  apply andb_true_iff in Hm1, Hm2. destruct Hm1 as [_ Hm1], Hm2 as [_ Hm2].
  destruct (header_get (header h1) "EXTVER") as [v|]; [|discriminate].
  rewrite py_eq_sym in Hm1. now apply py_eq_trans with v.
Qed.

Lemma getwcsindex_int_slots (fobj : HDUList) (wcsd : dict) (j1 j2 : Z) (e : nat) :
  getwcsindex fobj = Ok wcsd ->
  dict_get wcsd (PInt j1) = Some e -> dict_get wcsd (PInt j2) = Some e -> j1 = j2.
Proof.
  intros Hw H1 H2. pose proof (getwcsindex_same_slot _ _ _ _ _ Hw H1 H2) as H.
  rewrite py_eq_int in H. now apply Z.eqb_eq.
Qed.

Lemma getwcsindex_nonempty (fobj : HDUList) (wcsd : dict) :
  getwcsindex fobj = Ok wcsd -> dict_nonempty wcsd = existsb is_wcsdvarr fobj.
Proof. intros H. apply getwcsindex_from_nonempty in H. exact H. Qed.

Lemma built_kind getdata dgeo_vals (orig : HDUList) (dgfile : string) (j : Z) (hdu : HDU) :
  built getdata dgeo_vals orig dgfile j hdu ->
  is_sci hdu = false /\ is_wcsdvarr hdu = true /\
  (1 <= j -> header_get (header hdu) "EXTVER" = Some (PInt j)).
Proof.
  intros (q & hq & v & _ & _ & _ & [[_ H]|[_ H]]);
    apply createDgeoHDU_kind in H; destruct H as (H1 & H2 & _ & H3);
    (split; [exact H1|]; split; [exact H2|]; intros Hj; apply H3; lia).
Qed.

Lemma dict_empty_get (d : dict) (q : pyval) : dict_nonempty d = false -> dict_get d q = None.
Proof. destruct d; [reflexivity|discriminate]. Qed.

(** ** The invariant of the loop over the extensions *)

Section Invariant.

Variable getdata : string -> string -> pyval -> res ndarray.
Variable dgeo_vals : string -> option sdict.
Variable orig : HDUList.
Variable wcsd : dict.
Variable raw : pyval.
Variable dgfile : string.

Hypothesis Hw : getwcsindex orig = Ok wcsd.

Local Abbreviation Inv := (loop_inv getdata dgeo_vals orig wcsd raw dgfile).
Local Abbreviation Built := (built getdata dgeo_vals orig dgfile).

Lemma in_range_not_sci (p : nat) (h : HDU) :
  orig !! p = Some h -> is_sci h = true -> ~ in_range wcsd p.
Proof.
  intros Hp Hs Hr. destruct (in_range_wcsdvarr _ _ _ Hw Hr) as (h' & Hh' & Hw').
  rewrite Hp in Hh'. inversion Hh'; subst h'. apply is_wcsdvarr_not_sci in Hw'. congruence.
Qed.

Lemma loop_inv_init : primary_kw orig "DGEOFILE" = Ok raw -> Inv 0 0 orig.
Proof.
  intros Hraw. constructor.
  - reflexivity.
  - destruct (dict_nonempty wcsd); simpl; lia.
  - intros p h Hp _. rewrite decide_False by lia. exact Hp.
  - intros p h Hp _. now left.
  - intros _ j Hj. lia.
  - intros _ j Hj. lia.
  - exact Hraw.
  - reflexivity.
  - intros p x Hp. lia.
Qed.

(** A turn for an extension that is not a science extension. *)
Lemma loop_inv_skip (i : nat) (dg : Z) (cur : HDUList) :
  Inv i dg cur ->
  (forall h, orig !! i = Some h -> is_sci h = false) ->
  (forall x, cur !! i = Some x -> name_ok x = true) ->
  Inv (S i) dg cur.
Proof.
  intros I Hns Hnm. destruct I as [Ic Il Is Io Isl In Id Ii Inm]. constructor; try assumption.
  - rewrite Ic. destruct (orig !! i) as [h|] eqn:E.
    + rewrite (nsci_take_S _ _ _ E), (Hns h eq_refl). do 2 f_equal. lia.
    + apply lookup_ge_None in E. rewrite !take_ge by lia. reflexivity.
  - intros p h Hp Hs. rewrite (Is p h Hp Hs).
    assert (p ≠ i) by (intros ->; specialize (Hns h Hp); congruence).
    destruct (decide (p < i)%nat), (decide (p < S i)%nat); try reflexivity; lia.
  - intros p x Hp Hx. destruct (decide (p = i)) as [->|Hne]; [now apply Hnm|].
    apply (Inm p x); [lia|exact Hx].
Qed.

(** A turn for a science extension that ends without an exception. *)
Lemma loop_inv_sci (i : nat) (dg dg' : Z) (cur cur' : HDUList) (h : HDU) :
  Inv i dg cur ->
  orig !! i = Some h -> is_sci h = true ->
  sci_body getdata dgeo_vals dgfile wcsd i dg cur = (cur', Ok dg') ->
  Inv (S i) dg' cur'.
Proof.
  intros I Eo Esci Hbody.
  pose proof (in_range_not_sci i h Eo Esci) as Hr.
  apply sci_body_ok in Hbody; [|exact Hr].
  destruct Hbody as (h0 & v & raw0 & hduX & hduY & Hh0 & Hv & Hraw0 & HX & HY & -> &
                     Hd' & Hi' & Hslots & ->).
  destruct I as [Ic Il Is Io Isl In Id Ii Inm].
  pose proof (Is i h Eo Esci) as Hc. rewrite decide_False in Hc by lia.
  rewrite Hc in Hh0. inversion Hh0; subst h0. clear Hh0.
  rewrite Id in Hraw0. inversion Hraw0; subst raw0. clear Hraw0.
  pose proof (lookup_lt_Some _ _ _ Eo) as Hio.
  pose proof (lookup_lt_Some _ _ _ Hc) as Hic.
  assert (Hdg : 0 <= dg) by lia.
  assert (Hcount : 2 * Z.of_nat (nsci (take (S i) orig)) = dg + 2).
  { rewrite (nsci_take_S _ _ _ Eo), Esci. lia. }
  assert (BX : Built (dg + 1) hduX).
  { exists i, h, v. repeat split; try assumption. left. split; [lia|].
    rewrite <- HX. now apply createDgeoHDU_instr. }
  assert (BY : Built (dg + 2) hduY).
  { exists i, h, v. repeat split; try assumption. right. split; [lia|].
    rewrite <- HY. now apply createDgeoHDU_instr. }
  set (cA := alter (annotate raw (dg + 1)) i cur) in *.
  assert (LA : List.length cA = List.length cur) by apply length_alter.
  set (cX := place wcsd (dg + 1) hduX cA) in *.
  assert (LX : (List.length cA <= List.length cX)%nat) by apply place_length.
  (* positions outside the dictionary *)
  assert (Keep : forall p, (p < List.length cur)%nat -> ~ in_range wcsd p ->
                           place wcsd (dg + 2) hduY cX !! p = cA !! p).
  { intros p Hp Hnr. rewrite place_lookup_keep.
    - apply place_lookup_keep; [lia|]. intros e He ->. apply Hnr. now exists (PInt (dg + 1)).
    - lia.
    - intros e He ->. apply Hnr. now exists (PInt (dg + 2)). }
  constructor.
  - lia.
  - destruct (dict_nonempty wcsd) eqn:En.
    + unfold cX. rewrite !place_length_nonempty by exact En. lia.
    + unfold cX. rewrite !place_length_empty by exact En. lia.
  - intros p hp Hp Hs.
    pose proof (in_range_not_sci p hp Hp Hs) as Hnr.
    pose proof (lookup_lt_Some _ _ _ Hp) as Hpo.
    assert (Hpc : (p < List.length cur)%nat).
    { apply lookup_lt_is_Some. rewrite (Is p hp Hp Hs). eauto. }
    rewrite (Keep p Hpc Hnr). unfold cA.
    destruct (decide (p = i)) as [->|Hne].
    + rewrite list_lookup_alter_eq, Hc. simpl. rewrite decide_True by lia.
      assert (hp = h) by congruence. subst hp. do 2 f_equal. lia.
    + rewrite list_lookup_alter_ne by congruence. rewrite (Is p hp Hp Hs).
      destruct (decide (p < i)%nat), (decide (p < S i)%nat); try reflexivity; lia.
  - intros p hp Hp Hs.
    assert (Hpi : p ≠ i) by (intros ->; congruence).
    assert (Hpc : (p < List.length cur)%nat).
    { destruct (Io p hp Hp Hs) as [H|(j & hdu & _ & _ & H & _)];
        now apply lookup_lt_Some in H. }
    assert (HA : cA !! p = cur !! p) by (apply list_lookup_alter_ne; congruence).
    destruct (dict_nonempty wcsd) eqn:En.
    + destruct (Hslots eq_refl) as (eX & eY & EX & EY & LeX & LeY).
      destruct (decide (p = eY)) as [->|HneY].
      { right. exists (dg + 2), hduY. split; [lia|]. split; [exact EY|]. split; [|exact BY].
        apply place_lookup_slot; try assumption. lia. }
      rewrite place_lookup_keep; [|lia|intros e He; congruence].
      destruct (decide (p = eX)) as [->|HneX].
      { right. exists (dg + 1), hduX. split; [lia|]. split; [exact EX|]. split; [|exact BX].
        apply place_lookup_slot; try assumption. lia. }
      unfold cX. rewrite place_lookup_keep; [|lia|intros e He; congruence].
      rewrite HA. destruct (Io p hp Hp Hs) as [H|(j & hdu & Hj & Hd & H & Hb)]; [now left|].
      right. exists j, hdu. repeat split; try assumption; lia.
    + left. rewrite place_lookup_keep;
        [|lia|intros e He; rewrite dict_empty_get in He by exact En; discriminate].
      unfold cX. rewrite place_lookup_keep;
        [|lia|intros e He; rewrite dict_empty_get in He by exact En; discriminate].
      rewrite HA. destruct (Io p hp Hp Hs) as [H|(j & hdu & Hj & Hd & H & Hb)]; [exact H|].
      rewrite dict_empty_get in Hd by exact En. discriminate.
  - intros En j Hj.
    destruct (Hslots En) as (eX & eY & EX & EY & LeX & LeY).
    destruct (decide (j = dg + 2)) as [->|HjY].
    { exists eY, hduY. split; [exact EY|]. split; [|exact BY].
      apply place_lookup_slot; try assumption. lia. }
    destruct (decide (j = dg + 1)) as [->|HjX].
    { exists eX, hduX. split; [exact EX|]. split; [|exact BX].
      rewrite place_lookup_keep.
      - apply place_lookup_slot; try assumption. lia.
      - lia.
      - intros e He ->. pose proof (getwcsindex_int_slots _ _ _ _ _ Hw EX He). lia. }
    destruct (Isl En j) as (e & hdu & He & Hl & Hb); [lia|].
    exists e, hdu. split; [exact He|]. split; [|exact Hb].
    pose proof (lookup_lt_Some _ _ _ Hl) as Hel.
    rewrite place_lookup_keep; [|lia|].
    2: { intros e' He' ->. pose proof (getwcsindex_int_slots _ _ _ _ _ Hw He He'). lia. }
    unfold cX. rewrite place_lookup_keep; [|lia|].
    2: { intros e' He' ->. pose proof (getwcsindex_int_slots _ _ _ _ _ Hw He He'). lia. }
    unfold cA. rewrite list_lookup_alter_ne; [exact Hl|].
    intros ->. apply Hr. now exists (PInt j).
  - intros En j Hj. rewrite En in Il.
    assert (LcX : List.length cX = S (List.length cur)).
    { unfold cX. rewrite place_length_empty by exact En. lia. }
    destruct (decide (j = dg + 2)) as [->|HjY].
    { exists hduY. split; [|exact BY].
      replace (List.length orig + Z.to_nat (dg + 2 - 1))%nat with (List.length cX) by lia.
      now apply place_lookup_end. }
    rewrite place_lookup_keep;
      [|lia|intros e He; rewrite dict_empty_get in He by exact En; discriminate].
    destruct (decide (j = dg + 1)) as [->|HjX].
    { exists hduX. split; [|exact BX].
      replace (List.length orig + Z.to_nat (dg + 1 - 1))%nat with (List.length cA) by lia.
      now apply place_lookup_end. }
    destruct (In En j) as (hdu & Hl & Hb); [lia|].
    exists hdu. split; [|exact Hb].
    unfold cX. rewrite place_lookup_keep;
      [|lia|intros e He; rewrite dict_empty_get in He by exact En; discriminate].
    unfold cA. rewrite list_lookup_alter_ne by lia. exact Hl.
  - exact Hd'.
  - now rewrite Hi'.
  - intros p x Hp Hx.
    destruct (decide (p = i)) as [->|Hne].
    + assert (Hxi : place wcsd (dg + 2) hduY cX !! i = cA !! i) by now apply Keep.
      rewrite Hxi in Hx. unfold cA in Hx. rewrite list_lookup_alter_eq, Hc in Hx.
      simpl in Hx. inversion Hx; subst x.
      unfold name_ok. rewrite annotate_EXTNAME. unfold is_sci in Esci.
      destruct (header_get (header h) "EXTNAME") as [[| | | |nm]|]; try discriminate.
      reflexivity.
    + assert (Hpc : (p < List.length cur)%nat) by lia.
      assert (HA : cA !! p = cur !! p) by (apply list_lookup_alter_ne; congruence).
      destruct (dict_nonempty wcsd) eqn:En.
      * destruct (Hslots eq_refl) as (eX & eY & EX & EY & LeX & LeY).
        destruct (decide (p = eY)) as [->|HneY].
        { rewrite place_lookup_slot in Hx; try assumption; [|lia].
          inversion Hx; subst x. apply built_kind in BY. destruct BY as (_ & BY & _).
          unfold is_wcsdvarr in BY. unfold name_ok.
          destruct (header_get (header hduY) "EXTNAME") as [nm|]; [|reflexivity].
          apply py_eq_str_inv in BY. now subst nm. }
        rewrite place_lookup_keep in Hx; [|lia|intros e He; congruence].
        destruct (decide (p = eX)) as [->|HneX].
        { unfold cX in Hx. rewrite place_lookup_slot in Hx; try assumption; [|lia].
          inversion Hx; subst x. apply built_kind in BX. destruct BX as (_ & BX & _).
          unfold is_wcsdvarr in BX. unfold name_ok.
          destruct (header_get (header hduX) "EXTNAME") as [nm|]; [|reflexivity].
          apply py_eq_str_inv in BX. now subst nm. }
        unfold cX in Hx. rewrite place_lookup_keep in Hx; [|lia|intros e He; congruence].
        rewrite HA in Hx. apply (Inm p x); [lia|exact Hx].
      * rewrite place_lookup_keep in Hx;
          [|lia|intros e He; rewrite dict_empty_get in He by exact En; discriminate].
        unfold cX in Hx. rewrite place_lookup_keep in Hx;
          [|lia|intros e He; rewrite dict_empty_get in He by exact En; discriminate].
        rewrite HA in Hx. apply (Inm p x); [lia|exact Hx].
Qed.

End Invariant.

Section Completed.

Variable osfn : pyval -> res string.
Variable getdata : string -> string -> pyval -> res ndarray.
Variable dgeo_vals : string -> option sdict.

Local Abbreviation run := (applyDgeoCorr osfn getdata dgeo_vals).
Local Abbreviation loop := (ext_loop getdata dgeo_vals).
Local Abbreviation Inv := (loop_inv getdata dgeo_vals).

(** The invariant holds after every turn that raises nothing. *)
Lemma loop_inv_step (orig : HDUList) (wcsd : dict) (raw : pyval) (dgfile : string)
    (i : nat) (dg dg' : Z) (cur cur' : HDUList) (ext : HDU) :
  getwcsindex orig = Ok wcsd ->
  Inv orig wcsd raw dgfile i dg cur ->
  cur !! i = Some ext ->
  ext_body getdata dgeo_vals dgfile wcsd i ext dg cur = (cur', Ok dg') ->
  Inv orig wcsd raw dgfile (S i) dg' cur'.
Proof.
  intros Hw I Hext Hbody.
  assert (Skip : is_sci ext = false ->
                 (forall h, orig !! i = Some h -> is_sci h = false) ->
                 Inv orig wcsd raw dgfile (S i) dg' cur').
  { intros Hns Ho.
    destruct (ext_body_not_sci getdata dgeo_vals dgfile wcsd i ext dg cur Hns) as [Hs Hd].
    rewrite Hbody in Hs, Hd. simpl in Hs. subst cur'. rewrite (Hd dg' eq_refl).
    apply loop_inv_skip; try assumption.
    intros x Hx. assert (x = ext) by congruence. subst x.
    unfold ext_body in Hbody. unfold name_ok.
    destruct (header_get (header ext) "EXTNAME") as [[| | | |nm]|];
      try reflexivity; discriminate. }
  destruct (orig !! i) as [h|] eqn:Eo.
  - destruct (is_sci h) eqn:Esci.
    + pose proof (inv_sci _ _ _ _ _ _ _ _ _ I i h Eo Esci) as Hc.
      rewrite decide_False in Hc by lia.
      assert (ext = h) by congruence. subst ext.
      rewrite ext_body_sci in Hbody by exact Esci.
      eapply loop_inv_sci; eassumption.
    + apply Skip; [|intros h' Hh'; congruence].
      destruct (inv_other _ _ _ _ _ _ _ _ _ I i h Eo Esci) as [H|(j & hdu & _ & _ & H & Hb)].
      * congruence.
      * apply built_kind in Hb. destruct Hb as [Hb _]. congruence.
  - apply Skip; [|discriminate].
    apply lookup_ge_None in Eo. pose proof (lookup_lt_Some _ _ _ Hext) as Hlt.
    pose proof (inv_length _ _ _ _ _ _ _ _ _ I) as Hl.
    pose proof (inv_count _ _ _ _ _ _ _ _ _ I) as Hcnt.
    destruct (dict_nonempty wcsd) eqn:En; [lia|].
    destruct (inv_new _ _ _ _ _ _ _ _ _ I En (Z.of_nat (i - List.length orig) + 1))
      as (hdu & Hh & Hb); [lia|].
    replace (List.length orig + Z.to_nat (Z.of_nat (i - List.length orig) + 1 - 1))%nat
      with i in Hh by lia.
    apply built_kind in Hb. destruct Hb as [Hb _]. congruence.
Qed.

Lemma ext_loop_inv (orig : HDUList) (wcsd : dict) (raw : pyval) (dgfile : string)
    (fuel : nat) :
  getwcsindex orig = Ok wcsd ->
  forall i dg cur fin,
    Inv orig wcsd raw dgfile i dg cur ->
    loop fuel dgfile wcsd i dg cur = Some (fin, Ok tt) ->
    exists i' dg', Inv orig wcsd raw dgfile i' dg' fin /\ (List.length fin <= i')%nat.
Proof.
  intros Hw. induction fuel as [|fuel IH]; intros i dg cur fin I H; [discriminate|].
  simpl in H. destruct (cur !! i) as [ext|] eqn:Ei.
  - destruct (ext_body getdata dgeo_vals dgfile wcsd i ext dg cur) as [cur' [dg'|e]] eqn:Eb;
      [|discriminate].
    apply (IH (S i) dg' cur' fin); [|exact H].
    eapply loop_inv_step; eassumption.
  - inversion H; subst fin. exists i, dg. split; [exact I|]. now apply lookup_ge_None.
Qed.

(** What a run that raises nothing has read, and the invariant at its
    end. *)
Lemma run_ok_inv (fobj fin : HDUList) :
  run fobj = Some (fin, Ok tt) ->
  exists raw dgfile wcsd i,
    primary_kw fobj "DGEOFILE" = Ok raw /\ osfn raw = Ok dgfile /\
    getwcsindex fobj = Ok wcsd /\
    Inv fobj wcsd raw dgfile i (2 * Z.of_nat (nsci fobj)) fin /\
    (List.length fobj <= i)%nat /\ (List.length fin <= i)%nat.
Proof.
  intros H. apply applyDgeoCorr_fuel_inv in H.
  destruct H as [(_ & e & He & _)|(raw & dgfile & wcsd & Hraw & Hos & Hw & Hloop)];
    [discriminate|].
  exists raw, dgfile, wcsd.
  destruct (ext_loop_inv fobj wcsd raw dgfile _ Hw 0%nat 0 fobj fin
              (loop_inv_init _ _ _ _ _ _ Hraw) Hloop) as (i & dg & I & Hi).
  exists i.
  assert (Hlen : (List.length fobj <= List.length fin)%nat).
  { rewrite (inv_length _ _ _ _ _ _ _ _ _ I). destruct (dict_nonempty wcsd); lia. }
  assert (Hdg : dg = 2 * Z.of_nat (nsci fobj)).
  { rewrite (inv_count _ _ _ _ _ _ _ _ _ I). now rewrite take_ge by lia. }
  subst dg. split; [exact Hraw|]. split; [exact Hos|]. split; [exact Hw|].
  split; [exact I|]. split; [lia|exact Hi].
Qed.

End Completed.

Section Numbering.

Variable osfn : pyval -> res string.
Variable getdata : string -> string -> pyval -> res ndarray.
Variable dgeo_vals : string -> option sdict.

Local Abbreviation run := (applyDgeoCorr osfn getdata dgeo_vals).

(** Where a run that raises nothing leaves a science extension: in its
    slot, with the cards of its rank written to its header. *)
Lemma run_ok_sci (fobj fin : HDUList) (p : nat) (h : HDU) :
  run fobj = Some (fin, Ok tt) ->
  fobj !! p = Some h -> is_sci h = true ->
  exists raw,
    primary_kw fobj "DGEOFILE" = Ok raw /\
    fin !! p = Some (annotate raw (2 * Z.of_nat (nsci (take (S p) fobj)) - 1) h).
Proof.
  intros Hrun Hp Hs. apply run_ok_inv in Hrun.
  destruct Hrun as (raw & dgfile & wcsd & i & Hraw & _ & _ & I & Hi & _).
  exists raw. split; [exact Hraw|].
  rewrite (inv_sci _ _ _ _ _ _ _ _ _ I p h Hp Hs).
  pose proof (lookup_lt_Some _ _ _ Hp). rewrite decide_True by lia.
  rewrite (nsci_take_S _ _ _ Hp), Hs. do 2 f_equal. lia.
Qed.

(** C2.  After a run that raises nothing, the science extension that is
    the k-th in file order has [DP1.EXTVER] = 2k - 1 and [DP2.EXTVER] = 2k
    in its header, whatever its own [EXTVER]. *)
Theorem dp_extver_by_rank (fobj fin : HDUList) (p : nat) (h : HDU) :
  run fobj = Some (fin, Ok tt) ->
  fobj !! p = Some h ->
  is_sci h = true ->
  exists h',
    fin !! p = Some h' /\
    header_get (header h') "DP1.EXTVER" =
      Some (PInt (2 * Z.of_nat (nsci (take (S p) fobj)) - 1)) /\
    header_get (header h') "DP2.EXTVER" =
      Some (PInt (2 * Z.of_nat (nsci (take (S p) fobj)))).
Proof.
  intros Hrun Hp Hs. destruct (run_ok_sci fobj fin p h Hrun Hp Hs) as (raw & _ & Hf).
  eexists. split; [exact Hf|]. unfold annotate, set_header. cbn [header].
  rewrite !header_get_apply_cards. simpl. split; [reflexivity|]. do 2 f_equal. lia.
Qed.

End Numbering.

Lemma filter_none (l : HDUList) :
  (forall h, h ∈ l -> is_wcsdvarr h = false) -> filter (fun h => is_wcsdvarr h = true) l = [].
Proof.
  induction l as [|x l IH]; intros H; [reflexivity|].
  rewrite filter_cons. rewrite (H x) by now left.
  destruct (decide (false = true)); [discriminate|].
  apply IH. intros h Hin. apply H. now right.
Qed.

Lemma filter_all (l : HDUList) :
  (forall h, h ∈ l -> is_wcsdvarr h = true) -> filter (fun h => is_wcsdvarr h = true) l = l.
Proof.
  induction l as [|x l IH]; intros H; [reflexivity|].
  rewrite filter_cons. rewrite (H x) by now left.
  destruct (decide (true = true)); [|contradiction].
  f_equal. apply IH. intros h Hin. apply H. now right.
Qed.

Section Lookups.

Variable osfn : pyval -> res string.
Variable getdata : string -> string -> pyval -> res ndarray.
Variable dgeo_vals : string -> option sdict.

Local Abbreviation run := (applyDgeoCorr osfn getdata dgeo_vals).

(** A run that raises nothing on a file object without WCSDVARR extensions
    leaves the extensions it found in their slots and appends the lookup
    HDUs in the order of their versions. *)
Lemma run_ok_appended (fobj fin : HDUList) :
  run fobj = Some (fin, Ok tt) ->
  (forall h, h ∈ fobj -> is_wcsdvarr h = false) ->
  List.length fin = (List.length fobj + 2 * nsci fobj)%nat /\
  (forall h, h ∈ take (List.length fobj) fin -> is_wcsdvarr h = false) /\
  (forall t, (t < 2 * nsci fobj)%nat ->
             exists raw dgfile hdu,
               primary_kw fobj "DGEOFILE" = Ok raw /\ osfn raw = Ok dgfile /\
               fin !! (List.length fobj + t)%nat = Some hdu /\
               built getdata dgeo_vals fobj dgfile (Z.of_nat t + 1) hdu).
Proof.
  intros Hrun Hno. apply run_ok_inv in Hrun.
  destruct Hrun as (raw & dgfile & wcsd & i & Hraw & Hos & Hw & I & Hi & _).
  assert (En : dict_nonempty wcsd = false).
  { rewrite (getwcsindex_nonempty _ _ Hw). apply not_true_is_false. intros Hex.
    apply existsb_exists in Hex. destruct Hex as (h & Hin & Hh).
    apply list_elem_of_In in Hin. rewrite (Hno h Hin) in Hh. discriminate. }
  split; [|split].
  - rewrite (inv_length _ _ _ _ _ _ _ _ _ I), En. lia.
  - intros x Hx. apply elem_of_take in Hx. destruct Hx as (p & Hp & Hlt).
    destruct (lookup_lt_is_Some_2 fobj p Hlt) as [h Hh].
    pose proof (Hno h (list_elem_of_lookup_2 _ _ _ Hh)) as Hnw.
    destruct (is_sci h) eqn:Es.
    + rewrite (inv_sci _ _ _ _ _ _ _ _ _ I p h Hh Es) in Hp.
      rewrite decide_True in Hp by lia. inversion Hp; subst x.
      now rewrite annotate_is_wcsdvarr.
    + destruct (inv_other _ _ _ _ _ _ _ _ _ I p h Hh Es) as [H|(j & hdu & _ & Hd & _)].
      * congruence.
      * rewrite dict_empty_get in Hd by exact En. discriminate.
  - intros t Ht.
    destruct (inv_new _ _ _ _ _ _ _ _ _ I En (Z.of_nat t + 1)) as (hdu & Hl & Hb); [lia|].
    exists raw, dgfile, hdu. replace (Z.to_nat (Z.of_nat t + 1 - 1)) with t in Hl by lia.
    auto.
Qed.

(** C1.  After a run that raises nothing on a file object with no
    WCSDVARR extension, the WCSDVARR extensions of the file object, read in
    file order, have the versions 1, 2, ..., 2N, where N is the number of
    its science extensions: there are 2N of them and each version occurs
    once. *)
Theorem lookup_extensions_numbered (fobj fin : HDUList) :
  run fobj = Some (fin, Ok tt) ->
  existsb is_wcsdvarr fobj = false ->
  (fun h => header_get (header h) "EXTVER") <$> filter (fun h => is_wcsdvarr h = true) fin =
  (fun j => Some (PInt j)) <$> seqZ 1 (2 * Z.of_nat (nsci fobj)).
Proof.
  intros Hrun Hex.
  assert (Hno : forall h, h ∈ fobj -> is_wcsdvarr h = false).
  { intros h Hin. apply not_true_is_false. intros Hh.
    assert (existsb is_wcsdvarr fobj = true); [|congruence].
    apply existsb_exists. exists h. split; [now apply list_elem_of_In|exact Hh]. }
  destruct (run_ok_appended fobj fin Hrun Hno) as (Hlen & Hold & Hnew).
  rewrite <- (take_drop (List.length fobj) fin) at 1.
  rewrite filter_app, (filter_none _ Hold). simpl.
  assert (Hd : forall t, (t < 2 * nsci fobj)%nat ->
                 exists hdu, drop (List.length fobj) fin !! t = Some hdu /\
                             is_wcsdvarr hdu = true /\
                             header_get (header hdu) "EXTVER" = Some (PInt (Z.of_nat t + 1))).
  { intros t Ht. destruct (Hnew t Ht) as (raw & dgfile & hdu & _ & _ & Hl & Hb).
    exists hdu. rewrite lookup_drop. split; [exact Hl|].
    apply built_kind in Hb. destruct Hb as (_ & Hb & He). split; [exact Hb|].
    apply He. lia. }
  rewrite filter_all.
  2: { intros h Hin. apply list_elem_of_lookup_1 in Hin. destruct Hin as [t Ht].
       pose proof (lookup_lt_Some _ _ _ Ht) as Hlt. rewrite length_drop in Hlt.
       destruct (Hd t) as (hdu & Hl & Hk & _); [lia|]. congruence. }
  apply list_eq. intros t. rewrite !list_lookup_fmap.
  destruct (decide (t < 2 * nsci fobj)%nat) as [Ht|Ht].
  - destruct (Hd t Ht) as (hdu & -> & _ & He). simpl.
    rewrite lookup_seqZ_lt by lia. simpl. rewrite He. do 3 f_equal. lia.
  - rewrite lookup_seqZ_ge by lia.
    rewrite (lookup_ge_None_2 (drop _ fin)); [reflexivity|].
    rewrite length_drop. lia.
Qed.

End Lookups.

(** ** Position of the new keywords *)

Lemma before_insert_new (hdr : Header) (k b : string) (c : Card) :
  key c = k -> before (insert_before hdr b c) k b = true.
Proof.
  intros Hk. induction hdr as [|x r IH]; simpl.
  - now rewrite Hk, String.eqb_refl.
  - destruct (String.eqb (key x) b) eqn:Eb; simpl.
    + now rewrite Hk, String.eqb_refl.
    + rewrite Eb. destruct (String.eqb (key x) k); [reflexivity|exact IH].
Qed.

Lemma before_insert_pres (hdr : Header) (k b : string) (c : Card) :
  k ≠ b -> before hdr k b = true -> before (insert_before hdr b c) k b = true.
Proof.
  intros Hkb. induction hdr as [|x r IH]; simpl; [discriminate|].
  destruct (String.eqb_spec (key x) k) as [Ek|Ek].
  - intros _. destruct (String.eqb_spec (key x) b) as [Eb|Eb]; [congruence|].
    simpl. now rewrite Ek, String.eqb_refl.
  - destruct (String.eqb (key x) b) eqn:Eb; [discriminate|].
    intros H. simpl. rewrite (eqb_false_ne _ _ Ek), Eb. now apply IH.
Qed.

Lemma before_replace_first (hdr : Header) (k k' b : string) (c : Card) :
  key c = k' -> before (replace_first hdr k' c) k b = before hdr k b.
Proof.
  intros Hk. induction hdr as [|x r IH]; simpl; [reflexivity|].
  destruct (String.eqb_spec (key x) k') as [E|E]; simpl.
  - now rewrite Hk, E.
  - now rewrite IH.
Qed.

Lemma before_update_pres (hdr : Header) (k k' b : string) (v : pyval) (cm : string) :
  k ≠ b -> before hdr k b = true -> before (update hdr k' v cm b) k b = true.
Proof.
  intros Hkb H. unfold update. destruct (has_key hdr k').
  - now rewrite before_replace_first.
  - now apply before_insert_pres.
Qed.

Lemma before_update_new (hdr : Header) (k b : string) (v : pyval) (cm : string) :
  card_get hdr k = None -> before (update hdr k v cm b) k b = true.
Proof.
  intros H. unfold update. apply has_key_false in H. rewrite H.
  now apply before_insert_new.
Qed.

(** A keyword that a list of cards brings to a header is placed before the
    history. *)
Lemma before_apply_cards (cs : list Card) (hdr : Header) (k : string) :
  k ≠ "HISTORY" ->
  before hdr k "HISTORY" = true \/ (card_get hdr k = None /\ k ∈ keys_of cs) ->
  before (apply_cards cs hdr) k "HISTORY" = true.
Proof.
  intros Hk. revert hdr. induction cs as [|c cs IH]; intros hdr H.
  - destruct H as [H|[_ H]]; [exact H|inversion H].
  - change (apply_cards (c :: cs) hdr) with
      (apply_cards cs (update hdr (key c) (value c) (comment c) "HISTORY")).
    apply IH. destruct H as [H|[Hn Hin]].
    + left. now apply before_update_pres.
    + unfold keys_of in Hin. simpl in Hin. apply elem_of_cons in Hin.
      destruct (String.eqb_spec (key c) k) as [E|E].
      * left. rewrite E. now apply before_update_new.
      * destruct Hin as [Hin|Hin]; [congruence|].
        right. split; [|exact Hin]. now rewrite card_get_update_ne.
Qed.

Lemma before_spec (hdr : Header) (k b : string) :
  k ≠ b -> before hdr k b = true ->
  exists n c, hdr !! n = Some c /\ key c = k /\
              forall m c', hdr !! m = Some c' -> key c' = b -> (n < m)%nat.
Proof.
  intros Hkb. induction hdr as [|x r IH]; simpl; [discriminate|].
  destruct (String.eqb_spec (key x) k) as [Ek|Ek].
  - intros _. exists 0%nat, x. split; [reflexivity|]. split; [exact Ek|].
    intros [|m] c' Hm Hb; [|lia]. simpl in Hm. congruence.
  - destruct (String.eqb_spec (key x) b) as [Eb|Eb]; [discriminate|].
    intros H. destruct (IH H) as (n & c & Hn & Hc & Hlt).
    exists (S n), c. split; [exact Hn|]. split; [exact Hc|].
    intros [|m] c' Hm Hb; simpl in Hm.
    + congruence.
    + specialize (Hlt m c' Hm Hb). lia.
Qed.

Lemma annot_keys_of (raw : pyval) (v : Z) (k : string) :
  k ∈ keys_of (annot_cards raw v) <-> k ∈ annot_keys.
Proof.
  change (keys_of (annot_cards raw v)) with
    [ "CPERROR1"; "CPDIS1"; "DP1.EXTVER"; "DP1.NAXES"; "DP1.AXIS.1"; "DP1.AXIS.2";
      "DGEOFILE";
      "CPERROR2"; "CPDIS2"; "DP2.EXTVER"; "DP2.NAXES"; "DP2.AXIS.1"; "DP2.AXIS.2";
      "DGEOFILE"; "DGEOFILE" ].
  unfold annot_keys. rewrite !elem_of_cons, !elem_of_nil. tauto.
Qed.

Lemma annot_keys_no_HISTORY (k : string) : k ∈ annot_keys -> k ≠ "HISTORY".
Proof.
  unfold annot_keys. intros Hin ->.
  repeat (apply elem_of_cons in Hin; destruct Hin as [Hin|Hin]; [discriminate|]).
  inversion Hin.
Qed.

Lemma other_cards_cons (c : Card) (hdr : Header) :
  other_cards (c :: hdr) =
  if decide (key c ∈ annot_keys) then other_cards hdr else c :: other_cards hdr.
Proof.
  unfold other_cards. rewrite filter_cons.
  destruct (decide (key c ∈ annot_keys)), (decide (key c ∉ annot_keys)); tauto.
Qed.

Lemma other_cards_replace_first (hdr : Header) (k : string) (c : Card) :
  k ∈ annot_keys -> key c = k -> other_cards (replace_first hdr k c) = other_cards hdr.
Proof.
  intros Hk Hc. induction hdr as [|c' r IH]; [reflexivity|]. simpl.
  destruct (String.eqb_spec (key c') k) as [E|E].
  - rewrite !other_cards_cons, Hc, E. now rewrite !decide_True by exact Hk.
  - rewrite !other_cards_cons, IH. reflexivity.
Qed.

Lemma other_cards_insert_before (hdr : Header) (b : string) (c : Card) :
  key c ∈ annot_keys -> other_cards (insert_before hdr b c) = other_cards hdr.
Proof.
  intros Hc. induction hdr as [|c' r IH]; simpl.
  - rewrite other_cards_cons. now rewrite decide_True by exact Hc.
  - destruct (String.eqb (key c') b).
    + rewrite (other_cards_cons c). now rewrite decide_True by exact Hc.
    + rewrite !other_cards_cons, IH. reflexivity.
Qed.

Lemma other_cards_update (hdr : Header) (k : string) (v : pyval) (cm b : string) :
  k ∈ annot_keys -> other_cards (update hdr k v cm b) = other_cards hdr.
Proof.
  intros Hk. unfold update. destruct (has_key hdr k).
  - now apply other_cards_replace_first.
  - now apply other_cards_insert_before.
Qed.

Lemma other_cards_apply_cards (cs : list Card) (hdr : Header) :
  (forall c, c ∈ cs -> key c ∈ annot_keys) ->
  other_cards (apply_cards cs hdr) = other_cards hdr.
Proof.
  revert hdr. induction cs as [|c cs IH]; intros hdr H; [reflexivity|].
  change (apply_cards (c :: cs) hdr) with
    (apply_cards cs (update hdr (key c) (value c) (comment c) "HISTORY")).
  rewrite IH by (intros c' Hc'; apply H; now right).
  apply other_cards_update, H. now left.
Qed.

(** ** The order of the keywords *)

(** The keywords of a header in the order of its cards.  Writing a card
    for a keyword the header has leaves them as they are. *)
Lemma keys_of_replace_first (hdr : Header) (k : string) (c : Card) :
  key c = k -> keys_of (replace_first hdr k c) = keys_of hdr.
Proof.
  intros Hc. unfold keys_of. induction hdr as [|x r IH]; [reflexivity|]. simpl.
  destruct (String.eqb_spec (key x) k) as [E|E]; simpl.
  - now rewrite Hc, E.
  - now rewrite IH.
Qed.

Lemma has_key_elem_of (hdr : Header) (k : string) :
  has_key hdr k = true <-> k ∈ keys_of hdr.
Proof.
  unfold has_key, keys_of. induction hdr as [|x r IH]; simpl.
  - split; [discriminate|]. intros H. inversion H.
  - rewrite elem_of_cons, orb_true_iff, IH.
    destruct (String.eqb_spec (key x) k); split; intros [H|H]; auto; congruence.
Qed.

(** A new card goes between the cards the header has. *)
Lemma keys_of_insert_before (old : list string) (hdr : Header) (b : string) (c : Card) :
  key c ∉ old ->
  filter (fun k => k ∈ old) (keys_of (insert_before hdr b c)) =
  filter (fun k => k ∈ old) (keys_of hdr).
Proof.
  intros Hc. unfold keys_of. induction hdr as [|x r IH]; simpl.
  - now rewrite filter_cons_False.
  - destruct (String.eqb (key x) b); simpl.
    + now rewrite (filter_cons_False _ (key c)).
    + now rewrite !filter_cons, IH.
Qed.

Lemma has_key_update (hdr : Header) (k k' : string) (v : pyval) (cm b : string) :
  has_key hdr k' = true -> has_key (update hdr k v cm b) k' = true.
Proof.
  intros H. apply has_key_card. rewrite card_get_update.
  destruct (String.eqb k k'); [eauto|]. now apply has_key_card.
Qed.

Lemma keys_of_update (old : list string) (hdr : Header) (k : string) (v : pyval)
    (cm b : string) :
  (forall k', k' ∈ old -> has_key hdr k' = true) ->
  filter (fun k' => k' ∈ old) (keys_of (update hdr k v cm b)) =
  filter (fun k' => k' ∈ old) (keys_of hdr).
Proof.
  intros Hold. unfold update. destruct (has_key hdr k) eqn:E.
  - now rewrite keys_of_replace_first.
  - apply keys_of_insert_before. simpl. intros Hin. apply Hold in Hin. congruence.
Qed.

Lemma filter_elem_of_all (old l : list string) :
  (forall k, k ∈ l -> k ∈ old) -> filter (fun k => k ∈ old) l = l.
Proof.
  induction l as [|x l IH]; intros H; [reflexivity|].
  rewrite filter_cons_True by (apply H; now left).
  rewrite IH; [reflexivity|]. intros k Hk. apply H. now right.
Qed.

(** The keywords a header had stand, after a list of cards is written, in
    the order they had: a card for one of them is rewritten in its place,
    and the cards of new keywords are put between them. *)
Lemma keys_of_apply_cards (cs : list Card) (hdr : Header) :
  filter (fun k : string => k ∈ keys_of hdr) (keys_of (apply_cards cs hdr)) = keys_of hdr.
Proof.
  assert (G : forall (old : list string) hdr', (forall k, k ∈ old -> has_key hdr' k = true) ->
            filter (fun k => k ∈ old) (keys_of (apply_cards cs hdr')) =
            filter (fun k => k ∈ old) (keys_of hdr')).
  { intros old. induction cs as [|c cs IH]; intros hdr' H; [reflexivity|].
    change (apply_cards (c :: cs) hdr') with
      (apply_cards cs (update hdr' (key c) (value c) (comment c) "HISTORY")).
    rewrite IH by (intros k Hk; now apply has_key_update, H).
    now apply keys_of_update. }
  rewrite G by (intros k Hk; now apply has_key_elem_of).
  now apply filter_elem_of_all.
Qed.

Lemma before_insert_other (hdr : Header) (k b : string) (c : Card) :
  key c ≠ k -> key c ≠ b -> before (insert_before hdr b c) k b = before hdr k b.
Proof.
  intros Hk Hb. induction hdr as [|x r IH]; simpl.
  - now rewrite (eqb_false_ne _ _ Hk), (eqb_false_ne _ _ Hb).
  - destruct (String.eqb (key x) b) eqn:Eb; simpl.
    + now rewrite (eqb_false_ne _ _ Hk), (eqb_false_ne _ _ Hb), Eb.
    + now rewrite Eb, IH.
Qed.

Lemma before_update_same (hdr : Header) (k k' b : string) (v : pyval) (cm : string) :
  has_key hdr k = true -> k' ≠ b ->
  before (update hdr k' v cm b) k b = before hdr k b.
Proof.
  intros Hk Hb. unfold update. destruct (has_key hdr k') eqn:E.
  - now apply before_replace_first.
  - apply before_insert_other; simpl; [congruence|exact Hb].
Qed.

(** A keyword the header has stays on its side of the history. *)
Lemma before_apply_cards_same (cs : list Card) (hdr : Header) (k : string) :
  "HISTORY" ∉ keys_of cs -> has_key hdr k = true ->
  before (apply_cards cs hdr) k "HISTORY" = before hdr k "HISTORY".
Proof.
  revert hdr. induction cs as [|c cs IH]; intros hdr Hh Hk; [reflexivity|].
  change (apply_cards (c :: cs) hdr) with
    (apply_cards cs (update hdr (key c) (value c) (comment c) "HISTORY")).
  simpl in Hh. apply not_elem_of_cons in Hh. destruct Hh as [Hc Hh].
  rewrite IH; [|exact Hh|now apply has_key_update].
  apply before_update_same; [exact Hk|congruence].
Qed.

Lemma annot_cards_keys (raw : pyval) (v : Z) (c : Card) :
  c ∈ annot_cards raw v -> key c ∈ annot_keys.
Proof.
  intros Hc. apply (annot_keys_of raw v). unfold keys_of.
  apply list_elem_of_fmap. now exists c.
Qed.

Lemma annot_cards_no_HISTORY (raw : pyval) (v : Z) : "HISTORY" ∉ keys_of (annot_cards raw v).
Proof.
  intros H. apply annot_keys_of in H. now apply annot_keys_no_HISTORY in H.
Qed.

Section ScienceHeader.

Variable osfn : pyval -> res string.
Variable getdata : string -> string -> pyval -> res ndarray.
Variable dgeo_vals : string -> option sdict.

Local Abbreviation run := (applyDgeoCorr osfn getdata dgeo_vals).

(** C5, amended.  After a run that raises nothing, the header of the k-th
    science extension holds, for each axis j, the six keywords [CPERRORj] =
    0.0, [CPDISj] = "Lookup", [DPj.EXTVER] = 2k - 2 + j, [DPj.NAXES] = 2,
    [DPj.AXIS.1] = 1 and [DPj.AXIS.2] = 2, and [DGEOFILE] with the value the
    primary header has for it (the path as written there, before
    resolution); every other keyword has the card it had, and the data are
    the same; each of the thirteen keywords that the header did not have is
    placed before every [HISTORY] card.  A keyword the header had is
    rewritten where it stands: it is before the history exactly when it
    was, the keywords the header had follow each other in the order they
    had, the new ones between them, and the cards of all other keywords
    are the same cards in the same order. *)
Theorem science_header_keywords (fobj fin : HDUList) (p : nat) (h : HDU) :
  run fobj = Some (fin, Ok tt) ->
  fobj !! p = Some h ->
  is_sci h = true ->
  exists raw h',
    primary_kw fobj "DGEOFILE" = Ok raw /\
    fin !! p = Some h' /\
    data h' = data h /\
    header_get (header h') "CPERROR1" = Some (PFloat (0 # 1)) /\
    header_get (header h') "CPDIS1" = Some (PStr "Lookup") /\
    header_get (header h') "DP1.EXTVER" =
      Some (PInt (2 * Z.of_nat (nsci (take (S p) fobj)) - 1)) /\
    header_get (header h') "DP1.NAXES" = Some (PInt 2) /\
    header_get (header h') "DP1.AXIS.1" = Some (PInt 1) /\
    header_get (header h') "DP1.AXIS.2" = Some (PInt 2) /\
    header_get (header h') "CPERROR2" = Some (PFloat (0 # 1)) /\
    header_get (header h') "CPDIS2" = Some (PStr "Lookup") /\
    header_get (header h') "DP2.EXTVER" =
      Some (PInt (2 * Z.of_nat (nsci (take (S p) fobj)))) /\
    header_get (header h') "DP2.NAXES" = Some (PInt 2) /\
    header_get (header h') "DP2.AXIS.1" = Some (PInt 1) /\
    header_get (header h') "DP2.AXIS.2" = Some (PInt 2) /\
    header_get (header h') "DGEOFILE" = Some raw /\
    (forall k, k ∉ annot_keys -> card_get (header h') k = card_get (header h) k) /\
    (forall k, k ∈ annot_keys -> card_get (header h) k = None ->
               exists n c, header h' !! n = Some c /\ key c = k /\
                           forall m c', header h' !! m = Some c' -> key c' = "HISTORY" ->
                                        (n < m)%nat) /\
    (forall k, k ∈ annot_keys -> card_get (header h) k <> None ->
               before (header h') k "HISTORY" = before (header h) k "HISTORY") /\
    filter (fun k : string => k ∈ keys_of (header h)) (keys_of (header h')) =
      keys_of (header h) /\
    other_cards (header h') = other_cards (header h).
Proof.
  intros Hrun Hp Hs. destruct (run_ok_sci _ _ _ fobj fin p h Hrun Hp Hs) as (raw & Hraw & Hf).
  exists raw. eexists. split; [exact Hraw|]. split; [exact Hf|].
  split; [reflexivity|].
  unfold annotate, set_header. cbn [header].
  set (v := 2 * Z.of_nat (nsci (take (S p) fobj)) - 1).
  rewrite !header_get_apply_cards.
  do 2 (split; [reflexivity|]). split; [reflexivity|].
  do 5 (split; [reflexivity|]).
  split; [simpl; do 2 f_equal; unfold v; lia|].
  do 4 (split; [reflexivity|]).
  split; [|split; [|split; [|split]]].
  - intros k Hk. apply card_get_apply_cards_notin. now rewrite annot_keys_of.
  - intros k Hk Hn. apply before_spec; [now apply annot_keys_no_HISTORY|].
    apply before_apply_cards; [now apply annot_keys_no_HISTORY|].
    right. split; [exact Hn|]. now apply annot_keys_of.
  - intros k _ Hn. apply before_apply_cards_same; [apply annot_cards_no_HISTORY|].
    apply has_key_card. destruct (card_get (header h) k); [eauto|congruence].
  - apply keys_of_apply_cards.
  - apply other_cards_apply_cards. apply annot_cards_keys.
Qed.

End ScienceHeader.

(** ** Names of extensions *)

Lemma scan_from_acc_Some (l : HDUList) :
  forall e a q, exists a', scan_from e l (Some a) q = Some a' /\ (a' = a \/ (e <= a')%nat).
Proof.
  induction l as [|x r IH]; intros e a q; simpl; [eauto|].
  destruct (matches x q).
  - destruct (IH (S e) e q) as (a' & -> & [->|H]); eexists; split; try reflexivity; lia.
  - destruct (IH (S e) a q) as (a' & -> & [->|H]); eexists; split; try reflexivity;
      [now left|right; lia].
Qed.

(** A matching HDU makes the scan find its position or a later one. *)
Lemma scan_from_found (l : HDUList) :
  forall e acc q p h,
    l !! p = Some h -> matches h q = true ->
    exists p', scan_from e l acc q = Some p' /\ (e + p <= p')%nat.
Proof.
  induction l as [|x r IH]; intros e acc q p h Hl Hm; [discriminate|].
  simpl. destruct p as [|p]; simpl in Hl.
  - inversion Hl; subst x. rewrite Hm.
    destruct (scan_from_acc_Some r (S e) e q) as (a' & -> & [->|H]);
      eexists; split; try reflexivity; lia.
  - destruct (IH (S e) (if matches x q then Some e else acc) q p h Hl Hm) as (p' & -> & H).
    eexists; split; [reflexivity|lia].
Qed.

Section Names.

Variable osfn : pyval -> res string.
Variable getdata : string -> string -> pyval -> res ndarray.
Variable dgeo_vals : string -> option sdict.

Local Abbreviation run := (applyDgeoCorr osfn getdata dgeo_vals).

(** C9, amended.  The test for a science extension holds exactly for an
    [EXTNAME] that is [SCI] in any mix of upper and lower case, and a run
    that raises nothing has annotated every extension so named.  The scan,
    on any file object it accepts and whether or not a run follows, holds
    at a key [q] only the position of an extension whose [EXTNAME] is
    exactly [WCSDVARR] and whose [EXTVER] equals [q]; and every extension
    so named and numbered is found by the scan, at its position or a later
    one. *)
Theorem names_sci_any_case_wcsdvarr_exact :
  (forall h : HDU,
     is_sci h = true <->
     exists name, header_get (header h) "EXTNAME" = Some (PStr name) /\
                  lower name = lower "SCI") /\
  (forall (fobj fin : HDUList) (p : nat) (h : HDU) (name : string),
     run fobj = Some (fin, Ok tt) ->
     fobj !! p = Some h ->
     header_get (header h) "EXTNAME" = Some (PStr name) ->
     lower name = lower "SCI" ->
     exists h', fin !! p = Some h' /\
                header_get (header h') "CPDIS1" = Some (PStr "Lookup") /\
                header_get (header h') "CPDIS2" = Some (PStr "Lookup") /\
                header_get (header h') "DP1.EXTVER" =
                  Some (PInt (2 * Z.of_nat (nsci (take (S p) fobj)) - 1))) /\
  (forall (fobj : HDUList) (wcsd : dict) (q : pyval) (e : nat),
     getwcsindex fobj = Ok wcsd ->
     dict_get wcsd q = Some e ->
     exists x v, fobj !! e = Some x /\
                 header_get (header x) "EXTNAME" = Some (PStr "WCSDVARR") /\
                 header_get (header x) "EXTVER" = Some v /\ py_eq v q = true) /\
  (forall (fobj : HDUList) (wcsd : dict) (e : nat) (x : HDU) (v : pyval),
     getwcsindex fobj = Ok wcsd ->
     fobj !! e = Some x ->
     header_get (header x) "EXTNAME" = Some (PStr "WCSDVARR") ->
     header_get (header x) "EXTVER" = Some v ->
     exists e', dict_get wcsd v = Some e' /\ (e <= e')%nat).
Proof.
  assert (Hsci : forall h name, header_get (header h) "EXTNAME" = Some (PStr name) ->
                 lower name = lower "SCI" -> is_sci h = true).
  { intros h name Hn Hl. unfold is_sci. rewrite Hn, Hl. reflexivity. }
  split; [|split; [|split]].
  - intros h. split.
    + unfold is_sci. destruct (header_get (header h) "EXTNAME") as [[| | | |name]|];
        try discriminate.
      intros H. exists name. split; [reflexivity|]. now apply String.eqb_eq in H.
    + intros (name & Hn & Hl). now apply (Hsci h name).
  - intros fobj fin p h name Hrun Hp Hn Hl.
    destruct (run_ok_sci _ _ _ fobj fin p h Hrun Hp (Hsci h name Hn Hl)) as (raw & _ & Hf).
    eexists. split; [exact Hf|]. unfold annotate, set_header. cbn [header].
    rewrite !header_get_apply_cards. repeat split; reflexivity.
  - intros fobj wcsd q e Hw Hq.
    unfold getwcsindex in Hw. rewrite (getwcsindex_from_get _ _ _ _ q Hw) in Hq.
    simpl in Hq. apply scan_from_Some in Hq.
    destruct Hq as [[Hq _]|(_ & (x & Hx & Hm) & _)]; [discriminate|].
    rewrite Nat.sub_0_r in Hx. unfold matches, is_wcsdvarr in Hm.
    apply andb_true_iff in Hm. destruct Hm as [Hm1 Hm2].
    destruct (header_get (header x) "EXTNAME") as [nm|] eqn:En; [|discriminate].
    apply py_eq_str_inv in Hm1. subst nm.
    destruct (header_get (header x) "EXTVER") as [v|] eqn:Ev; [|discriminate].
    exists x, v. auto.
  - intros fobj wcsd e x v Hw Hx Hnm Hv. unfold getwcsindex in Hw.
    rewrite (getwcsindex_from_get _ _ _ _ v Hw). simpl.
    assert (Hm : matches x v = true).
    { unfold matches, is_wcsdvarr. rewrite Hnm, Hv. simpl.
      destruct v; simpl; try reflexivity.
      - apply Qeq_bool_iff. reflexivity.
      - apply Qeq_bool_iff. reflexivity.
      - apply Qeq_bool_iff. reflexivity.
      - apply String.eqb_refl. }
    destruct (scan_from_found fobj 0 None v e x Hx Hm) as (p' & Hp' & Hle).
    exists p'. split; [exact Hp'|lia].
Qed.

End Names.

(** ** An instrument without defaults *)

Lemma nsci_take_none (l : HDUList) (p : nat) :
  (forall p' x, (p' < p)%nat -> l !! p' = Some x -> is_sci x = false) ->
  nsci (take p l) = 0%nat.
Proof.
  revert l. induction p as [|p IH]; intros l H; [now rewrite take_0|].
  destruct l as [|x l]; [reflexivity|]. simpl. rewrite nsci_cons.
  rewrite (H 0%nat x); [|lia|reflexivity].
  simpl. apply IH. intros p' y Hp' Hy. apply (H (S p') y); [lia|exact Hy].
Qed.

Lemma nsci_zero (l : HDUList) : nsci l = 0%nat -> forall x, x ∈ l -> is_sci x = false.
Proof.
  induction l as [|y l IH]; intros Hn x Hin; [inversion Hin|].
  rewrite nsci_cons in Hn. apply elem_of_cons in Hin. destruct Hin as [->|Hin].
  - destruct (is_sci y); [discriminate|reflexivity].
  - apply IH; [|exact Hin]. destruct (is_sci y); [discriminate|exact Hn].
Qed.

Section Unknown.

Variable osfn : pyval -> res string.
Variable getdata : string -> string -> pyval -> res ndarray.
Variable dgeo_vals : string -> option sdict.

Local Abbreviation run := (applyDgeoCorr osfn getdata dgeo_vals).
Local Abbreviation loop := (ext_loop getdata dgeo_vals).

Lemma createDgeoHDU_unknown (dgfile : string) (dgeover : Z) (ename : string) (v : pyval)
    (s : HDUList) (instr : pyval) :
  primary_kw s "INSTRUME" = Ok instr ->
  dgeo_vals_item dgeo_vals instr = Raise KeyError ->
  (createDgeoHDU getdata dgeo_vals dgfile dgeover ename v s).2 = Raise KeyError.
Proof.
  intros Hi Hd. unfold createDgeoHDU, createDgeoHdr.
  unfold bind at 1. unfold bind at 1. rewrite getkw_primary, Hi.
  unfold bind at 1. unfold lift. rewrite Hd. reflexivity.
Qed.

(** The pass over a science extension when the instrument has no
    defaults: an exception, and the header of that extension as the only
    thing that may have been written. *)
Lemma sci_body_unknown (dgfile : string) (wcsd : dict) (i : nat) (dg : Z) (s : HDUList)
    (instr raw : pyval) :
  primary_kw s "INSTRUME" = Ok instr ->
  dgeo_vals_item dgeo_vals instr = Raise KeyError ->
  primary_kw s "DGEOFILE" = Ok raw ->
  exists e s',
    sci_body getdata dgeo_vals dgfile wcsd i dg s = (s', Raise e) /\
    (s' = s \/ s' = alter (set_header (apply_cards (kw_cards raw "DX" (dg + 1)))) i s).
Proof.
  intros Hi Hd Hraw. unfold sci_body. unfold bind at 1. rewrite getkw_eq.
  destruct (s !! i) as [h|] eqn:Eh; [|exists IndexError, s; simpl; auto].
  destruct (header_get (header h) "EXTVER") as [v|]; [|exists KeyError, s; simpl; auto].
  cbn [of_option]. unfold bind at 1. cbn [axis_loop]. unfold bind at 1.
  rewrite axis_step_eq, addSciExtKw_eq. cbn [fst snd]. cbv zeta.
  rewrite primary_kw_upd_notin by apply sci_cards_no_DGEOFILE. rewrite Hraw.
  rewrite (createDgeoHDU_unknown dgfile (dg + 1) "DX" v _ instr); [| |exact Hd].
  - exists KeyError. eexists. split; [reflexivity|]. now right.
  - rewrite primary_kw_upd_notin by apply kw_cards_no_INSTRUME. exact Hi.
Qed.

Lemma ext_loop_unknown (dgfile : string) (wcsd : dict) (fobj : HDUList) (instr raw : pyval)
    (fuel : nat) :
  primary_kw fobj "INSTRUME" = Ok instr ->
  dgeo_vals_item dgeo_vals instr = Raise KeyError ->
  primary_kw fobj "DGEOFILE" = Ok raw ->
  forall i fin r,
    loop fuel dgfile wcsd i 0 fobj = Some (fin, r) ->
    (forall p' x, (p' < i)%nat -> fobj !! p' = Some x -> is_sci x = false) ->
    (fin = fobj /\ (r = Ok tt -> forall p' x, fobj !! p' = Some x -> is_sci x = false)) \/
    (exists p h e,
       fobj !! p = Some h /\ is_sci h = true /\ nsci (take p fobj) = 0%nat /\
       r = Raise e /\
       (fin = fobj \/ fin = alter (set_header (apply_cards (kw_cards raw "DX" 1))) p fobj)).
Proof.
  intros Hi Hd Hraw. induction fuel as [|fuel IH]; intros i fin r H Hbefore; [discriminate|].
  simpl in H. destruct (fobj !! i) as [ext|] eqn:Ei.
  - destruct (is_sci ext) eqn:Es.
    + right. rewrite ext_body_sci in H by exact Es.
      destruct (sci_body_unknown dgfile wcsd i 0 fobj instr raw Hi Hd Hraw)
        as (e' & s' & Hr & Hst).
      rewrite Hr in H. inversion H; subst fin r. exists i, ext, e'.
      split; [exact Ei|]. split; [exact Es|].
      split; [now apply nsci_take_none|]. split; [reflexivity|exact Hst].
    + destruct (ext_body_not_sci getdata dgeo_vals dgfile wcsd i ext 0 fobj Es) as [Hs Hdg].
      destruct (ext_body getdata dgeo_vals dgfile wcsd i ext 0 fobj) as [s' [d|e]];
        simpl in Hs; subst s'.
      * rewrite (Hdg d eq_refl) in H. apply (IH (S i) fin r H).
        intros p' x Hp' Hx. destruct (decide (p' = i)) as [->|Hne]; [congruence|].
        apply (Hbefore p' x); [lia|exact Hx].
      * inversion H; subst. left. split; [reflexivity|discriminate].
  - inversion H; subst. left. split; [reflexivity|]. intros _ p' x Hx.
    apply (Hbefore p' x); [|exact Hx].
    apply lookup_ge_None in Ei. apply lookup_lt_Some in Hx. lia.
Qed.

(** The body of the loop on an HDU that is no science extension: the
    file object is left alone and the defaults are not looked at. *)
Lemma ext_body_no_sci (table : string -> option sdict) (dgfile : string) (wcsd : dict)
    (i : nat) (ext : HDU) (dg : Z) (s : HDUList) :
  is_sci ext = false ->
  ext_body getdata table dgfile wcsd i ext dg s =
  (s, if name_ok ext then Ok dg else Raise AttributeError).
Proof.
  unfold is_sci, name_ok, ext_body.
  destruct (header_get (header ext) "EXTNAME") as [[| | | |n]|]; try reflexivity.
  now intros ->.
Qed.

(** The loop over a file object without science extensions: it ends
    with the file object it was given, whatever the table of defaults,
    and raises nothing exactly when every [EXTNAME] it meets is a
    string. *)
Lemma ext_loop_no_sci (dgfile : string) (wcsd : dict) (s : HDUList) (fuel : nat) :
  (forall x, x ∈ s -> is_sci x = false) ->
  forall i dg fin r,
    loop fuel dgfile wcsd i dg s = Some (fin, r) ->
    fin = s /\
    (forall table, ext_loop getdata table fuel dgfile wcsd i dg s = Some (s, r)) /\
    (r = Ok tt <-> forall p x, (i <= p)%nat -> s !! p = Some x -> name_ok x = true).
Proof.
  intros Hs. induction fuel as [|fuel IH]; intros i dg fin r H; [discriminate|].
  simpl in H. simpl. destruct (s !! i) as [ext|] eqn:Ei.
  - assert (Hx : is_sci ext = false) by (apply Hs; eapply list_elem_of_lookup_2; eauto).
    rewrite ext_body_no_sci in H by exact Hx.
    destruct (name_ok ext) eqn:En.
    + destruct (IH (S i) dg fin r H) as (-> & Ht & Hr). split; [reflexivity|]. split.
      * intros table. rewrite ext_body_no_sci, En by exact Hx. apply Ht.
      * rewrite Hr. split; intros Hall p x Hp Hpx.
        -- destruct (decide (p = i)) as [->|Hne]; [congruence|].
           apply (Hall p x); [lia|exact Hpx].
        -- apply (Hall p x); [lia|exact Hpx].
    + inversion H; subst fin r. split; [reflexivity|]. split.
      * intros table. now rewrite ext_body_no_sci, En by exact Hx.
      * split; [discriminate|]. intros Hall.
        rewrite (Hall i ext) in En; [discriminate|lia|exact Ei].
  - inversion H; subst fin r. split; [reflexivity|]. split; [reflexivity|].
    split; [|reflexivity]. intros _ p x Hp Hpx.
    apply lookup_ge_None in Ei. apply lookup_lt_Some in Hpx. lia.
Qed.

(** A run on a file object without science extensions. *)
Lemma run_no_sci (fobj fin : HDUList) (r : res unit) :
  nsci fobj = 0%nat ->
  run fobj = Some (fin, r) ->
  fin = fobj /\
  (forall table, applyDgeoCorr osfn getdata table fobj = Some (fobj, r)) /\
  (r = Ok tt <->
   (exists raw dgfile wcsd,
      primary_kw fobj "DGEOFILE" = Ok raw /\ osfn raw = Ok dgfile /\
      getwcsindex fobj = Ok wcsd) /\
   forall x, x ∈ fobj -> name_ok x = true).
Proof.
  intros Hn Hrun.
  pose proof (nsci_zero fobj Hn) as Hs.
  unfold applyDgeoCorr in *. unfold applyDgeoCorr_fuel in *.
  unfold bind, lift in *. rewrite getkw_primary in *.
  destruct (primary_kw fobj "DGEOFILE") as [raw|e] eqn:Er.
  - destruct (osfn raw) as [dgfile|e] eqn:Eo.
    + destruct (getwcsindex fobj) as [wcsd|e] eqn:Ew.
      * destruct (ext_loop_no_sci dgfile wcsd fobj _ Hs _ _ _ _ Hrun) as (-> & Ht & Hr).
        split; [reflexivity|]. split; [exact Ht|]. rewrite Hr. split.
        -- intros Hall. split; [exists raw, dgfile, wcsd; auto|]. intros x Hx.
           apply list_elem_of_lookup_1 in Hx. destruct Hx as [p Hp].
           apply (Hall p x); [lia|exact Hp].
        -- intros [_ Hall] p x _ Hp. apply Hall. eapply list_elem_of_lookup_2; eauto.
      * inversion Hrun; subst fin r. split; [reflexivity|]. split; [reflexivity|].
        split; [discriminate|]. intros [(raw' & dgfile' & wcsd' & _ & _ & H) _]. discriminate.
    + inversion Hrun; subst fin r. split; [reflexivity|]. split; [reflexivity|].
      split; [discriminate|]. intros [(raw' & dgfile' & wcsd' & H1 & H2 & _) _]. congruence.
  - inversion Hrun; subst fin r. split; [reflexivity|]. split; [reflexivity|].
    split; [discriminate|]. intros [(raw' & dgfile' & wcsd' & H1 & _) _]. discriminate.
Qed.

(** A run when the instrument has no defaults: an exception when there is
    a science extension, and in the file object nothing but the header of
    the first science extension written. *)
Lemma unknown_instrument_run (fobj fin : HDUList) (r : res unit) (instr : pyval) :
  primary_kw fobj "INSTRUME" = Ok instr ->
  dgeo_vals_item dgeo_vals instr = Raise KeyError ->
  run fobj = Some (fin, r) ->
  ((0 < nsci fobj)%nat -> exists e, r = Raise e) /\
  (nsci fobj = 0%nat -> fin = fobj) /\
  List.length fin = List.length fobj /\
  forall p h,
    fobj !! p = Some h ->
    (is_sci h = false \/ (0 < nsci (take p fobj))%nat -> fin !! p = Some h) /\
    exists h', fin !! p = Some h' /\ data h' = data h /\
               (header h' = header h \/
                exists raw, primary_kw fobj "DGEOFILE" = Ok raw /\
                            header h' = apply_cards (kw_cards raw "DX" 1) (header h)).
Proof.
  intros Hi Hd Hrun.
  assert (Same : fin = fobj -> (r = Ok tt -> nsci fobj = 0%nat) ->
          ((0 < nsci fobj)%nat -> exists e, r = Raise e) /\
          (nsci fobj = 0%nat -> fin = fobj) /\
          List.length fin = List.length fobj /\
          forall p h,
            fobj !! p = Some h ->
            (is_sci h = false \/ (0 < nsci (take p fobj))%nat -> fin !! p = Some h) /\
            exists h', fin !! p = Some h' /\ data h' = data h /\
                       (header h' = header h \/
                        exists raw, primary_kw fobj "DGEOFILE" = Ok raw /\
                          header h' = apply_cards (kw_cards raw "DX" 1) (header h))).
  { intros -> Hr. split; [|split; [|split]]; try reflexivity.
    - intros Hn. destruct r as [[]|e]; [specialize (Hr eq_refl); lia|eauto].
    - intros p h Hp. split; [auto|]. exists h. auto. }
  apply applyDgeoCorr_fuel_inv in Hrun.
  destruct Hrun as [(-> & e & -> & _)|(raw & dgfile & wcsd & Hraw & _ & _ & Hloop)].
  { apply Same; [reflexivity|discriminate]. }
  apply (ext_loop_unknown dgfile wcsd fobj instr raw _ Hi Hd Hraw) in Hloop; [|intros; lia].
  destruct Hloop as [[-> Hr]|(p0 & h0 & e & Hp0 & Hs0 & Hn0 & -> & [->| ->])].
  - apply Same; [reflexivity|]. intros Hok.
    rewrite <- (take_ge fobj (List.length fobj)) by lia.
    apply nsci_take_none. intros p' x _ Hx. now apply (Hr Hok p' x).
  - apply Same; [reflexivity|discriminate].
  - assert (Hpos : (0 < nsci fobj)%nat).
    { rewrite <- (take_drop p0 fobj), nsci_app, (nsci_drop_S _ _ _ Hp0), Hs0. lia. }
    split; [eauto|]. split; [lia|]. split; [apply length_alter|].
    intros p h Hp. destruct (decide (p = p0)) as [->|Hne].
    + assert (h = h0) by congruence. subst h0. split.
      * intros [H|H]; [congruence|lia].
      * rewrite list_lookup_alter_eq, Hp. simpl. eexists. split; [reflexivity|].
        split; [reflexivity|]. right. exists raw. auto.
    + rewrite list_lookup_alter_ne by congruence. split; [auto|]. exists h. auto.
Qed.

(** C7, amended.  When the instrument named by the primary header has no
    defaults, a run on a file object with a science extension ends with an
    exception.  A file object without one is left as it is and the table
    of defaults is never looked at: the run ends as it does with any other
    table, and raises nothing exactly when [DGEOFILE] is there and
    resolves, the scan raises nothing and every [EXTNAME] is a string.  In
    both cases nothing has been appended and no slot has been overwritten:
    the file object has the length it had, every extension other than the
    first science extension is as it was, and the first science extension
    has its data and either its header or its header with the keywords of
    the [DX] axis and [DGEOFILE] written to it. *)
Theorem unknown_instrument_fails (fobj fin : HDUList) (r : res unit) (instr : pyval) :
  primary_kw fobj "INSTRUME" = Ok instr ->
  dgeo_vals_item dgeo_vals instr = Raise KeyError ->
  run fobj = Some (fin, r) ->
  ((0 < nsci fobj)%nat -> exists e, r = Raise e) /\
  (nsci fobj = 0%nat ->
   fin = fobj /\
   (forall table, applyDgeoCorr osfn getdata table fobj = Some (fobj, r)) /\
   (r = Ok tt <->
    (exists raw dgfile wcsd,
       primary_kw fobj "DGEOFILE" = Ok raw /\ osfn raw = Ok dgfile /\
       getwcsindex fobj = Ok wcsd) /\
    forall x, x ∈ fobj -> name_ok x = true)) /\
  List.length fin = List.length fobj /\
  forall p h,
    fobj !! p = Some h ->
    (is_sci h = false \/ (0 < nsci (take p fobj))%nat -> fin !! p = Some h) /\
    exists h', fin !! p = Some h' /\ data h' = data h /\
               (header h' = header h \/
                exists raw, primary_kw fobj "DGEOFILE" = Ok raw /\
                            header h' = apply_cards (kw_cards raw "DX" 1) (header h)).
Proof.
  intros Hi Hd Hrun.
  destruct (unknown_instrument_run fobj fin r instr Hi Hd Hrun) as (H1 & _ & H3 & H4).
  split; [exact H1|]. split; [|split; [exact H3|exact H4]].
  intros Hn. now apply run_no_sci.
Qed.

End Unknown.

(** ** A second run *)

Lemma nsci_take_mono (l : HDUList) (a b : nat) :
  (a <= b)%nat -> (nsci (take a l) <= nsci (take b l))%nat.
Proof.
  intros Hab. rewrite <- (take_drop a (take b l)), nsci_app, take_take.
  replace (a `min` b)%nat with a by lia. lia.
Qed.

Lemma nsci_take_inj (l : HDUList) (q q' : nat) (h h' : HDU) :
  l !! q = Some h -> is_sci h = true ->
  l !! q' = Some h' -> is_sci h' = true ->
  nsci (take q l) = nsci (take q' l) -> q = q'.
Proof.
  intros Hq Hs Hq' Hs' Hn.
  pose proof (nsci_take_S _ _ _ Hq) as H1. rewrite Hs in H1.
  pose proof (nsci_take_S _ _ _ Hq') as H2. rewrite Hs' in H2.
  destruct (Nat.lt_trichotomy q q') as [Hlt|[Heq|Hgt]]; [|exact Heq|].
  - pose proof (nsci_take_mono l (S q) q'). lia.
  - pose proof (nsci_take_mono l (S q') q). lia.
Qed.

(** There is one lookup HDU of each version. *)
Lemma built_unique getdata dgeo_vals (orig : HDUList) (dgfile : string) (j : Z)
    (hdu hdu' : HDU) :
  built getdata dgeo_vals orig dgfile j hdu ->
  built getdata dgeo_vals orig dgfile j hdu' -> hdu = hdu'.
Proof.
  intros (q & hq & v & Hq & Hs & Hv & H) (q' & hq' & v' & Hq' & Hs' & Hv' & H').
  assert (q = q').
  { apply (nsci_take_inj orig q q' hq hq'); try assumption.
    destruct H as [[-> _]|[-> _]], H' as [[E _]|[E _]]; lia. }
  subst q'. assert (hq' = hq) by congruence. subst hq'.
  assert (v' = v) by congruence. subst v'.
  destruct H as [[Ej H]|[Ej H]], H' as [[Ej' H']|[Ej' H']]; try lia; congruence.
Qed.

Lemma alter_id_at {A} (f : A -> A) (l : list A) (i : nat) (x : A) :
  l !! i = Some x -> f x = x -> alter f i l = l.
Proof.
  intros Hl Hf. apply list_eq. intros p. destruct (decide (p = i)) as [->|Hne].
  - rewrite list_lookup_alter_eq, Hl. simpl. now rewrite Hf.
  - now rewrite list_lookup_alter_ne.
Qed.

Lemma matches_int (x : HDU) (j : Z) :
  is_wcsdvarr x = true -> header_get (header x) "EXTVER" = Some (PInt j) ->
  forall j', matches x (PInt j') = (j =? j').
Proof.
  intros Hw He j'. unfold matches. rewrite Hw, He. simpl. apply py_eq_int.
Qed.

Lemma ext_body_skip getdata dgeo_vals (dgfile : string) (wcsd : dict) (i : nat) (ext : HDU)
    (dg : Z) (s : HDUList) :
  is_sci ext = false -> name_ok ext = true ->
  ext_body getdata dgeo_vals dgfile wcsd i ext dg s = (s, Ok dg).
Proof.
  unfold is_sci, name_ok, ext_body.
  destruct (header_get (header ext) "EXTNAME") as [[| | | |nm]|]; try discriminate;
    try reflexivity.
  now intros ->.
Qed.

(** A turn of the loop over the axes that finds everything in place. *)
Lemma axis_step_noop getdata dgeo_vals (dgfile : string) (wcsd : dict) (v : pyval)
    (ename : string) (i : nat) (dg : Z) (s : HDUList) (raw : pyval) (hdu x : HDU)
    (e : nat) :
  primary_kw s "DGEOFILE" = Ok raw ->
  s !! i = Some x ->
  apply_cards (kw_cards raw ename (dg + 1)) (header x) = header x ->
  (createDgeoHDU getdata dgeo_vals dgfile (dg + 1) ename v s).2 = Ok hdu ->
  dict_get wcsd (PInt (dg + 1)) = Some e ->
  s !! e = Some hdu ->
  e ≠ i ->
  axis_step getdata dgeo_vals dgfile wcsd v ename (Some i, dg) s = (s, Ok (Some i, dg + 1)).
Proof.
  intros Hraw Hx Hfix Hh He Hl Hne.
  rewrite axis_step_eq, addSciExtKw_eq. cbn [fst snd]. cbv zeta.
  rewrite primary_kw_upd_notin by apply sci_cards_no_DGEOFILE. rewrite Hraw.
  assert (Hs : upd_slot (Some i) (apply_cards (kw_cards raw ename (dg + 1))) s = s).
  { unfold upd_slot. apply (alter_id_at _ _ _ x Hx). destruct x as [hdr dat].
    unfold set_header. simpl in *. now rewrite Hfix. }
  rewrite Hs, Hh, (dict_get_nonempty _ _ _ He), He.
  pose proof (lookup_lt_Some _ _ _ Hl) as Hlt. apply Nat.ltb_lt in Hlt. rewrite Hlt.
  rewrite (list_insert_id _ _ _ Hl). destruct (decide (Some i = Some e)); [congruence|].
  reflexivity.
Qed.

Lemma kw_cards_fixed_DX (raw : pyval) (v : Z) (hdr : Header) :
  apply_cards (kw_cards raw "DX" v) (apply_cards (annot_cards raw v) hdr) =
  apply_cards (annot_cards raw v) hdr.
Proof.
  apply apply_cards_id. intros c Hin. rewrite card_get_apply_cards.
  unfold kw_cards, sci_cards in Hin. simpl in Hin.
  repeat (apply elem_of_cons in Hin; destruct Hin as [->|Hin]; [reflexivity|]).
  inversion Hin.
Qed.

Lemma kw_cards_fixed_DY (raw : pyval) (v : Z) (hdr : Header) :
  apply_cards (kw_cards raw "DY" (v + 1)) (apply_cards (annot_cards raw v) hdr) =
  apply_cards (annot_cards raw v) hdr.
Proof.
  apply apply_cards_id. intros c Hin. rewrite card_get_apply_cards.
  unfold kw_cards, sci_cards in Hin. simpl in Hin.
  repeat (apply elem_of_cons in Hin; destruct Hin as [->|Hin]; [reflexivity|]).
  inversion Hin.
Qed.

Lemma dgeofile_card_fixed (raw : pyval) (v : Z) (hdr : Header) :
  apply_cards [mkCard "DGEOFILE" raw dgeofile_comment] (apply_cards (annot_cards raw v) hdr) =
  apply_cards (annot_cards raw v) hdr.
Proof.
  apply apply_cards_id. intros c Hin. rewrite card_get_apply_cards.
  apply list_elem_of_singleton in Hin. subst c. reflexivity.
Qed.

Section Rerun.

Variable osfn : pyval -> res string.
Variable getdata : string -> string -> pyval -> res ndarray.
Variable dgeo_vals : string -> option sdict.
Variable orig : HDUList.
Variable wcsd : dict.
Variable raw : pyval.
Variable dgfile : string.
Variable fin : HDUList.
Variable i_f : nat.

Hypothesis Hw : getwcsindex orig = Ok wcsd.
Hypothesis I : loop_inv getdata dgeo_vals orig wcsd raw dgfile i_f
                 (2 * Z.of_nat (nsci orig)) fin.
Hypothesis Hi1 : (List.length orig <= i_f)%nat.
Hypothesis Hi2 : (List.length fin <= i_f)%nat.

Local Abbreviation Built := (built getdata dgeo_vals orig dgfile).

(** What each slot of the file object holds after the run. *)
Lemma fin_slots (p : nat) (x : HDU) :
  fin !! p = Some x ->
  (exists h, orig !! p = Some h /\ is_sci h = true /\
             x = annotate raw (2 * Z.of_nat (nsci (take p orig)) + 1) h) \/
  (exists h, orig !! p = Some h /\ is_sci h = false /\ x = h) \/
  (exists j, 1 <= j <= 2 * Z.of_nat (nsci orig) /\ Built j x /\
             (forall h, orig !! p = Some h -> is_sci h = false) /\
             if dict_nonempty wcsd then dict_get wcsd (PInt j) = Some p
             else p = (List.length orig + Z.to_nat (j - 1))%nat).
Proof.
  intros Hx. destruct (orig !! p) as [h|] eqn:Eo.
  - pose proof (lookup_lt_Some _ _ _ Eo) as Hp. destruct (is_sci h) eqn:Es.
    + left. exists h. split; [reflexivity|]. split; [exact Es|].
      rewrite (inv_sci _ _ _ _ _ _ _ _ _ I p h Eo Es) in Hx.
      rewrite decide_True in Hx by lia. congruence.
    + destruct (inv_other _ _ _ _ _ _ _ _ _ I p h Eo Es) as [H|(j & hdu & Hj & Hd & H & Hb)].
      * right. left. exists h. split; [reflexivity|]. split; [exact Es|congruence].
      * right. right. exists j. assert (x = hdu) by congruence. subst hdu.
        split; [exact Hj|]. split; [exact Hb|]. split; [intros h' Hh'; congruence|].
        now rewrite (dict_get_nonempty _ _ _ Hd).
  - right. right. apply lookup_ge_None in Eo. pose proof (lookup_lt_Some _ _ _ Hx) as Hlt.
    pose proof (inv_length _ _ _ _ _ _ _ _ _ I) as Hl.
    destruct (dict_nonempty wcsd) eqn:En; [lia|].
    destruct (inv_new _ _ _ _ _ _ _ _ _ I En (Z.of_nat (p - List.length orig) + 1))
      as (hdu & Hh & Hb); [lia|].
    replace (List.length orig + Z.to_nat (Z.of_nat (p - List.length orig) + 1 - 1))%nat
      with p in Hh by lia.
    assert (x = hdu) by congruence. subst hdu.
    exists (Z.of_nat (p - List.length orig) + 1).
    split; [lia|]. split; [exact Hb|]. split; [discriminate|lia].
Qed.

Lemma fin_is_sci (p : nat) (x : HDU) :
  fin !! p = Some x ->
  is_sci x = match orig !! p with Some h => is_sci h | None => false end.
Proof.
  intros Hx. destruct (fin_slots p x Hx)
    as [(h & -> & Hs & ->)|[(h & -> & Hs & ->)|(j & _ & Hb & Hns & _)]].
  - apply annotate_is_sci.
  - reflexivity.
  - apply built_kind in Hb. destruct Hb as [-> _].
    destruct (orig !! p) as [h|]; [|reflexivity]. symmetry. now apply Hns.
Qed.

Lemma fin_length : (List.length orig <= List.length fin)%nat.
Proof.
  rewrite (inv_length _ _ _ _ _ _ _ _ _ I). destruct (dict_nonempty wcsd); lia.
Qed.

Lemma fin_nsci_take (p : nat) : nsci (take p fin) = nsci (take p orig).
Proof.
  induction p as [|p IH]; [now rewrite !take_0|].
  destruct (fin !! p) as [x|] eqn:Ex.
  - rewrite (nsci_take_S _ _ _ Ex), (fin_is_sci p x Ex), IH.
    destruct (orig !! p) as [h|] eqn:Eo.
    + now rewrite (nsci_take_S _ _ _ Eo).
    + apply lookup_ge_None in Eo. rewrite !(take_ge orig) by lia. lia.
  - apply lookup_ge_None in Ex. pose proof fin_length.
    rewrite !(take_ge fin), !(take_ge orig) in * by lia. exact IH.
Qed.

(** Every WCSDVARR extension of the result has a version, so that the
    scan of a second run succeeds. *)
Lemma fin_scan_ok : exists wcsd2, getwcsindex fin = Ok wcsd2.
Proof.
  apply getwcsindex_from_ok. intros x Hin Hwx.
  apply list_elem_of_lookup_1 in Hin. destruct Hin as [p Hp].
  destruct (fin_slots p x Hp)
    as [(h & Ho & Hs & ->)|[(h & Ho & Hs & ->)|(j & Hj & Hb & _)]].
  - rewrite annotate_is_wcsdvarr in Hwx. apply is_wcsdvarr_not_sci in Hwx. congruence.
  - apply (getwcsindex_from_ok_inv _ _ _ _ Hw h); [|exact Hwx].
    now apply list_elem_of_lookup_2 with p.
  - apply built_kind in Hb. destruct Hb as (_ & _ & He). rewrite He by lia. eauto.
Qed.

(** The lookup HDU of version [j] is in the result, and no later slot
    holds a WCSDVARR extension of that version. *)
Lemma fin_last_match (j : Z) :
  1 <= j <= 2 * Z.of_nat (nsci orig) ->
  exists e hdu,
    fin !! e = Some hdu /\ Built j hdu /\
    forall p' x', (e < p')%nat -> fin !! p' = Some x' -> matches x' (PInt j) = false.
Proof.
  intros Hj. destruct (dict_nonempty wcsd) eqn:En.
  - destruct (inv_slots _ _ _ _ _ _ _ _ _ I En j Hj) as (e & hdu & He & Hl & Hb).
    exists e, hdu. split; [exact Hl|]. split; [exact Hb|].
    intros p' x' Hp' Hx'.
    destruct (fin_slots p' x' Hx')
      as [(h & Ho & Hs & ->)|[(h & Ho & Hs & ->)|(j' & Hj' & Hb' & _ & Hd')]].
    + unfold matches. rewrite annotate_is_wcsdvarr.
      destruct (is_wcsdvarr h) eqn:Ew; [|reflexivity].
      apply is_wcsdvarr_not_sci in Ew. congruence.
    + unfold getwcsindex in Hw. rewrite (getwcsindex_from_get _ _ _ _ (PInt j) Hw) in He.
      simpl in He. apply scan_from_Some in He.
      destruct He as [[He _]|(_ & _ & Hlast)]; [discriminate|].
      apply (Hlast p' h); [lia|exact Ho].
    + rewrite En in Hd'. apply built_kind in Hb'. destruct Hb' as (_ & Hwx & Hex).
      rewrite (matches_int x' j' Hwx (Hex ltac:(lia))).
      apply Z.eqb_neq. intros ->.
      assert (p' = e) by congruence. lia.
  - destruct (inv_new _ _ _ _ _ _ _ _ _ I En j Hj) as (hdu & Hl & Hb).
    exists (List.length orig + Z.to_nat (j - 1))%nat, hdu.
    split; [exact Hl|]. split; [exact Hb|].
    intros p' x' Hp' Hx'.
    destruct (fin_slots p' x' Hx')
      as [(h & Ho & _)|[(h & Ho & _)|(j' & Hj' & Hb' & _ & Hd')]].
    + apply lookup_lt_Some in Ho. lia.
    + apply lookup_lt_Some in Ho. lia.
    + rewrite En in Hd'. apply built_kind in Hb'. destruct Hb' as (_ & Hwx & Hex).
      rewrite (matches_int x' j' Hwx (Hex ltac:(lia))).
      apply Z.eqb_neq. lia.
Qed.

(** The dictionary of the second scan sends each version to the slot of
    its lookup HDU. *)
Lemma fin_dict (wcsd2 : dict) (j : Z) :
  getwcsindex fin = Ok wcsd2 ->
  1 <= j <= 2 * Z.of_nat (nsci orig) ->
  exists e hdu, dict_get wcsd2 (PInt j) = Some e /\ fin !! e = Some hdu /\ Built j hdu.
Proof.
  intros Hw2 Hj. destruct (fin_last_match j Hj) as (e & hdu & Hl & Hb & Hlast).
  exists e, hdu. split; [|split; assumption].
  unfold getwcsindex in Hw2. rewrite (getwcsindex_from_get _ _ _ _ (PInt j) Hw2).
  pose proof (built_kind _ _ _ _ _ _ Hb) as (_ & Hwx & Hex).
  rewrite (scan_from_last fin 0 _ (PInt j) e hdu Hl); [reflexivity| |exact Hlast].
  rewrite (matches_int hdu j Hwx (Hex ltac:(lia))). apply Z.eqb_refl.
Qed.

(** The lookup HDUs of the science extension in slot [p]. *)
Lemma fin_built_of (p : nat) (h : HDU) (wcsd2 : dict) :
  getwcsindex fin = Ok wcsd2 ->
  orig !! p = Some h -> is_sci h = true ->
  exists v eX eY hduX hduY,
    header_get (header h) "EXTVER" = Some v /\
    dict_get wcsd2 (PInt (2 * Z.of_nat (nsci (take p orig)) + 1)) = Some eX /\
    dict_get wcsd2 (PInt (2 * Z.of_nat (nsci (take p orig)) + 2)) = Some eY /\
    fin !! eX = Some hduX /\ fin !! eY = Some hduY /\
    is_sci hduX = false /\ is_sci hduY = false /\
    (createDgeoHDU getdata dgeo_vals dgfile (2 * Z.of_nat (nsci (take p orig)) + 1)
       "DX" v fin).2 = Ok hduX /\
    (createDgeoHDU getdata dgeo_vals dgfile (2 * Z.of_nat (nsci (take p orig)) + 2)
       "DY" v fin).2 = Ok hduY.
Proof.
  intros Hw2 Hp Hs.
  set (r := Z.of_nat (nsci (take p orig))).
  assert (Hr : 2 * r + 2 <= 2 * Z.of_nat (nsci orig)).
  { pose proof (nsci_take_S _ _ _ Hp) as H. rewrite Hs in H.
    pose proof (nsci_take_mono orig (S p) (List.length orig)) as H'.
    rewrite (take_ge orig (List.length orig)) in H' by lia.
    pose proof (lookup_lt_Some _ _ _ Hp). unfold r. lia. }
  destruct (fin_dict wcsd2 (2 * r + 1) Hw2) as (eX & hduX & HeX & HlX & HbX); [lia|].
  destruct (fin_dict wcsd2 (2 * r + 2) Hw2) as (eY & hduY & HeY & HlY & HbY); [lia|].
  pose proof (built_kind _ _ _ _ _ _ HbX) as (HsX & _).
  pose proof (built_kind _ _ _ _ _ _ HbY) as (HsY & _).
  destruct HbX as (q & hq & v & Hq & Hsq & Hv & HX).
  destruct HbY as (q' & hq' & v' & Hq' & Hsq' & Hv' & HY).
  assert (q = p).
  { apply (nsci_take_inj orig q p hq h); try assumption.
    destruct HX as [[E _]|[E _]]; unfold r in E; lia. }
  assert (q' = p).
  { apply (nsci_take_inj orig q' p hq' h); try assumption.
    destruct HY as [[E _]|[E _]]; unfold r in E; lia. }
  subst q q'. assert (hq = h) by congruence. assert (hq' = h) by congruence. subst hq hq'.
  assert (v' = v) by congruence. subst v'.
  exists v, eX, eY, hduX, hduY.
  pose proof (inv_instrume _ _ _ _ _ _ _ _ _ I) as Hinstr.
  repeat split; try assumption.
  - destruct HX as [[_ HX]|[E _]]; [|unfold r in E; lia].
    rewrite <- HX. now apply createDgeoHDU_instr.
  - destruct HY as [[E _]|[_ HY]]; [unfold r in E; lia|].
    rewrite <- HY. now apply createDgeoHDU_instr.
Qed.

(** On the result of a run, the pass over a science extension writes what
    is there already. *)
Lemma fin_sci_body (p : nat) (x : HDU) (wcsd2 : dict) :
  getwcsindex fin = Ok wcsd2 ->
  fin !! p = Some x -> is_sci x = true ->
  sci_body getdata dgeo_vals dgfile wcsd2 p (2 * Z.of_nat (nsci (take p fin))) fin =
  (fin, Ok (2 * Z.of_nat (nsci (take p fin)) + 2)).
Proof.
  intros Hw2 Hx Hsx. rewrite fin_nsci_take.
  destruct (fin_slots p x Hx)
    as [(h & Ho & Hs & ->)|[(h & Ho & Hs & ->)|(j & _ & Hb & _)]].
  2: congruence.
  2: { apply built_kind in Hb. destruct Hb as [Hb _]. congruence. }
  set (dg := 2 * Z.of_nat (nsci (take p orig))) in *.
  destruct (fin_built_of p h wcsd2 Hw2 Ho Hs)
    as (v & eX & eY & hduX & hduY & Hv & HeX & HeY & HlX & HlY & HsX & HsY & HX & HY).
  fold dg in HeX, HeY, HX, HY.
  pose proof (inv_dgeofile _ _ _ _ _ _ _ _ _ I) as Hraw.
  assert (HneX : eX ≠ p) by (intros ->; rewrite Hx in HlX; inversion HlX; congruence).
  assert (HneY : eY ≠ p) by (intros ->; rewrite Hx in HlY; inversion HlY; congruence).
  unfold sci_body.
  rewrite (bind_ok _ _ fin fin v).
  2: { rewrite getkw_eq, Hx. now rewrite annotate_EXTVER, Hv. }
  cbn [axis_loop].
  assert (H1 : axis_step getdata dgeo_vals dgfile wcsd2 v "DX" (Some p, dg) fin =
               (fin, Ok (Some p, dg + 1))).
  { apply axis_step_noop with (raw := raw) (hdu := hduX) (e := eX)
                              (x := annotate raw (dg + 1) h); try assumption.
    apply kw_cards_fixed_DX. }
  assert (H2 : axis_step getdata dgeo_vals dgfile wcsd2 v "DY" (Some p, dg + 1) fin =
               (fin, Ok (Some p, dg + 1 + 1))).
  { apply axis_step_noop with (raw := raw) (hdu := hduY) (e := eY)
                              (x := annotate raw (dg + 1) h); try assumption;
      try (replace (dg + 1 + 1) with (dg + 2) by lia; assumption).
    apply kw_cards_fixed_DY. }
  rewrite (bind_ok _ _ fin fin (Some p, dg + 1 + 1)).
  2: { rewrite (bind_ok _ _ fin fin (Some p, dg + 1) H1).
       now rewrite (bind_ok _ _ fin fin (Some p, dg + 1 + 1) H2). }
  cbn [fst snd].
  rewrite (bind_ok _ _ fin fin tt).
  2: { rewrite updateDGEOkw_eq, Hraw. f_equal. unfold upd_slot.
       apply (alter_id_at _ _ _ _ Hx). unfold annotate, set_header. cbn [header data].
       f_equal. apply dgeofile_card_fixed. }
  unfold ret. do 2 f_equal. lia.
Qed.

(** The loop of a second run goes through the file object without
    changing it. *)
Lemma fin_loop (wcsd2 : dict) (fuel : nat) :
  getwcsindex fin = Ok wcsd2 ->
  forall i x r,
    ext_loop getdata dgeo_vals fuel dgfile wcsd2 i (2 * Z.of_nat (nsci (take i fin))) fin =
      Some (x, r) ->
    x = fin /\ r = Ok tt.
Proof.
  intros Hw2. induction fuel as [|fuel IH]; intros i x r H; [discriminate|].
  simpl in H. destruct (fin !! i) as [ext|] eqn:Ei.
  - assert (Hn : 2 * Z.of_nat (nsci (take (S i) fin)) =
                 2 * Z.of_nat (nsci (take i fin)) + (if is_sci ext then 2 else 0)).
    { rewrite (nsci_take_S _ _ _ Ei). destruct (is_sci ext); lia. }
    destruct (is_sci ext) eqn:Es.
    + rewrite ext_body_sci, (fin_sci_body i ext wcsd2 Hw2 Ei Es) in H by exact Es.
      rewrite <- Hn in H. now apply (IH (S i)).
    + rewrite ext_body_skip in H; [| exact Es |].
      * rewrite Z.add_0_r in Hn. rewrite <- Hn in H. now apply (IH (S i)).
      * apply (inv_names _ _ _ _ _ _ _ _ _ I i ext); [|exact Ei].
        apply lookup_lt_Some in Ei. lia.
  - inversion H. auto.
Qed.

End Rerun.

Section Idempotence.

Variable osfn : pyval -> res string.
Variable getdata : string -> string -> pyval -> res ndarray.
Variable dgeo_vals : string -> option sdict.

Local Abbreviation run := (applyDgeoCorr osfn getdata dgeo_vals).

(** C4.  A second run on the file object that a run has annotated without
    exception, with the same reference file, ends without exception and
    leaves the file object as the first run left it: the same extensions
    in the same slots, with the same headers and data. *)
Theorem annotation_idempotent (fobj fin : HDUList) :
  run fobj = Some (fin, Ok tt) ->
  run fin = Some (fin, Ok tt).
Proof.
  intros Hrun. apply run_ok_inv in Hrun.
  destruct Hrun as (raw & dgfile & wcsd & i & Hraw & Hos & Hw & I & Hi1 & Hi2).
  destruct (applyDgeoCorr_total osfn getdata dgeo_vals fin) as [[x r] Hrun2].
  rewrite Hrun2. f_equal.
  pose proof (inv_dgeofile _ _ _ _ _ _ _ _ _ I) as Hraw2.
  destruct (fin_scan_ok getdata dgeo_vals fobj wcsd raw dgfile fin i Hw I Hi1 Hi2)
    as [wcsd2 Hw2].
  apply applyDgeoCorr_fuel_inv in Hrun2.
  destruct Hrun2 as [(_ & e & _ & [H|[(raw' & H1 & H2)|H]])|
                     (raw' & dgfile' & wcsd' & H1 & H2 & H3 & Hloop)]; try congruence.
  assert (raw' = raw) by congruence. subst raw'.
  assert (dgfile' = dgfile) by congruence. subst dgfile'.
  assert (wcsd' = wcsd2) by congruence. subst wcsd'.
  destruct (fin_loop getdata dgeo_vals fobj wcsd raw dgfile fin i Hw I Hi1 Hi2 wcsd2 _ Hw2
              0%nat x r Hloop) as [-> ->].
  reflexivity.
Qed.

End Idempotence.

(** ** When a first run raises nothing *)

Lemma built_name_ok getdata dgeo_vals (orig : HDUList) (dgfile : string) (j : Z) (hdu : HDU) :
  built getdata dgeo_vals orig dgfile j hdu -> name_ok hdu = true.
Proof.
  intros Hb. apply built_kind in Hb. destruct Hb as (_ & Hb & _).
  unfold is_wcsdvarr in Hb. unfold name_ok.
  destruct (header_get (header hdu) "EXTNAME") as [nm|]; [|reflexivity].
  apply py_eq_str_inv in Hb. now subst nm.
Qed.

Section Success.

Variable osfn : pyval -> res string.
Variable getdata : string -> string -> pyval -> res ndarray.
Variable dgeo_vals : string -> option sdict.

Local Abbreviation run := (applyDgeoCorr osfn getdata dgeo_vals).
Local Abbreviation loop := (ext_loop getdata dgeo_vals).
Local Abbreviation mkhdu := (createDgeoHDU getdata dgeo_vals).

(** The lookup HDU is built when the instrument has all its defaults and
    the reference file has the array. *)
Lemma createDgeoHDU_run (dgfile : string) (dg : Z) (ename : string) (v : pyval)
    (s : HDUList) (instr : pyval) (vals : sdict) (dat : ndarray) :
  primary_kw s "INSTRUME" = Ok instr ->
  dgeo_vals_item dgeo_vals instr = Ok vals ->
  complete vals = true ->
  dg ≠ 0 ->
  getdata dgfile ename v = Ok dat ->
  exists hdu, (mkhdu dgfile dg ename v s).2 = Ok hdu.
Proof.
  intros Hi Hv Hc Hdg Hd. unfold complete in Hc. simpl in Hc.
  repeat match type of Hc with
         | context [sdict_get vals ?k] =>
             let E := fresh "E" in
             destruct (sdict_get vals k) eqn:E; simpl in Hc; [|discriminate]
         end.
  unfold createDgeoHDU, createDgeoHdr, getDgeoData, bind, lift.
  rewrite getkw_primary, Hi, Hv, !kw_or_eq. unfold kw_or_res, sdict_item. simpl.
  rewrite E, E0, E1, E2, E3, E4, E5, E6.
  destruct (Z.eqb_spec dg 0); [contradiction|]. simpl. rewrite Hd. simpl. eauto.
Qed.

(** One axis, when the dictionary of the scan is empty. *)
Lemma axis_step_append (dgfile : string) (wcsd : dict) (v : pyval) (ename : string)
    (i : nat) (dg : Z) (s : HDUList) (raw : pyval) (hdu : HDU) :
  dict_nonempty wcsd = false ->
  primary_kw s "DGEOFILE" = Ok raw ->
  (mkhdu dgfile (dg + 1) ename v s).2 = Ok hdu ->
  axis_step getdata dgeo_vals dgfile wcsd v ename (Some i, dg) s =
  (upd_slot (Some i) (apply_cards (kw_cards raw ename (dg + 1))) s ++ [hdu],
   Ok (Some i, dg + 1)).
Proof.
  intros En Hraw Hh. rewrite axis_step_eq, addSciExtKw_eq. cbn [fst snd]. cbv zeta.
  rewrite primary_kw_upd_notin by apply sci_cards_no_DGEOFILE. rewrite Hraw.
  assert (Hh' : (mkhdu dgfile (dg + 1) ename v
                   (upd_slot (Some i) (apply_cards (kw_cards raw ename (dg + 1))) s)).2 =
                Ok hdu).
  { rewrite <- Hh. apply createDgeoHDU_instr.
    apply primary_kw_upd_notin, kw_cards_no_INSTRUME. }
  rewrite Hh', En. reflexivity.
Qed.

Lemma sci_body_append (dgfile : string) (wcsd : dict) (i : nat) (dg : Z) (s : HDUList)
    (x : HDU) (v raw instr : pyval) (hduX hduY : HDU) :
  dict_nonempty wcsd = false ->
  s !! i = Some x -> header_get (header x) "EXTVER" = Some v ->
  primary_kw s "DGEOFILE" = Ok raw ->
  primary_kw s "INSTRUME" = Ok instr ->
  (forall s', primary_kw s' "INSTRUME" = Ok instr ->
              (mkhdu dgfile (dg + 1) "DX" v s').2 = Ok hduX /\
              (mkhdu dgfile (dg + 2) "DY" v s').2 = Ok hduY) ->
  exists s', sci_body getdata dgeo_vals dgfile wcsd i dg s = (s', Ok (dg + 2)).
Proof.
  intros En Hx Hv Hraw Hi Hh. unfold sci_body.
  rewrite (bind_ok _ _ s s v) by (rewrite getkw_eq, Hx, Hv; reflexivity).
  cbn [axis_loop].
  set (sX := upd_slot (Some i) (apply_cards (kw_cards raw "DX" (dg + 1))) s).
  assert (PXd : primary_kw sX "DGEOFILE" = Ok raw).
  { apply primary_kw_upd_cards; [exact Hraw|apply kw_cards_DGEOFILE]. }
  assert (PXi : primary_kw sX "INSTRUME" = Ok instr).
  { unfold sX. now rewrite primary_kw_upd_notin by apply kw_cards_no_INSTRUME. }
  set (s1 := sX ++ [hduX]).
  assert (H1 : axis_step getdata dgeo_vals dgfile wcsd v "DX" (Some i, dg) s =
               (s1, Ok (Some i, dg + 1))).
  { apply axis_step_append; try assumption. now apply Hh. }
  set (sY := upd_slot (Some i) (apply_cards (kw_cards raw "DY" (dg + 1 + 1))) s1).
  assert (H2 : axis_step getdata dgeo_vals dgfile wcsd v "DY" (Some i, dg + 1) s1 =
               (sY ++ [hduY], Ok (Some i, dg + 1 + 1))).
  { apply axis_step_append; try assumption.
    - now apply primary_kw_app.
    - replace (dg + 1 + 1) with (dg + 2) by lia. apply Hh. now apply primary_kw_app. }
  rewrite (bind_ok _ _ s (sY ++ [hduY]) (Some i, dg + 1 + 1)).
  2: { rewrite (bind_ok _ _ s s1 (Some i, dg + 1) H1).
       now rewrite (bind_ok _ _ s1 (sY ++ [hduY]) (Some i, dg + 1 + 1) H2). }
  cbn [fst snd]. unfold bind. rewrite updateDGEOkw_eq.
  assert (PYd : primary_kw (sY ++ [hduY]) "DGEOFILE" = Ok raw).
  { apply primary_kw_app. apply primary_kw_upd_cards; [|apply kw_cards_DGEOFILE].
    now apply primary_kw_app. }
  rewrite PYd. unfold ret. eexists. do 2 f_equal. lia.
Qed.

(** A file object without WCSDVARR extensions is annotated without
    exception when the primary header names the reference file and an
    instrument with all its defaults, the extension names are strings, and
    every science extension has a version for which the reference file has
    the [DX] and [DY] arrays. *)
Lemma annotation_succeeds (fobj : HDUList) (raw instr : pyval) (dgfile : string)
    (vals : sdict) :
  primary_kw fobj "DGEOFILE" = Ok raw ->
  osfn raw = Ok dgfile ->
  primary_kw fobj "INSTRUME" = Ok instr ->
  dgeo_vals_item dgeo_vals instr = Ok vals ->
  complete vals = true ->
  existsb is_wcsdvarr fobj = false ->
  (forall x, x ∈ fobj -> name_ok x = true) ->
  (forall x, x ∈ fobj -> is_sci x = true ->
             exists v dx dy, header_get (header x) "EXTVER" = Some v /\
                             getdata dgfile "DX" v = Ok dx /\
                             getdata dgfile "DY" v = Ok dy) ->
  exists fin, run fobj = Some (fin, Ok tt).
Proof.
  intros Hraw Hos Hi Hv Hc Hno Hnm Hsci.
  destruct (getwcsindex_from_ok fobj 0 []) as [wcsd Hw].
  { intros h Hin Hh. exfalso.
    assert (existsb is_wcsdvarr fobj = true); [|congruence].
    apply existsb_exists. exists h. split; [now apply list_elem_of_In|exact Hh]. }
  fold (getwcsindex fobj) in Hw.
  assert (En : dict_nonempty wcsd = false).
  { now rewrite (getwcsindex_nonempty _ _ Hw). }
  destruct (applyDgeoCorr_total osfn getdata dgeo_vals fobj) as [[fin r] Hrun].
  exists fin. rewrite Hrun. do 2 f_equal.
  apply applyDgeoCorr_fuel_inv in Hrun.
  destruct Hrun as [(_ & e & _ & [H|[(raw' & H1 & H2)|H]])|
                    (raw' & dgfile' & wcsd' & H1 & H2 & H3 & Hloop)]; try congruence.
  assert (raw' = raw) by congruence. subst raw'.
  assert (dgfile' = dgfile) by congruence. subst dgfile'.
  assert (wcsd' = wcsd) by congruence. subst wcsd'.
  clear H1 H2 H3.
  assert (Hgen : forall fuel i dg cur,
             loop_inv getdata dgeo_vals fobj wcsd raw dgfile i dg cur ->
             loop fuel dgfile wcsd i dg cur = Some (fin, r) -> r = Ok tt).
  { clear Hloop. induction fuel as [|fuel IH]; intros i dg cur I H; [discriminate|].
    simpl in H. destruct (cur !! i) as [ext|] eqn:Ei; [|congruence].
    assert (Hbody : exists cur' dg',
               ext_body getdata dgeo_vals dgfile wcsd i ext dg cur = (cur', Ok dg')).
    { destruct (fobj !! i) as [h|] eqn:Eo.
      - destruct (is_sci h) eqn:Es.
        + pose proof (inv_sci _ _ _ _ _ _ _ _ _ I i h Eo Es) as Hc'.
          rewrite decide_False in Hc' by lia.
          assert (ext = h) by congruence. subst ext.
          rewrite ext_body_sci by exact Es.
          destruct (Hsci h (list_elem_of_lookup_2 _ _ _ Eo) Es)
            as (v & dx & dy & Hev & Hdx & Hdy).
          pose proof (inv_count _ _ _ _ _ _ _ _ _ I) as Hcnt.
          pose proof (inv_instrume _ _ _ _ _ _ _ _ _ I) as Hinstr. rewrite Hi in Hinstr.
          destruct (createDgeoHDU_run dgfile (dg + 1) "DX" v cur instr vals dx)
            as [hduX HX]; try assumption; [lia|].
          destruct (createDgeoHDU_run dgfile (dg + 2) "DY" v cur instr vals dy)
            as [hduY HY]; try assumption; [lia|].
          destruct (sci_body_append dgfile wcsd i dg cur h v raw instr hduX hduY)
            as [s' Hs']; try assumption.
          * exact (inv_dgeofile _ _ _ _ _ _ _ _ _ I).
          * intros s' Hs'. split.
            -- rewrite <- HX. apply createDgeoHDU_instr. congruence.
            -- rewrite <- HY. apply createDgeoHDU_instr. congruence.
          * eauto.
        + exists cur, dg. apply ext_body_skip.
          * destruct (inv_other _ _ _ _ _ _ _ _ _ I i h Eo Es)
              as [H'|(j & hdu & _ & _ & H' & Hb)].
            -- congruence.
            -- apply built_kind in Hb. destruct Hb as [Hb _]. congruence.
          * destruct (inv_other _ _ _ _ _ _ _ _ _ I i h Eo Es)
              as [H'|(j & hdu & _ & _ & H' & Hb)].
            -- assert (ext = h) by congruence. subst ext.
               apply Hnm. now apply list_elem_of_lookup_2 with i.
            -- apply built_name_ok in Hb. congruence.
      - apply lookup_ge_None in Eo. pose proof (lookup_lt_Some _ _ _ Ei) as Hlt.
        pose proof (inv_length _ _ _ _ _ _ _ _ _ I) as Hl. rewrite En in Hl.
        pose proof (inv_count _ _ _ _ _ _ _ _ _ I) as Hcnt.
        destruct (inv_new _ _ _ _ _ _ _ _ _ I En (Z.of_nat (i - List.length fobj) + 1))
          as (hdu & Hh & Hb); [lia|].
        replace (List.length fobj + Z.to_nat (Z.of_nat (i - List.length fobj) + 1 - 1))%nat
          with i in Hh by lia.
        assert (ext = hdu) by congruence. subst hdu.
        exists cur, dg. apply ext_body_skip.
        + apply built_kind in Hb. now destruct Hb.
        + now apply built_name_ok in Hb. }
    destruct Hbody as (cur' & dg' & Hbody). rewrite Hbody in H.
    apply (IH (S i) dg' cur'); [|exact H].
    eapply loop_inv_step; eassumption. }
  apply (Hgen (turns fobj) 0%nat 0 fobj); [|exact Hloop].
  now apply loop_inv_init.
Qed.

End Success.

(** * Further properties of the methods

    Properties of [getwcsindex], [createDgeoHdr], [createDgeoHDU] and of
    the whole run that hold whatever its outcome, or that tell a run that
    raises from one that does not. *)

(** ** The scan for lookup extensions *)

Lemma getwcsindex_from_app (l1 l2 : HDUList) :
  forall e d,
    getwcsindex_from e (l1 ++ l2) d =
    match getwcsindex_from e l1 d with
    | Ok d1 => getwcsindex_from (e + List.length l1) l2 d1
    | Raise x => Raise x
    end.
Proof.
  induction l1 as [|h r IH]; intros e d; simpl.
  - now rewrite Nat.add_0_r.
  - replace (e + S (List.length r))%nat with (S e + List.length r)%nat by lia.
    destruct (header_get (header h) "EXTNAME") as [ename|]; [|apply IH].
    destruct (py_eq ename (PStr "WCSDVARR")); [|apply IH].
    destruct (header_get (header h) "EXTVER") as [v|]; [apply IH|reflexivity].
Qed.

Lemma getwcsindex_from_raise (l : HDUList) :
  forall e d x,
    getwcsindex_from e l d = Raise x ->
    x = KeyError /\
    exists h, h ∈ l /\ is_wcsdvarr h = true /\ header_get (header h) "EXTVER" = None.
Proof.
  induction l as [|h r IH]; intros e d x H; simpl in H; [discriminate|].
  assert (Rest : forall d', getwcsindex_from (S e) r d' = Raise x ->
            x = KeyError /\
            exists h', h' ∈ h :: r /\ is_wcsdvarr h' = true /\
                       header_get (header h') "EXTVER" = None).
  { intros d' H'. destruct (IH _ _ _ H') as (-> & h' & Hin & Hh).
    split; [reflexivity|]. exists h'. split; [now right|exact Hh]. }
  destruct (header_get (header h) "EXTNAME") as [ename|] eqn:En; [|now apply Rest with d].
  destruct (py_eq ename (PStr "WCSDVARR")) eqn:Ew; [|now apply Rest with d].
  destruct (header_get (header h) "EXTVER") as [v|] eqn:Ev; [now apply Rest with (dict_set d v e)|].
  inversion H; subst x. split; [reflexivity|]. exists h. split; [now left|].
  unfold is_wcsdvarr. rewrite En. auto.
Qed.

(** X1.  The dictionary of [getwcsindex] sends a key [q] to position [p]
    exactly when the HDU at [p] is named [WCSDVARR], has an [EXTVER] equal
    to [q], and no later HDU is so named and numbered: of several
    WCSDVARR extensions with one version, the last is the one recorded. *)
Theorem getwcsindex_last_position (fobj : HDUList) (wcsd : dict) (q : pyval) (p : nat) :
  getwcsindex fobj = Ok wcsd ->
  (dict_get wcsd q = Some p <->
   exists h, fobj !! p = Some h /\ matches h q = true /\
             forall p' h', (p < p')%nat -> fobj !! p' = Some h' -> matches h' q = false).
Proof.
  intros Hw. unfold getwcsindex in Hw.
  rewrite (getwcsindex_from_get _ _ _ _ q Hw). simpl. split.
  - intros H. apply scan_from_Some in H.
    destruct H as [[H _]|(_ & (h & Hh & Hm) & Hlast)]; [discriminate|].
    rewrite Nat.sub_0_r in Hh, Hlast. exists h. auto.
  - intros (h & Hh & Hm & Hlast).
    apply (scan_from_last fobj 0 None q p h Hh Hm Hlast).
Qed.

(** X2.  [getwcsindex] raises nothing but [KeyError], and raises it
    exactly when some extension named [WCSDVARR] has no [EXTVER]. *)
Theorem getwcsindex_raises_iff (fobj : HDUList) :
  (forall e, getwcsindex fobj = Raise e -> e = KeyError) /\
  (getwcsindex fobj = Raise KeyError <->
   exists h, h ∈ fobj /\ is_wcsdvarr h = true /\ header_get (header h) "EXTVER" = None).
Proof.
  split; [|split].
  - intros e H. now apply getwcsindex_from_raise in H.
  - intros H. now apply getwcsindex_from_raise in H.
  - intros (h & Hin & Hw & Hv).
    destruct (getwcsindex fobj) as [wcsd|e] eqn:E.
    + destruct (getwcsindex_from_ok_inv _ _ _ _ E h Hin Hw) as [v Hv']. congruence.
    + apply getwcsindex_from_raise in E. destruct E as [-> _]. reflexivity.
Qed.

(** X3.  What [createDgeoHDU] builds for a version other than 0 is found
    by the scan: appended to a file object that scans to [wcsd0], it is
    recorded under its version at the position it was appended to, and
    the other keys keep their positions. *)
Theorem created_lookup_found_by_scan
    (getdata : string -> string -> pyval -> res ndarray) (dgeo_vals : string -> option sdict)
    (dgfile : string) (dgeover : Z) (ename : string) (v : pyval) (s fobj : HDUList)
    (hdu : HDU) (wcsd0 : dict) :
  (createDgeoHDU getdata dgeo_vals dgfile dgeover ename v s).2 = Ok hdu ->
  dgeover ≠ 0 ->
  getwcsindex fobj = Ok wcsd0 ->
  getwcsindex (fobj ++ [hdu]) = Ok (dict_set wcsd0 (PInt dgeover) (List.length fobj)) /\
  forall q, dict_get (dict_set wcsd0 (PInt dgeover) (List.length fobj)) q =
            if py_eq (PInt dgeover) q then Some (List.length fobj) else dict_get wcsd0 q.
Proof.
  intros Hc Hne Hw. apply createDgeoHDU_kind in Hc. destruct Hc as (_ & Hk & _ & Hv).
  specialize (Hv Hne). split; [|intros q; apply dict_get_set].
  unfold getwcsindex in *. rewrite getwcsindex_from_app, Hw. simpl.
  unfold is_wcsdvarr in Hk.
  destruct (header_get (header hdu) "EXTNAME") as [nm|]; [|discriminate].
  now rewrite Hk, Hv.
Qed.

(** ** What a pass over a science extension may change *)

Lemma rewritten_refl (x : HDU) : rewritten x x.
Proof. exists []. split; [intros c Hc; inversion Hc|]. now destruct x. Qed.

Lemma rewritten_trans (x y z : HDU) : rewritten x y -> rewritten y z -> rewritten x z.
Proof.
  intros (cs1 & H1 & ->) (cs2 & H2 & ->). exists (cs1 ++ cs2). split.
  - intros c Hc. apply elem_of_app in Hc. destruct Hc; auto.
  - unfold set_header. cbn [header data]. now rewrite apply_cards_app.
Qed.

Lemma rewritten_card (x x' : HDU) (k : string) :
  rewritten x x' -> k ∉ annot_keys -> card_get (header x') k = card_get (header x) k.
Proof.
  intros (cs & Hcs & ->) Hk. unfold set_header. cbn [header].
  apply card_get_apply_cards_notin. unfold keys_of. intros Hin.
  apply list_elem_of_fmap in Hin. destruct Hin as (c & -> & Hin). now apply Hk, Hcs.
Qed.

Lemma rewritten_data (x x' : HDU) : rewritten x x' -> data x' = data x.
Proof. now intros (cs & _ & ->). Qed.

Lemma rewritten_is_sci (x x' : HDU) : rewritten x x' -> is_sci x' = is_sci x.
Proof.
  intros H. unfold is_sci. rewrite !header_get_card.
  rewrite (rewritten_card x x' "EXTNAME" H); [reflexivity|].
  unfold annot_keys. intros Hin.
  repeat (apply elem_of_cons in Hin; destruct Hin as [Hin|Hin]; [discriminate|]).
  inversion Hin.
Qed.

Lemma sci_cards_annot_keys (ename : string) (extver : Z) (c : Card) :
  c ∈ sci_cards (axis_of ename) extver -> key c ∈ annot_keys.
Proof.
  unfold axis_of, annot_keys. destruct (String.eqb ename "DX"); intros Hin;
    repeat (apply elem_of_cons in Hin; destruct Hin as [->|Hin];
            [cbn; rewrite !elem_of_cons; tauto|]);
    inversion Hin.
Qed.

Lemma kw_cards_annot_keys (raw : pyval) (ename : string) (extver : Z) (c : Card) :
  c ∈ kw_cards raw ename extver -> key c ∈ annot_keys.
Proof.
  unfold kw_cards. intros Hin. apply elem_of_app in Hin. destruct Hin as [Hin|Hin].
  - now apply sci_cards_annot_keys in Hin.
  - apply list_elem_of_singleton in Hin. subst c. unfold annot_keys. cbn.
    rewrite !elem_of_cons. tauto.
Qed.

Lemma pass_refl (wcsd : dict) (i : nat) (dg : Z) (s : HDUList) : pass wcsd i dg s s.
Proof.
  split; [lia|]. split; [reflexivity|]. split; [now left|]. split.
  - intros _ p x Hp Hx. apply lookup_lt_Some in Hx. lia.
  - intros _ x Hx. exists x. split; [exact Hx|apply rewritten_refl].
Qed.

Lemma pass_trans (wcsd : dict) (i : nat) (dg : Z) (s1 s2 s3 : HDUList) :
  pass wcsd i dg s1 s2 -> pass wcsd i dg s2 s3 -> pass wcsd i dg s1 s3.
Proof.
  intros (L1 & N1 & F1 & T1 & W1) (L2 & N2 & F2 & T2 & W2).
  split; [lia|]. split; [intros Hn; rewrite N2, N1; auto|]. split; [|split].
  - intros p Hp Hlt.
    destruct (F2 p Hp ltac:(lia)) as [E2|H2]; [|now right].
    destruct (F1 p Hp Hlt) as [E1|(j & hdu & Hj & Hd & E1 & Hl)].
    + left. congruence.
    + right. exists j, hdu. split; [exact Hj|]. split; [exact Hd|].
      split; [congruence|exact Hl].
  - intros Hi p x Hp Hx.
    destruct (decide (p < List.length s2)%nat) as [Hlt|Hge].
    + destruct (F2 p ltac:(lia) Hlt) as [E2|(j & hdu & _ & _ & E2 & Hl & _)].
      * apply (T1 Hi p x Hp). congruence.
      * congruence.
    + apply (T2 ltac:(lia) p x ltac:(lia) Hx).
  - intros Hr x Hx. destruct (W1 Hr x Hx) as (y & Hy & Hxy).
    destruct (W2 Hr y Hy) as (z & Hz & Hyz). exists z. split; [exact Hz|].
    now apply rewritten_trans with y.
Qed.

Lemma pass_upd_slot (wcsd : dict) (i : nat) (dg : Z) (slot : option nat) (cs : list Card)
    (s : HDUList) :
  slot = Some i \/ slot = None ->
  (forall c, c ∈ cs -> key c ∈ annot_keys) ->
  pass wcsd i dg s (upd_slot slot (apply_cards cs) s).
Proof.
  intros [->| ->] Hcs; unfold upd_slot; [|apply pass_refl].
  split; [rewrite length_alter; lia|]. split; [intros _; apply length_alter|].
  split; [|split].
  - intros p Hp _. left. now apply list_lookup_alter_ne.
  - intros _ p x Hp Hx. apply lookup_lt_Some in Hx. rewrite length_alter in Hx. lia.
  - intros _ x Hx. rewrite list_lookup_alter_eq, Hx. simpl. eexists. split; [reflexivity|].
    exists cs. auto.
Qed.

Lemma pass_insert (wcsd : dict) (i idx : nat) (dg j : Z) (h : HDU) (s : HDUList) :
  dg < j <= dg + 2 -> dict_get wcsd (PInt j) = Some idx -> is_lookup h ->
  header_get (header h) "EXTVER" = Some (PInt j) ->
  pass wcsd i dg s (<[idx:=h]> s).
Proof.
  intros Hj Hd Hl Hv. split; [rewrite length_insert; lia|].
  split; [intros _; apply length_insert|]. split; [|split].
  - intros p _ Hp. destruct (decide (p = idx)) as [->|Hne].
    + right. exists j, h. rewrite list_lookup_insert_eq by exact Hp. auto.
    + left. apply list_lookup_insert_ne. congruence.
  - intros _ p x Hp Hx. apply lookup_lt_Some in Hx. rewrite length_insert in Hx. lia.
  - intros Hr x Hx. exists x. split; [|apply rewritten_refl].
    rewrite list_lookup_insert_ne; [exact Hx|].
    intros ->. apply Hr. now exists (PInt j).
Qed.

Lemma pass_app (wcsd : dict) (i : nat) (dg : Z) (h : HDU) (s : HDUList) :
  dict_nonempty wcsd = false -> is_lookup h -> pass wcsd i dg s (s ++ [h]).
Proof.
  intros Hn Hl. split; [rewrite length_app; lia|]. split; [congruence|]. split; [|split].
  - intros p _ Hlt. left. now apply lookup_app_l.
  - intros _ p x Hp Hx. rewrite lookup_app_r in Hx by exact Hp.
    destruct (p - List.length s)%nat; simpl in Hx; [congruence|discriminate].
  - intros _ x Hx. exists x. split; [|apply rewritten_refl].
    rewrite lookup_app_l; [exact Hx|]. now apply lookup_lt_Some in Hx.
Qed.

Section PassSteps.

Variable getdata : string -> string -> pyval -> res ndarray.
Variable dgeo_vals : string -> option sdict.

Lemma addSciExtKw_pass (wcsd : dict) (i : nat) (dg : Z) (slot : option nat) (extver : Z)
    (ename : string) (s : HDUList) :
  slot = Some i \/ slot = None -> pass wcsd i dg s (addSciExtKw slot extver ename s).1.
Proof.
  intros Hs. rewrite addSciExtKw_eq. simpl.
  destruct (primary_kw _ "DGEOFILE"); simpl; apply pass_upd_slot; try exact Hs.
  - apply kw_cards_annot_keys.
  - apply sci_cards_annot_keys.
Qed.

Lemma axis_step_pass (dgfile : string) (wcsd : dict) (v : pyval) (ename : string)
    (i : nat) (dg : Z) (st : option nat * Z) :
  st.1 = Some i \/ st.1 = None ->
  0 <= dg -> dg <= st.2 < dg + 2 ->
  hoare (pass wcsd i dg) (axis_step getdata dgeo_vals dgfile wcsd v ename st)
        (fun st' => (st'.1 = Some i \/ st'.1 = None) /\ st'.2 = st.2 + 1).
Proof.
  intros Hst H0 Hdg s. rewrite axis_step_eq.
  pose proof (addSciExtKw_pass wcsd i dg st.1 (st.2 + 1) ename s Hst) as Hf.
  destruct (addSciExtKw st.1 (st.2 + 1) ename s) as [s1 [[]|e]]; simpl in Hf;
    [|split; [exact Hf|discriminate]].
  destruct (createDgeoHDU getdata dgeo_vals dgfile (st.2 + 1) ename v s1).2 as [hdu|e] eqn:Eh;
    [|split; [exact Hf|discriminate]].
  pose proof (createDgeoHDU_is_lookup _ _ _ _ _ _ _ _ Eh) as Hl.
  apply createDgeoHDU_kind in Eh. destruct Eh as (_ & _ & _ & Hv).
  specialize (Hv ltac:(lia)).
  destruct (dict_nonempty wcsd) eqn:En.
  - destruct (dict_get wcsd (PInt (st.2 + 1))) as [idx|] eqn:E;
      [|split; [exact Hf|discriminate]].
    destruct (idx <? List.length s1)%nat; [|split; [exact Hf|discriminate]].
    split; simpl.
    + eapply pass_trans; [exact Hf|].
      apply pass_insert with (j := st.2 + 1); auto. lia.
    + intros a Ha. inversion Ha; subst; simpl. split; [|reflexivity].
      destruct (decide _); tauto.
  - split; simpl.
    + eapply pass_trans; [exact Hf|]. now apply pass_app.
    + intros a Ha. inversion Ha; subst; simpl. auto.
Qed.

Lemma sci_body_pass (dgfile : string) (wcsd : dict) (i : nat) (dg : Z) :
  0 <= dg ->
  hoare (pass wcsd i dg) (sci_body getdata dgeo_vals dgfile wcsd i dg) (fun d => d = dg + 2).
Proof.
  intros H0. unfold sci_body.
  eapply hoare_bind_pre; [apply pass_trans| |intros v _].
  { apply hoare_pure with (V := fun _ => True);
      [apply pass_refl|intros s; apply getkw_state|trivial]. }
  eapply hoare_bind_pre with (V := fun st' => (st'.1 = Some i \/ st'.1 = None) /\ st'.2 = dg + 2);
    [apply pass_trans| |intros st [Hst Hd]].
  { simpl.
    eapply hoare_bind_pre
      with (V := fun st' => (st'.1 = Some i \/ st'.1 = None) /\ st'.2 = dg + 1);
      [apply pass_trans| |intros st1 [Hst1 Hd1]].
    { apply axis_step_pass; simpl; [now left|exact H0|lia]. }
    eapply hoare_bind_pre
      with (V := fun st' => (st'.1 = Some i \/ st'.1 = None) /\ st'.2 = dg + 2);
      [apply pass_trans| |intros st2 [Hst2 Hd2]].
    { intros s. destruct (axis_step_pass dgfile wcsd v "DY" i dg st1 Hst1 H0 ltac:(lia) s)
        as [Hp Hv].
      split; [exact Hp|]. intros a Ha. destruct (Hv a Ha) as [Ha1 Ha2].
      split; [exact Ha1|lia]. }
    apply hoare_pure; [apply pass_refl|reflexivity|].
    intros s a Ha. unfold ret in Ha. simpl in Ha. inversion Ha; subst a.
    split; [exact Hst2|]. simpl in *. lia. }
  apply hoare_bind_pre with (V := fun _ => True); [apply pass_trans| |intros [] _].
  { intros s. rewrite updateDGEOkw_eq. split; [|auto].
    destruct (primary_kw s "DGEOFILE"); simpl; [|apply pass_refl].
    apply pass_upd_slot; [exact Hst|].
    intros c Hc. apply list_elem_of_singleton in Hc. subst c. unfold annot_keys. cbn.
    rewrite !elem_of_cons. tauto. }
  apply hoare_pure; [apply pass_refl|reflexivity|].
  intros s a Ha. unfold ret in Ha. simpl in Ha. congruence.
Qed.

End PassSteps.

Section PassLoop.

Variable getdata : string -> string -> pyval -> res ndarray.
Variable dgeo_vals : string -> option sdict.

Local Abbreviation loop := (ext_loop getdata dgeo_vals).

(** The loop over the extensions, whatever its outcome. *)
Lemma ext_loop_pass (dgfile : string) (wcsd : dict) (fuel : nat) :
  forall i dg s fin r,
    0 <= dg ->
    loop fuel dgfile wcsd i dg s = Some (fin, r) ->
    (List.length s <= List.length fin <= List.length s + 2 * nsci (drop i s))%nat /\
    (dict_nonempty wcsd = true -> List.length fin = List.length s) /\
    (forall p h, s !! p = Some h -> is_sci h = false ->
       fin !! p = Some h \/
       exists j hdu, dg < j <= dg + 2 * Z.of_nat (nsci (drop i s)) /\
                     dict_get wcsd (PInt j) = Some p /\
                     fin !! p = Some hdu /\ is_lookup hdu /\
                     header_get (header hdu) "EXTVER" = Some (PInt j)) /\
    (forall p x, (List.length s <= p)%nat -> fin !! p = Some x -> is_lookup x) /\
    (forall p h, s !! p = Some h -> is_sci h = true -> ~ in_range wcsd p ->
       exists h', fin !! p = Some h' /\ rewritten h h').
Proof.
  induction fuel as [|fuel IH]; intros i dg s fin r H0 H; [discriminate|].
  assert (Same : fin = s ->
    (List.length s <= List.length fin <= List.length s + 2 * nsci (drop i s))%nat /\
    (dict_nonempty wcsd = true -> List.length fin = List.length s) /\
    (forall p h, s !! p = Some h -> is_sci h = false ->
       fin !! p = Some h \/
       exists j hdu, dg < j <= dg + 2 * Z.of_nat (nsci (drop i s)) /\
                     dict_get wcsd (PInt j) = Some p /\
                     fin !! p = Some hdu /\ is_lookup hdu /\
                     header_get (header hdu) "EXTVER" = Some (PInt j)) /\
    (forall p x, (List.length s <= p)%nat -> fin !! p = Some x -> is_lookup x) /\
    (forall p h, s !! p = Some h -> is_sci h = true -> ~ in_range wcsd p ->
       exists h', fin !! p = Some h' /\ rewritten h h')).
  { intros ->. split; [lia|]. split; [reflexivity|]. split; [now left|]. split.
    - intros p x Hp Hx. apply lookup_lt_Some in Hx. lia.
    - intros p h Hp _ _. exists h. split; [exact Hp|apply rewritten_refl]. }
  simpl in H. destruct (s !! i) as [ext|] eqn:Ei; [|apply Same; congruence].
  pose proof (lookup_lt_Some _ _ _ Ei) as Hi.
  pose proof (nsci_drop_S s i ext Ei) as Hn.
  destruct (is_sci ext) eqn:Esci.
  - rewrite ext_body_sci in H by exact Esci.
    destruct (sci_body_pass getdata dgeo_vals dgfile wcsd i dg H0 s) as [Hp Hv].
    pose proof (sci_body_grows getdata dgeo_vals dgfile wcsd i dg s) as [L N].
    destruct (sci_body getdata dgeo_vals dgfile wcsd i dg s) as [s' [d|e]];
      simpl in Hp, Hv, L, N; destruct Hp as (PL & PN & PF & PT & PW).
    + specialize (Hv d eq_refl). subst d.
      destruct (IH (S i) (dg + 2) s' fin r ltac:(lia) H) as (IL & IN & IF & IT & IW).
      split; [lia|]. split; [intros Hne; rewrite IN, PN; auto|]. split; [|split].
      * intros p h Hph Hh.
        assert (Hpi : p ≠ i) by (intros ->; congruence).
        destruct (PF p Hpi (lookup_lt_Some _ _ _ Hph))
          as [E|(j & hdu & Hj & Hd & E & Hl & Hev)].
        -- rewrite Hph in E.
           destruct (IF p h E Hh) as [F|(j & hdu & Hj & Hd & F & Hl & Hev)]; [now left|].
           right. exists j, hdu. split; [lia|auto].
        -- destruct (IF p hdu E (is_lookup_not_sci _ Hl))
             as [F|(j' & hdu' & Hj' & Hd' & F & Hl' & Hev')].
           ++ right. exists j, hdu. split; [lia|auto].
           ++ right. exists j', hdu'. split; [lia|auto].
      * intros p x Hpl Hx.
        destruct (decide (p < List.length s')%nat) as [Hlt|Hge].
        -- destruct (lookup_lt_is_Some_2 s' p Hlt) as [y Hy].
           pose proof (PT Hi p y Hpl Hy) as Hly.
           destruct (IF p y Hy (is_lookup_not_sci _ Hly))
             as [F|(j' & hdu' & _ & _ & F & Hl' & _)]; congruence.
        -- apply (IT p x); [lia|exact Hx].
      * intros p h Hph Hh Hr. destruct (decide (p = i)) as [->|Hpi].
        -- destruct (PW Hr h Hph) as (x' & Hx' & Hrw).
           destruct (IW i x' Hx') as (h' & Hh' & Hrw'); [|exact Hr|].
           ++ now rewrite (rewritten_is_sci _ _ Hrw).
           ++ exists h'. split; [exact Hh'|]. now apply rewritten_trans with x'.
        -- destruct (PF p Hpi (lookup_lt_Some _ _ _ Hph))
             as [E|(j & hdu & Hj & Hd & _)].
           ++ rewrite Hph in E. now apply IW.
           ++ exfalso. apply Hr. now exists (PInt j).
    + inversion H; subst s' r. clear H.
      split; [lia|]. split; [exact PN|]. split; [|split].
      * intros p h Hph Hh.
        assert (Hpi : p ≠ i) by (intros ->; congruence).
        destruct (PF p Hpi (lookup_lt_Some _ _ _ Hph))
          as [E|(j & hdu & Hj & Hd & E & Hl & Hev)].
        -- left. congruence.
        -- right. exists j, hdu. split; [lia|auto].
      * intros p x Hpl Hx. now apply (PT Hi p x).
      * intros p h Hph Hh Hr. destruct (decide (p = i)) as [->|Hpi].
        -- now apply PW.
        -- destruct (PF p Hpi (lookup_lt_Some _ _ _ Hph))
             as [E|(j & hdu & Hj & Hd & _)].
           ++ exists h. split; [congruence|apply rewritten_refl].
           ++ exfalso. apply Hr. now exists (PInt j).
  - destruct (ext_body_not_sci getdata dgeo_vals dgfile wcsd i ext dg s Esci) as [Hs Hd].
    destruct (ext_body getdata dgeo_vals dgfile wcsd i ext dg s) as [s' [d|e]];
      simpl in Hs; subst s'.
    + rewrite (Hd d eq_refl) in H.
      destruct (IH (S i) dg s fin r H0 H) as (IL & IN & IF & IT & IW).
      split; [lia|]. split; [exact IN|]. split; [|split; [exact IT|exact IW]].
      intros p h Hph Hh.
      destruct (IF p h Hph Hh) as [F|(j & hdu & Hj & Hd' & F)]; [now left|].
      right. exists j, hdu. split; [lia|exact (conj Hd' F)].
    + apply Same. congruence.
Qed.

End PassLoop.

(** ** The file object after any run *)

Lemma rewritten_other_cards (x x' : HDU) :
  rewritten x x' -> other_cards (header x') = other_cards (header x).
Proof. intros (cs & Hcs & ->). now apply other_cards_apply_cards. Qed.

Section AnyOutcome.

Variable osfn : pyval -> res string.
Variable getdata : string -> string -> pyval -> res ndarray.
Variable dgeo_vals : string -> option sdict.

Local Abbreviation run := (applyDgeoCorr osfn getdata dgeo_vals).

(** X4.  Whether the run ends normally or with an exception, a science
    extension is in its slot afterwards with the data it had, is still a
    science extension, and its header differs at most in the cards of the
    thirteen annotation keywords: the other cards are the same, in the
    same order. *)
Theorem science_extension_kept (fobj fin : HDUList) (r : res unit) (p : nat) (h : HDU) :
  run fobj = Some (fin, r) ->
  fobj !! p = Some h ->
  is_sci h = true ->
  exists h',
    fin !! p = Some h' /\ data h' = data h /\ is_sci h' = true /\
    other_cards (header h') = other_cards (header h) /\
    forall k, k ∉ annot_keys -> card_get (header h') k = card_get (header h) k.
Proof.
  intros Hrun Hp Hs.
  assert (H : exists h', fin !! p = Some h' /\ rewritten h h').
  { apply applyDgeoCorr_fuel_inv in Hrun.
    destruct Hrun as [[-> _]|(raw & dgfile & wcsd & _ & _ & Hw & Hloop)].
    - exists h. split; [exact Hp|apply rewritten_refl].
    - apply ext_loop_pass in Hloop; [|lia].
      destruct Hloop as (_ & _ & _ & _ & HW). apply HW; [exact Hp|exact Hs|].
      intros Hr. destruct (in_range_wcsdvarr _ _ _ Hw Hr) as (h0 & Hh0 & Hk).
      apply is_wcsdvarr_not_sci in Hk. congruence. }
  destruct H as (h' & Hh' & Hrw). exists h'. split; [exact Hh'|].
  split; [now apply rewritten_data|]. split; [now rewrite (rewritten_is_sci _ _ Hrw)|].
  split; [now apply rewritten_other_cards|].
  intros k Hk. now apply rewritten_card.
Qed.

(** X5.  Whatever the outcome of the run, an extension that is not a
    science extension is left as it was unless it is the last WCSDVARR
    extension of a version [j] between 1 and 2N, N the number of science
    extensions; its slot then holds a lookup HDU whose [EXTVER] is [j].  A
    WCSDVARR extension of another version, or one followed by another of
    its version, is never overwritten. *)
Theorem overwritten_slot_is_last_of_its_version (fobj fin : HDUList) (r : res unit)
    (p : nat) (h : HDU) :
  run fobj = Some (fin, r) ->
  fobj !! p = Some h ->
  is_sci h = false ->
  fin !! p = Some h \/
  exists j hdu,
    1 <= j <= 2 * Z.of_nat (nsci fobj) /\
    matches h (PInt j) = true /\
    (forall p' h', (p < p')%nat -> fobj !! p' = Some h' -> matches h' (PInt j) = false) /\
    fin !! p = Some hdu /\ is_lookup hdu /\
    header_get (header hdu) "EXTVER" = Some (PInt j).
Proof.
  intros Hrun Hp Hs. apply applyDgeoCorr_fuel_inv in Hrun.
  destruct Hrun as [[-> _]|(raw & dgfile & wcsd & _ & _ & Hw & Hloop)]; [now left|].
  apply ext_loop_pass in Hloop; [|lia].
  destruct Hloop as (_ & _ & HF & _ & _).
  destruct (HF p h Hp Hs) as [H|(j & hdu & Hj & Hd & Hf & Hl & Hv)]; [now left|].
  right. exists j, hdu. rewrite drop_0 in Hj. split; [lia|].
  unfold getwcsindex in Hw. rewrite (getwcsindex_from_get _ _ _ _ (PInt j) Hw) in Hd.
  simpl in Hd. apply scan_from_Some in Hd.
  destruct Hd as [[Hd _]|(_ & (h0 & Hh0 & Hm) & Hlast)]; [discriminate|].
  rewrite Nat.sub_0_r in Hh0, Hlast. assert (h0 = h) by congruence. subst h0.
  auto.
Qed.

(** X6.  Whatever the outcome, the file object does not shrink and grows
    by at most two HDUs per science extension; it keeps its length when it
    had a WCSDVARR extension; it grows by exactly 2N when it had none and
    nothing was raised; and every HDU beyond the old length is a lookup
    HDU. *)
Theorem file_object_growth (fobj fin : HDUList) (r : res unit) :
  run fobj = Some (fin, r) ->
  (List.length fobj <= List.length fin <= List.length fobj + 2 * nsci fobj)%nat /\
  (existsb is_wcsdvarr fobj = true -> List.length fin = List.length fobj) /\
  (r = Ok tt -> existsb is_wcsdvarr fobj = false ->
   List.length fin = (List.length fobj + 2 * nsci fobj)%nat) /\
  (forall p x, (List.length fobj <= p)%nat -> fin !! p = Some x -> is_lookup x).
Proof.
  intros Hrun.
  assert (Hok : r = Ok tt -> existsb is_wcsdvarr fobj = false ->
                List.length fin = (List.length fobj + 2 * nsci fobj)%nat).
  { intros -> Hex. apply run_ok_inv in Hrun.
    destruct Hrun as (raw & dgfile & wcsd & i & _ & _ & Hw & I & _ & _).
    rewrite (inv_length _ _ _ _ _ _ _ _ _ I), (getwcsindex_nonempty _ _ Hw), Hex. lia. }
  apply applyDgeoCorr_fuel_inv in Hrun.
  destruct Hrun as [(-> & e & -> & _)|(raw & dgfile & wcsd & _ & _ & Hw & Hloop)].
  - split; [lia|]. split; [reflexivity|]. split; [discriminate|].
    intros p x Hpl Hx. apply lookup_lt_Some in Hx. lia.
  - apply ext_loop_pass in Hloop; [|lia].
    destruct Hloop as (HL & HN & _ & HT & _). rewrite drop_0 in HL.
    split; [exact HL|]. split; [|split; [exact Hok|exact HT]].
    intros Hex. apply HN. now rewrite (getwcsindex_nonempty _ _ Hw).
Qed.

End AnyOutcome.

(** ** A run that raises *)

Section Failure.

Variable osfn : pyval -> res string.
Variable getdata : string -> string -> pyval -> res ndarray.
Variable dgeo_vals : string -> option sdict.

Local Abbreviation run := (applyDgeoCorr osfn getdata dgeo_vals).
Local Abbreviation loop := (ext_loop getdata dgeo_vals).
Local Abbreviation Inv := (loop_inv getdata dgeo_vals).

(** A loop that raises does so in the turn of some position, which it
    reached with the invariant. *)
Lemma ext_loop_raise_inv (orig : HDUList) (wcsd : dict) (raw : pyval) (dgfile : string)
    (fuel : nat) :
  getwcsindex orig = Ok wcsd ->
  forall i dg cur fin e,
    Inv orig wcsd raw dgfile i dg cur ->
    loop fuel dgfile wcsd i dg cur = Some (fin, Raise e) ->
    exists i' dg' cur' ext,
      Inv orig wcsd raw dgfile i' dg' cur' /\ cur' !! i' = Some ext /\
      ext_body getdata dgeo_vals dgfile wcsd i' ext dg' cur' = (fin, Raise e).
Proof.
  intros Hw. induction fuel as [|fuel IH]; intros i dg cur fin e I H; [discriminate|].
  simpl in H. destruct (cur !! i) as [ext|] eqn:Ei; [|discriminate].
  destruct (ext_body getdata dgeo_vals dgfile wcsd i ext dg cur) as [cur' [dg'|e']] eqn:Eb.
  - apply (IH (S i) dg' cur' fin e); [|exact H]. eapply loop_inv_step; eassumption.
  - inversion H; subst cur' e'. exists i, dg, cur, ext. auto.
Qed.

(** The HDU the loop meets beyond the extensions the file object came
    with is a lookup HDU, and its turn does nothing. *)
Lemma loop_inv_beyond (orig : HDUList) (wcsd : dict) (raw : pyval) (dgfile : string)
    (i : nat) (dg : Z) (cur : HDUList) (ext : HDU) :
  Inv orig wcsd raw dgfile i dg cur -> cur !! i = Some ext -> orig !! i = None ->
  is_sci ext = false /\ name_ok ext = true.
Proof.
  intros I Hext Eo.
  apply lookup_ge_None in Eo. pose proof (lookup_lt_Some _ _ _ Hext) as Hlt.
  pose proof (inv_length _ _ _ _ _ _ _ _ _ I) as Hl.
  pose proof (inv_count _ _ _ _ _ _ _ _ _ I) as Hcnt.
  destruct (dict_nonempty wcsd) eqn:En; [lia|].
  destruct (inv_new _ _ _ _ _ _ _ _ _ I En (Z.of_nat (i - List.length orig) + 1))
    as (hdu & Hh & Hb); [lia|].
  replace (List.length orig + Z.to_nat (Z.of_nat (i - List.length orig) + 1 - 1))%nat
    with i in Hh by lia.
  assert (hdu = ext) by congruence. subst hdu. split.
  - apply built_kind in Hb. now destruct Hb.
  - now apply built_name_ok in Hb.
Qed.

(** X7.  A run that raises either leaves the file object as it was (it
    raised before the loop) or stops at the turn of an extension the file
    object came with: the science extensions before that one have all
    their annotation written, as in a run that completes, and those after
    it are untouched.  Nothing is rolled back. *)
Theorem failure_keeps_earlier_annotations (fobj fin : HDUList) (e : exn) :
  run fobj = Some (fin, Raise e) ->
  fin = fobj \/
  exists i raw,
    (i < List.length fobj)%nat /\
    primary_kw fobj "DGEOFILE" = Ok raw /\
    (forall p h, (p < i)%nat -> fobj !! p = Some h -> is_sci h = true ->
       fin !! p = Some (annotate raw (2 * Z.of_nat (nsci (take (S p) fobj)) - 1) h)) /\
    (forall p h, (i < p)%nat -> fobj !! p = Some h -> is_sci h = true ->
       fin !! p = Some h).
Proof.
  intros Hrun. apply applyDgeoCorr_fuel_inv in Hrun.
  destruct Hrun as [[-> _]|(raw & dgfile & wcsd & Hraw & _ & Hw & Hloop)]; [now left|].
  right.
  destruct (ext_loop_raise_inv fobj wcsd raw dgfile _ Hw 0%nat 0 fobj fin e
              (loop_inv_init _ _ _ _ _ _ Hraw) Hloop) as (i & dg & cur & ext & I & Hext & Hb).
  exists i, raw.
  assert (Hi : (i < List.length fobj)%nat).
  { destruct (fobj !! i) as [h|] eqn:Eo; [now apply lookup_lt_Some in Eo|].
    destruct (loop_inv_beyond _ _ _ _ _ _ _ _ I Hext Eo) as [H1 H2].
    rewrite ext_body_skip in Hb by assumption. discriminate. }
  assert (Hkeep : forall p h, p ≠ i -> fobj !! p = Some h -> is_sci h = true ->
                              fin !! p = cur !! p).
  { intros p h Hpi Hp Hs. destruct (is_sci ext) eqn:Es.
    - rewrite ext_body_sci in Hb by exact Es.
      destruct (sci_body_frame getdata dgeo_vals dgfile wcsd i dg cur) as [[_ Hf] _].
      rewrite Hb in Hf. simpl in Hf.
      assert (Hlt : (p < List.length cur)%nat).
      { pose proof (inv_sci _ _ _ _ _ _ _ _ _ I p h Hp Hs) as Hc.
        now apply lookup_lt_Some in Hc. }
      destruct (Hf p Hpi Hlt) as [E|[Hr _]]; [exact E|].
      destruct (in_range_wcsdvarr _ _ _ Hw Hr) as (h0 & Hh0 & Hk).
      apply is_wcsdvarr_not_sci in Hk. congruence.
    - destruct (ext_body_not_sci getdata dgeo_vals dgfile wcsd i ext dg cur Es) as [E _].
      rewrite Hb in E. simpl in E. now subst fin. }
  split; [exact Hi|]. split; [exact Hraw|]. split.
  - intros p h Hlt Hp Hs. rewrite (Hkeep p h ltac:(lia) Hp Hs).
    rewrite (inv_sci _ _ _ _ _ _ _ _ _ I p h Hp Hs). rewrite decide_True by exact Hlt.
    rewrite (nsci_take_S _ _ _ Hp), Hs. do 2 f_equal. lia.
  - intros p h Hlt Hp Hs. rewrite (Hkeep p h ltac:(lia) Hp Hs).
    rewrite (inv_sci _ _ _ _ _ _ _ _ _ I p h Hp Hs). now rewrite decide_False by lia.
Qed.

End Failure.

(** ** The lookup HDUs of a science extension *)

(** The lookup HDU of an odd version is that of the [DX] axis of the
    science extension of its rank; that of an even version, of the [DY]
    axis. *)
Lemma built_of_rank getdata dgeo_vals (orig : HDUList) (dgfile : string) (j : Z)
    (hdu : HDU) (p : nat) (h : HDU) :
  built getdata dgeo_vals orig dgfile j hdu ->
  orig !! p = Some h -> is_sci h = true ->
  (j = 2 * Z.of_nat (nsci (take p orig)) + 1 ->
   exists v, header_get (header h) "EXTVER" = Some v /\
             (createDgeoHDU getdata dgeo_vals dgfile j "DX" v orig).2 = Ok hdu) /\
  (j = 2 * Z.of_nat (nsci (take p orig)) + 2 ->
   exists v, header_get (header h) "EXTVER" = Some v /\
             (createDgeoHDU getdata dgeo_vals dgfile j "DY" v orig).2 = Ok hdu).
Proof.
  intros (q & hq & v & Hq & Hs & Hv & H) Hp Hsp.
  assert (Hqp : nsci (take q orig) = nsci (take p orig) -> q = p /\ hq = h).
  { intros Hn. assert (q = p) by (eapply nsci_take_inj; eassumption).
    subst q. split; [reflexivity|congruence]. }
  split; intros Hj; destruct H as [[Ej H]|[Ej H]]; try lia;
    (destruct Hqp as [-> ->]; [lia|]; exists v; auto).
Qed.

Lemma createDgeoHDU_data getdata dgeo_vals (dgfile : string) (dgeover : Z)
    (ename : string) (v : pyval) (s : HDUList) (hdu : HDU) :
  (createDgeoHDU getdata dgeo_vals dgfile dgeover ename v s).2 = Ok hdu ->
  exists dat, getdata dgfile ename v = Ok dat /\ data hdu = Some dat.
Proof.
  intros H. apply createDgeoHDU_ok in H.
  destruct H as (instr & vals & n1 & n2 & ev & c1 & c2 & d1 & d2 & v1 & v2 & dat &
                 _ & _ & _ & Hd & ->).
  exists dat. auto.
Qed.

Section Provenance.

Variable osfn : pyval -> res string.
Variable getdata : string -> string -> pyval -> res ndarray.
Variable dgeo_vals : string -> option sdict.

Local Abbreviation run := (applyDgeoCorr osfn getdata dgeo_vals).

(** Where a run that raises nothing leaves the lookup HDU of each
    version. *)
Lemma run_ok_version (fobj fin : HDUList) (j : Z) :
  run fobj = Some (fin, Ok tt) ->
  1 <= j <= 2 * Z.of_nat (nsci fobj) ->
  exists raw dgfile e hdu,
    primary_kw fobj "DGEOFILE" = Ok raw /\ osfn raw = Ok dgfile /\
    fin !! e = Some hdu /\ built getdata dgeo_vals fobj dgfile j hdu /\
    (existsb is_wcsdvarr fobj = false -> e = (List.length fobj + Z.to_nat (j - 1))%nat) /\
    (existsb is_wcsdvarr fobj = true ->
     exists x, fobj !! e = Some x /\ matches x (PInt j) = true).
Proof.
  intros Hrun Hj. apply run_ok_inv in Hrun.
  destruct Hrun as (raw & dgfile & wcsd & i & Hraw & Hos & Hw & I & _ & _).
  exists raw, dgfile.
  destruct (dict_nonempty wcsd) eqn:En.
  - destruct (inv_slots _ _ _ _ _ _ _ _ _ I En j Hj) as (e & hdu & Hd & Hf & Hb).
    exists e, hdu. rewrite <- (getwcsindex_nonempty _ _ Hw), En.
    do 4 (split; [assumption|]). split; [discriminate|]. intros _.
    unfold getwcsindex in Hw. rewrite (getwcsindex_from_get _ _ _ _ (PInt j) Hw) in Hd.
    simpl in Hd. apply scan_from_Some in Hd.
    destruct Hd as [[Hd _]|(_ & (x & Hx & Hm) & _)]; [discriminate|].
    rewrite Nat.sub_0_r in Hx. eauto.
  - destruct (inv_new _ _ _ _ _ _ _ _ _ I En j Hj) as (hdu & Hf & Hb).
    exists (List.length fobj + Z.to_nat (j - 1))%nat, hdu.
    rewrite <- (getwcsindex_nonempty _ _ Hw), En.
    do 4 (split; [assumption|]). split; [reflexivity|discriminate].
Qed.

Lemma rank_bounds (fobj : HDUList) (p : nat) (h : HDU) :
  fobj !! p = Some h -> is_sci h = true ->
  nsci (take (S p) fobj) = S (nsci (take p fobj)) /\
  (nsci (take (S p) fobj) <= nsci fobj)%nat.
Proof.
  intros Hp Hs. rewrite (nsci_take_S _ _ _ Hp), Hs. split; [lia|].
  rewrite <- (take_drop (S p) fobj) at 2. rewrite nsci_app.
  rewrite (nsci_take_S _ _ _ Hp), Hs. lia.
Qed.

(** The two lookup HDUs of a science extension after a run that raises
    nothing: what [createDgeoHDU] builds for its axes, at the versions of
    its rank. *)
Lemma run_ok_pair (fobj fin : HDUList) (p : nat) (h : HDU) :
  run fobj = Some (fin, Ok tt) ->
  fobj !! p = Some h ->
  is_sci h = true ->
  exists raw dgfile v eX eY hduX hduY,
    primary_kw fobj "DGEOFILE" = Ok raw /\ osfn raw = Ok dgfile /\
    header_get (header h) "EXTVER" = Some v /\
    fin !! eX = Some hduX /\ fin !! eY = Some hduY /\
    (createDgeoHDU getdata dgeo_vals dgfile
       (2 * Z.of_nat (nsci (take p fobj)) + 1) "DX" v fobj).2 = Ok hduX /\
    (createDgeoHDU getdata dgeo_vals dgfile
       (2 * Z.of_nat (nsci (take p fobj)) + 2) "DY" v fobj).2 = Ok hduY /\
    (existsb is_wcsdvarr fobj = false ->
     eX = (List.length fobj + 2 * nsci (take p fobj))%nat /\ eY = S eX).
Proof.
  intros Hrun Hp Hs. destruct (rank_bounds fobj p h Hp Hs) as [Hk Hle].
  destruct (run_ok_version fobj fin (2 * Z.of_nat (nsci (take p fobj)) + 1) Hrun)
    as (raw & dgfile & eX & hduX & Hraw & Hos & HfX & HbX & HeX & _); [lia|].
  destruct (run_ok_version fobj fin (2 * Z.of_nat (nsci (take p fobj)) + 2) Hrun)
    as (raw' & dgfile' & eY & hduY & Hraw' & Hos' & HfY & HbY & HeY & _); [lia|].
  assert (raw' = raw) by congruence. subst raw'.
  assert (dgfile' = dgfile) by congruence. subst dgfile'.
  destruct (proj1 (built_of_rank _ _ _ _ _ _ p h HbX Hp Hs) eq_refl) as (v & Hv & HcX).
  destruct (proj2 (built_of_rank _ _ _ _ _ _ p h HbY Hp Hs) eq_refl) as (v' & Hv' & HcY).
  assert (v' = v) by congruence. subst v'.
  exists raw, dgfile, v, eX, eY, hduX, hduY.
  do 7 (split; [assumption|]).
  intros Hex. rewrite (HeX Hex), (HeY Hex). lia.
Qed.

(** X8.  After a run that raises nothing, the science extension of rank
    k with [EXTVER] v has its two lookup HDUs in the file object: named
    [WCSDVARR], with versions 2k - 1 and 2k, and holding the arrays that
    [getdata] returns for [("DX", v)] and [("DY", v)] in the file the
    resolved path names.  On a file object that had no WCSDVARR extension
    they are at positions len + 2(k - 1) and len + 2k - 1. *)
Theorem lookup_data_from_reference (fobj fin : HDUList) (p : nat) (h : HDU) :
  run fobj = Some (fin, Ok tt) ->
  fobj !! p = Some h ->
  is_sci h = true ->
  exists raw dgfile v dx dy eX eY hduX hduY,
    primary_kw fobj "DGEOFILE" = Ok raw /\ osfn raw = Ok dgfile /\
    header_get (header h) "EXTVER" = Some v /\
    getdata dgfile "DX" v = Ok dx /\ getdata dgfile "DY" v = Ok dy /\
    fin !! eX = Some hduX /\ fin !! eY = Some hduY /\
    is_wcsdvarr hduX = true /\ is_wcsdvarr hduY = true /\
    header_get (header hduX) "EXTVER" =
      Some (PInt (2 * Z.of_nat (nsci (take (S p) fobj)) - 1)) /\
    header_get (header hduY) "EXTVER" =
      Some (PInt (2 * Z.of_nat (nsci (take (S p) fobj)))) /\
    data hduX = Some dx /\ data hduY = Some dy /\
    (existsb is_wcsdvarr fobj = false ->
     eX = (List.length fobj + 2 * nsci (take p fobj))%nat /\ eY = S eX).
Proof.
  intros Hrun Hp Hs. destruct (rank_bounds fobj p h Hp Hs) as [Hk _].
  destruct (run_ok_pair fobj fin p h Hrun Hp Hs)
    as (raw & dgfile & v & eX & eY & hduX & hduY &
        Hraw & Hos & Hv & HfX & HfY & HcX & HcY & Hpos).
  destruct (createDgeoHDU_data _ _ _ _ _ _ _ _ HcX) as (dx & Hdx & HdX).
  destruct (createDgeoHDU_data _ _ _ _ _ _ _ _ HcY) as (dy & Hdy & HdY).
  apply createDgeoHDU_kind in HcX, HcY.
  destruct HcX as (_ & HkX & _ & HvX), HcY as (_ & HkY & _ & HvY).
  exists raw, dgfile, v, dx, dy, eX, eY, hduX, hduY. rewrite Hk.
  do 9 (split; [assumption|]).
  split; [rewrite HvX by lia; do 2 f_equal; lia|].
  split; [rewrite HvY by lia; do 2 f_equal; lia|].
  auto.
Qed.

(** X9.  When the file object has a WCSDVARR extension and the run raises
    nothing, every version from 1 to 2N had a WCSDVARR extension before
    the run, and the slot of one of them holds a WCSDVARR HDU of that
    version afterwards. *)
Theorem rerun_needs_and_fills_every_slot (fobj fin : HDUList) (j : Z) :
  run fobj = Some (fin, Ok tt) ->
  existsb is_wcsdvarr fobj = true ->
  1 <= j <= 2 * Z.of_nat (nsci fobj) ->
  exists e x hdu,
    fobj !! e = Some x /\ matches x (PInt j) = true /\
    fin !! e = Some hdu /\ is_wcsdvarr hdu = true /\
    header_get (header hdu) "EXTVER" = Some (PInt j).
Proof.
  intros Hrun Hex Hj.
  destruct (run_ok_version fobj fin j Hrun Hj)
    as (raw & dgfile & e & hdu & _ & _ & Hf & Hb & _ & H).
  destruct (H Hex) as (x & Hx & Hm). exists e, x, hdu.
  apply built_kind in Hb. destruct Hb as (_ & Hk & Hv).
  do 4 (split; [assumption|]). apply Hv. lia.
Qed.

End Provenance.

(** ** The comments of the error keywords *)

Section Comments.

Variable osfn : pyval -> res string.
Variable getdata : string -> string -> pyval -> res ndarray.
Variable dgeo_vals : string -> option sdict.

Local Abbreviation run := (applyDgeoCorr osfn getdata dgeo_vals).

(** X10.  After a run that raises nothing, the comment of [CPERROR1] in
    the science extension of rank k ends with the number k - 1 and that of
    [CPERROR2] with k: the number in the comment is half the version of
    the lookup extension (the integer division of Python 2), not the
    axis. *)
Theorem cperror_comments_name_the_rank (fobj fin : HDUList) (p : nat) (h : HDU) :
  run fobj = Some (fin, Ok tt) ->
  fobj !! p = Some h ->
  is_sci h = true ->
  exists h',
    fin !! p = Some h' /\
    comment <$> card_get (header h') "CPERROR1" =
      Some ("Maximum error of dgeo correction for axis " +:+
            str_of_int (Z.of_nat (nsci (take p fobj)))) /\
    comment <$> card_get (header h') "CPERROR2" =
      Some ("Maximum error of dgeo correction for axis " +:+
            str_of_int (Z.of_nat (nsci (take (S p) fobj)))).
Proof.
  intros Hrun Hp Hs. destruct (rank_bounds fobj p h Hp Hs) as [Hk _].
  destruct (run_ok_sci _ _ _ fobj fin p h Hrun Hp Hs) as (raw & _ & Hf).
  eexists. split; [exact Hf|]. unfold annotate, set_header. cbn [header].
  rewrite !card_get_apply_cards. rewrite Hk.
  set (k := Z.of_nat (nsci (take p fobj))).
  replace (2 * Z.of_nat (S (nsci (take p fobj))) - 1) with (2 * k + 1) by (unfold k; lia).
  assert (E1 : (2 * k + 1) / 2 = k) by (symmetry; apply Z.div_unique with 1; lia).
  assert (E2 : (2 * k + 1 + 1) / 2 = Z.of_nat (S (nsci (take p fobj)))).
  { symmetry. apply Z.div_unique with 0; unfold k; lia. }
  cbn. rewrite E1, E2. split; reflexivity.
Qed.

End Comments.


(** ** What a run that raises nothing has met *)

(** The defaults [createDgeoHDU] needs: all but [extver]. *)
Lemma createDgeoHDU_complete getdata dgeo_vals (dgfile : string) (dgeover : Z)
    (ename : string) (v : pyval) (s : HDUList) (hdu : HDU) :
  (createDgeoHDU getdata dgeo_vals dgfile dgeover ename v s).2 = Ok hdu ->
  exists instr vals,
    primary_kw s "INSTRUME" = Ok instr /\
    dgeo_vals_item dgeo_vals instr = Ok vals /\ complete vals = true.
Proof.
  intros H.
  destruct (createDgeoHDU getdata dgeo_vals dgfile dgeover ename v s) as [s' r] eqn:E.
  simpl in H. subst r. unfold createDgeoHDU in E.
  apply bind_ok_inv in E. destruct E as (s1 & hdr & E1 & _).
  apply createDgeoHdr_ok in E1.
  destruct E1 as (_ & instr & vals & n1 & n2 & ev & c1 & c2 & d1 & d2 & v1 & v2 &
                  Hi & Hv & H1 & H2 & _ & H4 & H5 & H6 & H7 & H8 & H9 & _).
  exists instr, vals. rewrite getkw_primary in Hi.
  split; [congruence|]. split; [exact Hv|].
  unfold kw_or_res, sdict_item in *. simpl in *. unfold complete. simpl.
  repeat match goal with
         | H : match sdict_get vals ?k with _ => _ end = Ok _ |- _ =>
             destruct (sdict_get vals k); [clear H|discriminate]
         end.
  reflexivity.
Qed.

Section Exactly.

Variable osfn : pyval -> res string.
Variable getdata : string -> string -> pyval -> res ndarray.
Variable dgeo_vals : string -> option sdict.

Local Abbreviation run := (applyDgeoCorr osfn getdata dgeo_vals).
Local Abbreviation loop := (ext_loop getdata dgeo_vals).

(** A loop that meets no science extension and no name it cannot put in
    lower case changes nothing and raises nothing. *)
Lemma ext_loop_skip_all (dgfile : string) (wcsd : dict) (s : HDUList) (fuel : nat) :
  (forall x, x ∈ s -> is_sci x = false /\ name_ok x = true) ->
  forall i dg fin r, loop fuel dgfile wcsd i dg s = Some (fin, r) -> fin = s /\ r = Ok tt.
Proof.
  intros Hs. induction fuel as [|fuel IH]; intros i dg fin r H; [discriminate|].
  simpl in H. destruct (s !! i) as [ext|] eqn:Ei.
  - destruct (Hs ext (list_elem_of_lookup_2 _ _ _ Ei)) as [H1 H2].
    rewrite ext_body_skip in H by assumption. now apply IH in H.
  - inversion H. auto.
Qed.

(** The names a run that raises nothing has met. *)
Lemma run_ok_names (fobj fin : HDUList) (x : HDU) :
  run fobj = Some (fin, Ok tt) -> x ∈ fobj -> name_ok x = true.
Proof.
  intros Hrun Hin. apply list_elem_of_lookup_1 in Hin. destruct Hin as [p Hp].
  apply run_ok_inv in Hrun.
  destruct Hrun as (raw & dgfile & wcsd & i & _ & _ & Hw & I & Hi & _).
  pose proof (lookup_lt_Some _ _ _ Hp) as Hlt.
  destruct (is_sci x) eqn:Es.
  - unfold is_sci in Es. unfold name_ok.
    destruct (header_get (header x) "EXTNAME") as [[| | | |nm]|]; try discriminate.
    reflexivity.
  - destruct (inv_other _ _ _ _ _ _ _ _ _ I p x Hp Es) as [H|(j & hdu & _ & Hd & _)].
    + apply (inv_names _ _ _ _ _ _ _ _ _ I p x); [lia|exact H].
    + destruct (in_range_wcsdvarr fobj wcsd p Hw) as (x' & Hx' & Hk);
        [now exists (PInt j)|].
      assert (x' = x) by congruence. subst x'. unfold is_wcsdvarr in Hk. unfold name_ok.
      destruct (header_get (header x) "EXTNAME") as [nm|]; [|reflexivity].
      apply py_eq_str_inv in Hk. now subst nm.
Qed.

End Exactly.

(** ** When a run raises nothing, in general *)

Section Overwrite.

Variable osfn : pyval -> res string.
Variable getdata : string -> string -> pyval -> res ndarray.
Variable dgeo_vals : string -> option sdict.

Local Abbreviation run := (applyDgeoCorr osfn getdata dgeo_vals).
Local Abbreviation loop := (ext_loop getdata dgeo_vals).
Local Abbreviation mkhdu := (createDgeoHDU getdata dgeo_vals).

(** One axis, when the dictionary holds a slot for the version. *)
Lemma axis_step_overwrite (dgfile : string) (wcsd : dict) (v : pyval) (ename : string)
    (i : nat) (dg : Z) (s : HDUList) (raw : pyval) (hdu : HDU) (e : nat) :
  dict_get wcsd (PInt (dg + 1)) = Some e ->
  (e < List.length s)%nat -> e ≠ i ->
  primary_kw s "DGEOFILE" = Ok raw ->
  (mkhdu dgfile (dg + 1) ename v s).2 = Ok hdu ->
  axis_step getdata dgeo_vals dgfile wcsd v ename (Some i, dg) s =
  (<[e:=hdu]> (upd_slot (Some i) (apply_cards (kw_cards raw ename (dg + 1))) s),
   Ok (Some i, dg + 1)).
Proof.
  intros Hd He Hne Hraw Hh. rewrite axis_step_eq, addSciExtKw_eq. cbn [fst snd]. cbv zeta.
  rewrite primary_kw_upd_notin by apply sci_cards_no_DGEOFILE. rewrite Hraw.
  assert (Hh' : (mkhdu dgfile (dg + 1) ename v
                   (upd_slot (Some i) (apply_cards (kw_cards raw ename (dg + 1))) s)).2 =
                Ok hdu).
  { rewrite <- Hh. apply createDgeoHDU_instr.
    apply primary_kw_upd_notin, kw_cards_no_INSTRUME. }
  rewrite Hh', (dict_get_nonempty _ _ _ Hd), Hd, upd_slot_length.
  apply Nat.ltb_lt in He. rewrite He.
  destruct (decide (Some i = Some e)) as [E|_]; [congruence|reflexivity].
Qed.

Lemma sci_body_overwrite (dgfile : string) (wcsd : dict) (i : nat) (dg : Z) (s : HDUList)
    (x : HDU) (v raw instr : pyval) (hduX hduY : HDU) (eX eY : nat) :
  s !! i = Some x -> header_get (header x) "EXTVER" = Some v ->
  primary_kw s "DGEOFILE" = Ok raw ->
  primary_kw s "INSTRUME" = Ok instr ->
  (forall s', primary_kw s' "INSTRUME" = Ok instr ->
              (mkhdu dgfile (dg + 1) "DX" v s').2 = Ok hduX /\
              (mkhdu dgfile (dg + 2) "DY" v s').2 = Ok hduY) ->
  dict_get wcsd (PInt (dg + 1)) = Some eX ->
  dict_get wcsd (PInt (dg + 2)) = Some eY ->
  (eX < List.length s)%nat -> (eY < List.length s)%nat ->
  eX ≠ i -> eY ≠ i -> eX ≠ 0%nat -> eY ≠ 0%nat ->
  exists s', sci_body getdata dgeo_vals dgfile wcsd i dg s = (s', Ok (dg + 2)).
Proof.
  intros Hx Hv Hraw Hi Hh HdX HdY HlX HlY HiX HiY H0X H0Y. unfold sci_body.
  rewrite (bind_ok _ _ s s v) by (rewrite getkw_eq, Hx, Hv; reflexivity).
  cbn [axis_loop].
  set (sX := upd_slot (Some i) (apply_cards (kw_cards raw "DX" (dg + 1))) s).
  set (s1 := <[eX:=hduX]> sX).
  assert (H1 : axis_step getdata dgeo_vals dgfile wcsd v "DX" (Some i, dg) s =
               (s1, Ok (Some i, dg + 1))).
  { apply axis_step_overwrite; try assumption. now apply Hh. }
  assert (P1d : primary_kw s1 "DGEOFILE" = Ok raw).
  { unfold s1. rewrite primary_kw_insert_ne by exact H0X.
    apply primary_kw_upd_cards; [exact Hraw|apply kw_cards_DGEOFILE]. }
  assert (P1i : primary_kw s1 "INSTRUME" = Ok instr).
  { unfold s1, sX. rewrite primary_kw_insert_ne by exact H0X.
    now rewrite primary_kw_upd_notin by apply kw_cards_no_INSTRUME. }
  assert (L1 : List.length s1 = List.length s).
  { unfold s1, sX. now rewrite length_insert, upd_slot_length. }
  set (sY := upd_slot (Some i) (apply_cards (kw_cards raw "DY" (dg + 1 + 1))) s1).
  set (s2 := <[eY:=hduY]> sY).
  assert (H2 : axis_step getdata dgeo_vals dgfile wcsd v "DY" (Some i, dg + 1) s1 =
               (s2, Ok (Some i, dg + 1 + 1))).
  { apply axis_step_overwrite; try assumption.
    - now replace (dg + 1 + 1) with (dg + 2) by lia.
    - lia.
    - replace (dg + 1 + 1) with (dg + 2) by lia. now apply Hh. }
  rewrite (bind_ok _ _ s s2 (Some i, dg + 1 + 1)).
  2: { rewrite (bind_ok _ _ s s1 (Some i, dg + 1) H1).
       now rewrite (bind_ok _ _ s1 s2 (Some i, dg + 1 + 1) H2). }
  cbn [fst snd]. unfold bind. rewrite updateDGEOkw_eq.
  assert (P2d : primary_kw s2 "DGEOFILE" = Ok raw).
  { unfold s2. rewrite primary_kw_insert_ne by exact H0Y.
    apply primary_kw_upd_cards; [exact P1d|apply kw_cards_DGEOFILE]. }
  rewrite P2d. unfold ret. eexists. do 2 f_equal. lia.
Qed.

(** A file object with WCSDVARR extensions is annotated without exception
    when, besides what a file object without them needs, the dictionary of
    the scan holds a slot other than 0 for every version. *)
Lemma annotation_succeeds_overwrite (fobj : HDUList) (raw instr : pyval) (dgfile : string)
    (vals : sdict) (wcsd : dict) :
  primary_kw fobj "DGEOFILE" = Ok raw ->
  osfn raw = Ok dgfile ->
  primary_kw fobj "INSTRUME" = Ok instr ->
  dgeo_vals_item dgeo_vals instr = Ok vals ->
  complete vals = true ->
  getwcsindex fobj = Ok wcsd ->
  (forall j, 1 <= j <= 2 * Z.of_nat (nsci fobj) ->
             exists e, dict_get wcsd (PInt j) = Some e /\ e ≠ 0%nat) ->
  (forall x, x ∈ fobj -> name_ok x = true) ->
  (forall x, x ∈ fobj -> is_sci x = true ->
             exists v dx dy, header_get (header x) "EXTVER" = Some v /\
                             getdata dgfile "DX" v = Ok dx /\
                             getdata dgfile "DY" v = Ok dy) ->
  (0 < nsci fobj)%nat ->
  exists fin, run fobj = Some (fin, Ok tt).
Proof.
  intros Hraw Hos Hi Hv Hc Hw Hslots Hnm Hsci Hpos.
  assert (En : dict_nonempty wcsd = true).
  { destruct (Hslots 1) as (e & He & _); [lia|]. now apply dict_get_nonempty in He. }
  destruct (applyDgeoCorr_total osfn getdata dgeo_vals fobj) as [[fin r] Hrun].
  exists fin. rewrite Hrun. do 2 f_equal.
  apply applyDgeoCorr_fuel_inv in Hrun.
  destruct Hrun as [(_ & e & _ & [H|[(raw' & H1 & H2)|H]])|
                    (raw' & dgfile' & wcsd' & H1 & H2 & H3 & Hloop)]; try congruence.
  assert (raw' = raw) by congruence. subst raw'.
  assert (dgfile' = dgfile) by congruence. subst dgfile'.
  assert (wcsd' = wcsd) by congruence. subst wcsd'.
  clear H1 H2 H3.
  assert (Hgen : forall fuel i dg cur,
             loop_inv getdata dgeo_vals fobj wcsd raw dgfile i dg cur ->
             loop fuel dgfile wcsd i dg cur = Some (fin, r) -> r = Ok tt).
  { clear Hloop. induction fuel as [|fuel IH]; intros i dg cur I H; [discriminate|].
    simpl in H. destruct (cur !! i) as [ext|] eqn:Ei; [|congruence].
    assert (Hbody : exists cur' dg',
               ext_body getdata dgeo_vals dgfile wcsd i ext dg cur = (cur', Ok dg')).
    { destruct (fobj !! i) as [h|] eqn:Eo.
      - destruct (is_sci h) eqn:Es.
        + pose proof (inv_sci _ _ _ _ _ _ _ _ _ I i h Eo Es) as Hc'.
          rewrite decide_False in Hc' by lia.
          assert (ext = h) by congruence. subst ext.
          rewrite ext_body_sci by exact Es.
          destruct (Hsci h (list_elem_of_lookup_2 _ _ _ Eo) Es)
            as (v & dx & dy & Hev & Hdx & Hdy).
          pose proof (inv_count _ _ _ _ _ _ _ _ _ I) as Hcnt.
          pose proof (inv_instrume _ _ _ _ _ _ _ _ _ I) as Hinstr. rewrite Hi in Hinstr.
          pose proof (inv_length _ _ _ _ _ _ _ _ _ I) as Hlen. rewrite En in Hlen.
          destruct (rank_bounds fobj i h Eo Es) as [Hk Hle].
          destruct (createDgeoHDU_run getdata dgeo_vals dgfile (dg + 1) "DX" v cur instr
                      vals dx) as [hduX HX]; try assumption; [lia|].
          destruct (createDgeoHDU_run getdata dgeo_vals dgfile (dg + 2) "DY" v cur instr
                      vals dy) as [hduY HY]; try assumption; [lia|].
          destruct (Hslots (dg + 1)) as (eX & HdX & H0X); [lia|].
          destruct (Hslots (dg + 2)) as (eY & HdY & H0Y); [lia|].
          assert (Hin : forall q e, dict_get wcsd q = Some e ->
                                    (e < List.length cur)%nat /\ e ≠ i).
          { intros q e' Hq.
            destruct (in_range_wcsdvarr fobj wcsd e' Hw) as (x' & Hx' & Hk');
              [now exists q|].
            split; [apply lookup_lt_Some in Hx'; lia|].
            intros ->. apply is_wcsdvarr_not_sci in Hk'. congruence. }
          destruct (Hin _ _ HdX) as [HlX HiX]. destruct (Hin _ _ HdY) as [HlY HiY].
          destruct (sci_body_overwrite dgfile wcsd i dg cur h v raw instr hduX hduY eX eY)
            as [s' Hs']; try assumption.
          * exact (inv_dgeofile _ _ _ _ _ _ _ _ _ I).
          * intros s' Hs'. split.
            -- rewrite <- HX. apply createDgeoHDU_instr. congruence.
            -- rewrite <- HY. apply createDgeoHDU_instr. congruence.
          * eauto.
        + exists cur, dg. apply ext_body_skip.
          * destruct (inv_other _ _ _ _ _ _ _ _ _ I i h Eo Es)
              as [H'|(j & hdu & _ & _ & H' & Hb)].
            -- congruence.
            -- apply built_kind in Hb. destruct Hb as [Hb _]. congruence.
          * destruct (inv_other _ _ _ _ _ _ _ _ _ I i h Eo Es)
              as [H'|(j & hdu & _ & _ & H' & Hb)].
            -- assert (ext = h) by congruence. subst ext.
               apply Hnm. now apply list_elem_of_lookup_2 with i.
            -- apply built_name_ok in Hb. congruence.
      - destruct (loop_inv_beyond _ _ _ _ _ _ _ _ _ _ I Ei Eo) as [H1 H2].
        exists cur, dg. now apply ext_body_skip. }
    destruct Hbody as (cur' & dg' & Hbody). rewrite Hbody in H.
    apply (IH (S i) dg' cur'); [|exact H].
    eapply loop_inv_step; eassumption. }
  apply (Hgen (turns fobj) 0%nat 0 fobj); [|exact Hloop].
  now apply loop_inv_init.
Qed.

(** X11.  On a file object whose science headers hold a [HISTORY] card
    (so that nothing rests on what [Header.update] does without one), the
    run raises nothing exactly when: the primary header has [DGEOFILE] and
    its value resolves; every [EXTNAME] is a string; every extension named
    [WCSDVARR] has an [EXTVER]; every science extension has an [EXTVER] for
    which the reference file has the [DX] and the [DY] array; when there
    is a science extension, the primary header names an instrument whose
    defaults hold the eight grid descriptors that [createDgeoHDU] leaves
    to them; and, when there is a WCSDVARR extension, every version from 1
    to 2N has one that is not the primary HDU. *)
Theorem annotation_succeeds_exactly_when (fobj : HDUList) :
  (forall x, x ∈ fobj -> is_sci x = true -> has_key (header x) "HISTORY" = true) ->
  ((exists fin, run fobj = Some (fin, Ok tt)) <->
  (exists raw dgfile,
     primary_kw fobj "DGEOFILE" = Ok raw /\ osfn raw = Ok dgfile /\
     (forall x, x ∈ fobj -> name_ok x = true) /\
     (forall x, x ∈ fobj -> is_wcsdvarr x = true ->
        is_Some (header_get (header x) "EXTVER")) /\
     (forall x, x ∈ fobj -> is_sci x = true ->
        exists v dx dy, header_get (header x) "EXTVER" = Some v /\
                        getdata dgfile "DX" v = Ok dx /\
                        getdata dgfile "DY" v = Ok dy) /\
     ((0 < nsci fobj)%nat ->
        exists instr vals,
          primary_kw fobj "INSTRUME" = Ok instr /\
          dgeo_vals_item dgeo_vals instr = Ok vals /\ complete vals = true) /\
     (existsb is_wcsdvarr fobj = true ->
      forall j, 1 <= j <= 2 * Z.of_nat (nsci fobj) ->
        exists e x, e ≠ 0%nat /\ fobj !! e = Some x /\ matches x (PInt j) = true))).
Proof.
  intros _. split.
  - intros [fin Hrun].
    destruct (run_ok_inv _ _ _ _ _ Hrun) as (raw & dgfile & wcsd & i & Hraw & Hos & Hw & I & _).
    exists raw, dgfile. split; [exact Hraw|]. split; [exact Hos|].
    split; [intros x; now apply (run_ok_names osfn getdata dgeo_vals fobj fin)|].
    split; [intros x; now apply (getwcsindex_from_ok_inv _ _ _ _ Hw)|].
    assert (Hpair : forall x, x ∈ fobj -> is_sci x = true ->
              exists v hduX hduY n m,
                header_get (header x) "EXTVER" = Some v /\
                (createDgeoHDU getdata dgeo_vals dgfile n "DX" v fobj).2 = Ok hduX /\
                (createDgeoHDU getdata dgeo_vals dgfile m "DY" v fobj).2 = Ok hduY).
    { intros x Hin Hs. apply list_elem_of_lookup_1 in Hin. destruct Hin as [p Hp].
      destruct (run_ok_pair _ _ _ fobj fin p x Hrun Hp Hs)
        as (raw' & dgfile' & v & eX & eY & hduX & hduY &
            Hraw' & Hos' & Hv & _ & _ & HcX & HcY & _).
      assert (raw' = raw) by congruence. subst raw'.
      assert (dgfile' = dgfile) by congruence. subst dgfile'.
      exists v, hduX, hduY. eauto. }
    split; [|split].
    + intros x Hin Hs. destruct (Hpair x Hin Hs) as (v & hduX & hduY & n & m & Hv & HcX & HcY).
      destruct (createDgeoHDU_data _ _ _ _ _ _ _ _ HcX) as (dx & Hdx & _).
      destruct (createDgeoHDU_data _ _ _ _ _ _ _ _ HcY) as (dy & Hdy & _).
      exists v, dx, dy. auto.
    + intros Hpos.
      assert (Hsome : exists x, x ∈ fobj /\ is_sci x = true).
      { destruct (filter (fun h => is_sci h = true) fobj) as [|x l] eqn:Ef.
        - unfold nsci in Hpos. rewrite Ef in Hpos. simpl in Hpos. lia.
        - exists x.
          assert (Hx : x ∈ filter (fun h => is_sci h = true) fobj) by (rewrite Ef; now left).
          apply list_elem_of_filter in Hx. tauto. }
      destruct Hsome as (x & Hin & Hs).
      destruct (Hpair x Hin Hs) as (v & hduX & hduY & n & m & _ & HcX & _).
      now apply createDgeoHDU_complete in HcX.
    + intros Hex j Hj.
      assert (En : dict_nonempty wcsd = true) by now rewrite (getwcsindex_nonempty _ _ Hw).
      destruct (inv_slots _ _ _ _ _ _ _ _ _ I En j Hj) as (e & hdu & Hd & Hf & Hb).
      unfold getwcsindex in Hw. rewrite (getwcsindex_from_get _ _ _ _ (PInt j) Hw) in Hd.
      simpl in Hd. apply scan_from_Some in Hd.
      destruct Hd as [[Hd _]|(_ & (x & Hx & Hm) & _)]; [discriminate|].
      rewrite Nat.sub_0_r in Hx. exists e, x. split; [|auto].
      intros ->. pose proof (inv_dgeofile _ _ _ _ _ _ _ _ _ I) as Hd0.
      rewrite primary_kw_eq, Hf in Hd0.
      destruct Hb as (q & hq & v & _ & _ & _ & [[_ H]|[_ H]]);
        apply createDgeoHDU_kind in H; destruct H as (_ & _ & H & _);
        rewrite H in Hd0; discriminate.
  - intros (raw & dgfile & Hraw & Hos & Hnm & Hver & Hsci & Hinstr & Hslots).
    destruct (getwcsindex_from_ok fobj 0 [] Hver) as [wcsd Hw].
    fold (getwcsindex fobj) in Hw.
    destruct (Nat.eq_dec (nsci fobj) 0) as [Hz|Hnz].
    + destruct (applyDgeoCorr_total osfn getdata dgeo_vals fobj) as [[fin r] Hrun].
      exists fin. rewrite Hrun. do 2 f_equal.
      pose proof (nsci_zero fobj Hz) as Hns.
      apply applyDgeoCorr_fuel_inv in Hrun.
      destruct Hrun as [(_ & e & _ & [H|[(raw' & H1 & H2)|H]])|
                        (raw' & dgfile' & wcsd' & _ & _ & _ & Hloop)]; try congruence.
      apply ext_loop_skip_all in Hloop; [now destruct Hloop|].
      intros x Hin. split; [now apply Hns|now apply Hnm].
    + destruct Hinstr as (instr & vals & Hi & Hv & Hc); [lia|].
      destruct (existsb is_wcsdvarr fobj) eqn:Hex.
      * apply (annotation_succeeds_overwrite fobj raw instr dgfile vals wcsd);
          try assumption; [|lia].
        intros j Hj. destruct (Hslots eq_refl j Hj) as (e & x & He & Hx & Hm).
        unfold getwcsindex in Hw. rewrite (getwcsindex_from_get _ _ _ _ (PInt j) Hw).
        simpl. destruct (scan_from_found fobj 0 None (PInt j) e x Hx Hm) as (p' & -> & Hp').
        exists p'. split; [reflexivity|lia].
      * now apply (annotation_succeeds osfn getdata dgeo_vals fobj raw instr dgfile vals).
Qed.

End Overwrite.

(** ** More on the header of a lookup extension *)

Lemma sdict_item_raise (d : sdict) (k : string) (e : exn) :
  sdict_item d k = Raise e -> e = KeyError.
Proof. unfold sdict_item. destruct (sdict_get d k); [discriminate|congruence]. Qed.

Lemma kw_or_res_raise (kw vals : sdict) (k : string) (e : exn) :
  kw_or_res kw vals k = Raise e -> e = KeyError.
Proof.
  unfold kw_or_res. destruct (sdict_item kw k) as [a|e'] eqn:E.
  - destruct (truthy a); [discriminate|apply sdict_item_raise].
  - apply sdict_item_raise in E. congruence.
Qed.

Lemma kw_or_res_ok (kw vals : sdict) (k : string) (v : pyval) :
  kw_or_res kw vals k = Ok v ->
  exists a, sdict_get kw k = Some a /\
            if truthy a then v = a else sdict_get vals k = Some v.
Proof.
  unfold kw_or_res, sdict_item. destruct (sdict_get kw k) as [a|]; [|discriminate].
  intros H. exists a. split; [reflexivity|].
  destruct (truthy a); [congruence|].
  destruct (sdict_get vals k); [congruence|discriminate].
Qed.

Lemma dgeo_vals_item_raise dgeo_vals (instr : pyval) (e : exn) :
  dgeo_vals_item dgeo_vals instr = Raise e -> e = KeyError.
Proof.
  unfold dgeo_vals_item. destruct instr; try congruence.
  destruct (dgeo_vals s); simpl; [discriminate|congruence].
Qed.

Lemma primary_kw_raise (s : HDUList) (k : string) (e : exn) :
  primary_kw s k = Raise e -> e = KeyError \/ (e = IndexError /\ s = []).
Proof.
  rewrite primary_kw_eq. destruct s as [|h r]; simpl.
  - intros H. right. split; [congruence|reflexivity].
  - destruct (header_get (header h) k); simpl; [discriminate|]. intros H. left. congruence.
Qed.

(** [createDgeoHdr] looks the nine names up in order and stops at the
    first that has no value. *)
Lemma createDgeoHdr_eq dgeo_vals (kw : sdict) (s : HDUList) :
  createDgeoHdr dgeo_vals kw s =
  (s,
   match primary_kw s "INSTRUME" with
   | Raise e => Raise e
   | Ok instr =>
       match dgeo_vals_item dgeo_vals instr with
       | Raise e => Raise e
       | Ok vals =>
           match kw_or_res kw vals "naxis1", kw_or_res kw vals "naxis2",
                 kw_or_res kw vals "extver", kw_or_res kw vals "crpix1",
                 kw_or_res kw vals "crpix2", kw_or_res kw vals "cdelt1",
                 kw_or_res kw vals "cdelt2", kw_or_res kw vals "crval1",
                 kw_or_res kw vals "crval2" with
           | Ok n1, Ok n2, Ok ev, Ok c1, Ok c2, Ok d1, Ok d2, Ok v1, Ok v2 =>
               Ok (dgeo_cardlist n1 n2 ev c1 c2 d1 d2 v1 v2)
           | _, _, _, _, _, _, _, _, _ => Raise KeyError
           end
       end
   end).
Proof.
  unfold createDgeoHdr. unfold bind at 1. rewrite getkw_primary.
  destruct (primary_kw s "INSTRUME") as [instr|e]; [|reflexivity].
  unfold bind at 1. unfold lift at 1.
  destruct (dgeo_vals_item dgeo_vals instr) as [vals|e]; [|reflexivity].
  repeat (unfold bind at 1; rewrite kw_or_eq;
          match goal with
          | |- context [kw_or_res kw vals ?k] =>
              let E := fresh "E" in
              destruct (kw_or_res kw vals k) as [?|?] eqn:E;
              [|apply kw_or_res_raise in E; subst; reflexivity]
          end).
  reflexivity.
Qed.

(** X12.  In a header [createDgeoHdr] returns, each grid descriptor other
    than [CRPIX2] has the value of its keyword argument when that value is
    true, and the default of the instrument when it is false: an argument
    of 0, 0.0, the empty string, [False] or [None] is replaced by the
    default.  The file object is not changed. *)
Theorem override_or_default dgeo_vals (kw : sdict) (s s' : HDUList) (hdr : Header)
    (k K : string) :
  createDgeoHdr dgeo_vals kw s = (s', Ok hdr) ->
  (k, K) ∈ descriptors ->
  s' = s /\
  exists instr vals a,
    primary_kw s "INSTRUME" = Ok instr /\
    dgeo_vals_item dgeo_vals instr = Ok vals /\
    sdict_get kw k = Some a /\
    (truthy a = true -> header_get hdr K = Some a) /\
    (truthy a = false ->
     is_Some (sdict_get vals k) /\ header_get hdr K = sdict_get vals k).
Proof.
  intros H Hk. apply createDgeoHdr_ok in H.
  destruct H as (-> & instr & vals & n1 & n2 & ev & c1 & c2 & d1 & d2 & v1 & v2 &
                 Hi & Hv & H1 & H2 & H3 & H4 & H5 & H6 & H7 & H8 & H9 & ->).
  split; [reflexivity|]. rewrite getkw_primary in Hi.
  assert (Hi' : primary_kw s "INSTRUME" = Ok instr) by congruence.
  assert (Gen : forall v, kw_or_res kw vals k = Ok v ->
            exists a, sdict_get kw k = Some a /\
                      (truthy a = true -> Some v = Some a) /\
                      (truthy a = false ->
                       is_Some (sdict_get vals k) /\ Some v = sdict_get vals k)).
  { intros v Hv'. apply kw_or_res_ok in Hv'. destruct Hv' as (a & Ha & Hc).
    exists a. split; [exact Ha|]. destruct (truthy a).
    - split; [intros _; congruence|discriminate].
    - split; [discriminate|]. intros _. rewrite Hc. eauto. }
  unfold descriptors in Hk.
  repeat (apply elem_of_cons in Hk; destruct Hk as [Hk|Hk];
          [inversion Hk; subst k K; clear Hk;
           match goal with
           | H : kw_or_res kw vals ?n = Ok ?v |- context [sdict_get kw ?n] =>
               destruct (Gen v H) as (a & Ha & Ht & Hf); exists instr, vals, a; auto
           end|]).
  inversion Hk.
Qed.

(** X13.  [createDgeoHdr] raises [KeyError], leaving the file object as
    it is, when one of the nine names is not among the keyword arguments,
    or has a false argument and no default for the instrument.  This holds
    for [crpix2] too, whose value is never written. *)
Theorem descriptor_without_value_raises dgeo_vals (kw : sdict) (s : HDUList)
    (instr : pyval) (vals : sdict) (k : string) :
  primary_kw s "INSTRUME" = Ok instr ->
  dgeo_vals_item dgeo_vals instr = Ok vals ->
  k ∈ kw_names ->
  sdict_get kw k = None \/
  (exists a, sdict_get kw k = Some a /\ truthy a = false /\ sdict_get vals k = None) ->
  createDgeoHdr dgeo_vals kw s = (s, Raise KeyError).
Proof.
  intros Hi Hv Hk Hno. rewrite createDgeoHdr_eq, Hi, Hv. f_equal.
  assert (Hr : kw_or_res kw vals k = Raise KeyError).
  { unfold kw_or_res, sdict_item. destruct Hno as [->|(a & -> & -> & ->)]; reflexivity. }
  unfold kw_names in Hk.
  repeat (apply elem_of_cons in Hk; destruct Hk as [->|Hk];
          [rewrite Hr;
           repeat match goal with
                  | |- context [match kw_or_res kw vals ?n with _ => _ end] =>
                      destruct (kw_or_res kw vals n)
                  end; reflexivity|]).
  inversion Hk.
Qed.

(** ** The two writers of [DGEOFILE] *)

(** [addSciExtKw] leaves the header it writes with the card of
    [DGEOFILE] that [updateDGEOkw] would write next. *)
Lemma addSciExtKw_settled (slot : option nat) (extver : Z) (ename : string)
    (s s1 : HDUList) :
  addSciExtKw slot extver ename s = (s1, Ok tt) ->
  List.length s1 = List.length s /\
  exists raw,
    primary_kw s1 "DGEOFILE" = Ok raw /\
    upd_slot slot (apply_cards [mkCard "DGEOFILE" raw dgeofile_comment]) s1 = s1.
Proof.
  intros H. rewrite addSciExtKw_eq in H. cbv zeta in H.
  rewrite primary_kw_upd_notin in H by apply sci_cards_no_DGEOFILE.
  destruct (primary_kw s "DGEOFILE") as [raw|e] eqn:Eraw; [|discriminate].
  assert (Hs : s1 = upd_slot slot (apply_cards (kw_cards raw ename extver)) s) by congruence.
  subst s1. clear H. split; [apply upd_slot_length|]. exists raw. split.
  - apply primary_kw_upd_cards; [exact Eraw|apply kw_cards_DGEOFILE].
  - rewrite upd_slot_compose.
    destruct slot as [i|]; unfold upd_slot; [|reflexivity].
    apply list_alter_ext; [|reflexivity]. intros x _. unfold set_header. f_equal.
    apply apply_cards_id. intros c Hc. apply list_elem_of_singleton in Hc. subst c.
    unfold kw_cards.
    apply (card_get_apply_cards_last _ [] (mkCard "DGEOFILE" raw dgeofile_comment)).
    intros Hin. inversion Hin.
Qed.

Lemma alter_insert_fixed (f : HDU -> HDU) (j idx : nat) (hdu : HDU) (s : HDUList) :
  j ≠ idx -> alter f j s = s -> alter f j (<[idx:=hdu]> s) = <[idx:=hdu]> s.
Proof.
  intros Hne Hs. apply list_eq. intros k. destruct (decide (k = j)) as [->|Hk].
  - rewrite list_lookup_alter_eq, list_lookup_insert_ne by congruence.
    rewrite <- Hs at 2. now rewrite list_lookup_alter_eq.
  - now rewrite list_lookup_alter_ne by congruence.
Qed.

Section Closing.

Variable getdata : string -> string -> pyval -> res ndarray.
Variable dgeo_vals : string -> option sdict.

(** [updateDGEOkw] after one turn of the loop over the axes, on the
    header that turn has written: the lookup HDU stored in between leaves
    the call nothing to change, and takes [DGEOFILE] away from it when it
    has been stored in slot 0. *)
Lemma axis_step_then_update (dgfile : string) (wcsd : dict) (v : pyval) (ename : string)
    (st st' : option nat * Z) (s s2 : HDUList) :
  (forall j, st.1 = Some j -> (j < List.length s)%nat) ->
  axis_step getdata dgeo_vals dgfile wcsd v ename st s = (s2, Ok st') ->
  (forall j, st'.1 = Some j -> (j < List.length s2)%nat) /\
  st'.2 = st.2 + 1 /\
  (updateDGEOkw st'.1 s2 = (s2, Ok tt) \/
   (updateDGEOkw st'.1 s2 = (s2, Raise KeyError) /\
    dict_get wcsd (PInt (st.2 + 1)) = Some 0%nat)).
Proof.
  intros Hj H. rewrite axis_step_eq in H.
  destruct (addSciExtKw st.1 (st.2 + 1) ename s) as [s1 [[]|e]] eqn:Ea; [|discriminate].
  destruct (addSciExtKw_settled _ _ _ _ _ Ea) as (Hlen & raw & Hp & Hu).
  destruct (createDgeoHDU getdata dgeo_vals dgfile (st.2 + 1) ename v s1).2 as [hdu|e] eqn:Ec;
    [|discriminate].
  destruct (dict_nonempty wcsd).
  - destruct (dict_get wcsd (PInt (st.2 + 1))) as [idx|] eqn:Ed; [|discriminate].
    destruct (idx <? List.length s1)%nat eqn:El; [|discriminate].
    apply Nat.ltb_lt in El. injection H as <- <-. cbn [fst snd].
    split; [|split; [reflexivity|]].
    + intros j Hs. rewrite length_insert, Hlen. apply Hj.
      destruct (decide (st.1 = Some idx)); [discriminate|exact Hs].
    + rewrite updateDGEOkw_eq. destruct (decide (idx = 0%nat)) as [->|H0].
      * right. rewrite primary_kw_insert_0 by exact El.
        destruct (createDgeoHDU_kind _ _ _ _ _ _ _ _ Ec) as (_ & _ & -> & _).
        split; reflexivity.
      * left. rewrite primary_kw_insert_ne, Hp by exact H0. f_equal.
        destruct (decide (st.1 = Some idx)) as [E|E]; [reflexivity|].
        destruct st.1 as [j|]; [|reflexivity]. unfold upd_slot in *.
        apply alter_insert_fixed; [congruence|exact Hu].
  - injection H as <- <-. cbn [fst snd]. split; [|split; [reflexivity|]].
    + intros j Hs. rewrite length_app, Hlen. specialize (Hj j Hs). lia.
    + left. rewrite updateDGEOkw_eq, (primary_kw_app _ _ _ _ Hp). f_equal.
      destruct st.1 as [j|] eqn:Es; [|reflexivity]. unfold upd_slot in *.
      rewrite alter_app_l by (rewrite Hlen; now apply Hj). now rewrite Hu.
Qed.

(** X14.  [updateDGEOkw] on a header that [addSciExtKw] has just written
    changes nothing and raises nothing: [addSciExtKw] ends with the same
    card for [DGEOFILE].  In the pass over a science extension a lookup HDU
    is stored between the two calls; the call of [updateDGEOkw] that closes
    the pass still changes nothing in the file object, and it raises
    nothing unless the dictionary holds slot 0 for the [DY] version: the
    lookup HDU stored there has no [DGEOFILE], the call raises [KeyError]
    and the pass ends with it. *)
Theorem updateDGEOkw_after_addSciExtKw :
  (forall (slot : option nat) (extver : Z) (ename : string) (s s1 : HDUList),
     addSciExtKw slot extver ename s = (s1, Ok tt) ->
     updateDGEOkw slot s1 = (s1, Ok tt)) /\
  (forall (dgfile : string) (wcsd : dict) (i : nat) (dg : Z) (s s2 : HDUList) (v : pyval)
          (st : option nat * Z),
     (getkw i "EXTVER" s).2 = Ok v ->
     axis_loop getdata dgeo_vals dgfile wcsd v ["DX"; "DY"] (Some i, dg) s = (s2, Ok st) ->
     (updateDGEOkw st.1 s2 = (s2, Ok tt) /\
      sci_body getdata dgeo_vals dgfile wcsd i dg s = (s2, Ok (dg + 2))) \/
     (updateDGEOkw st.1 s2 = (s2, Raise KeyError) /\
      sci_body getdata dgeo_vals dgfile wcsd i dg s = (s2, Raise KeyError) /\
      dict_get wcsd (PInt (dg + 2)) = Some 0%nat)).
Proof.
  split.
  - intros slot extver ename s s1 H.
    destruct (addSciExtKw_settled _ _ _ _ _ H) as (_ & raw & Hp & Hu).
    now rewrite updateDGEOkw_eq, Hp, Hu.
  - intros dgfile wcsd i dg s s2 v st Hv H.
    assert (Hi : (i < List.length s)%nat).
    { rewrite getkw_eq in Hv. simpl in Hv.
      destruct (s !! i) eqn:E; [|discriminate]. now apply lookup_lt_Some in E. }
    assert (Hb : sci_body getdata dgeo_vals dgfile wcsd i dg s =
                 match updateDGEOkw st.1 s2 with
                 | (s3, Ok _) => (s3, Ok st.2)
                 | (s3, Raise e) => (s3, Raise e)
                 end).
    { unfold sci_body. unfold bind at 1. rewrite getkw_eq in *. simpl in Hv. cbn [fst snd].
      rewrite Hv. unfold bind at 1. rewrite H. unfold bind at 1.
      destruct (updateDGEOkw st.1 s2) as [s3 [[]|e]]; reflexivity. }
    cbn [axis_loop] in H. unfold bind at 1 in H.
    destruct (axis_step getdata dgeo_vals dgfile wcsd v "DX" (Some i, dg) s)
      as [s1 [st1|e]] eqn:E1; [|discriminate].
    unfold bind at 1 in H.
    destruct (axis_step getdata dgeo_vals dgfile wcsd v "DY" st1 s1)
      as [s2' [st2|e]] eqn:E2; [|discriminate].
    injection H as <- <-.
    assert (Hj0 : forall j, (Some i, dg).1 = Some j -> (j < List.length s)%nat).
    { intros j Hs. injection Hs as <-. exact Hi. }
    destruct (axis_step_then_update _ _ _ _ _ _ _ _ Hj0 E1) as (Hj1 & Hd1 & _).
    destruct (axis_step_then_update _ _ _ _ _ _ _ _ Hj1 E2) as (_ & Hd2 & Hu).
    cbn [fst snd] in Hd1. rewrite Hd1 in Hu.
    replace (dg + 1 + 1) with (dg + 2) in Hu by lia.
    destruct Hu as [Hu|[Hu Hd]].
    + left. split; [exact Hu|]. rewrite Hb, Hu. do 2 f_equal. lia.
    + right. split; [exact Hu|]. split; [|exact Hd]. now rewrite Hb, Hu.
Qed.

End Closing.

(** ** Where the exceptions come from *)

Lemma createDgeoHdr_raise dgeo_vals (kw : sdict) (s s' : HDUList) (e : exn) :
  createDgeoHdr dgeo_vals kw s = (s', Raise e) ->
  e = KeyError \/ (e = IndexError /\ s = []).
Proof.
  rewrite createDgeoHdr_eq. intros H. injection H as Hs Hr. clear Hs.
  destruct (primary_kw s "INSTRUME") as [instr|e'] eqn:Ei.
  - left. destruct (dgeo_vals_item dgeo_vals instr) as [vals|e'] eqn:Ev.
    + repeat match type of Hr with
             | context [match kw_or_res kw vals ?n with _ => _ end] =>
                 destruct (kw_or_res kw vals n)
             end; congruence.
    + apply dgeo_vals_item_raise in Ev. congruence.
  - assert (e' = e) by congruence. subst e'. now apply primary_kw_raise in Ei.
Qed.

Lemma createDgeoHDU_raise getdata dgeo_vals (dgfile : string) (dgeover : Z)
    (ename : string) (v : pyval) (s : HDUList) (e : exn) :
  (createDgeoHDU getdata dgeo_vals dgfile dgeover ename v s).2 = Raise e ->
  e = KeyError \/ (e = IndexError /\ s = []) \/ getdata dgfile ename v = Raise e.
Proof.
  intros H.
  destruct (createDgeoHDU getdata dgeo_vals dgfile dgeover ename v s) as [s' r] eqn:E.
  simpl in H. subst r. unfold createDgeoHDU in E. apply bind_inv in E.
  destruct E as [(s1 & hdr & _ & E)|(e' & E & He)].
  - apply bind_inv in E. destruct E as [(s2 & dat & _ & E)|(e' & E & He)].
    + discriminate.
    + unfold getDgeoData, lift in E. right. right. congruence.
  - apply createDgeoHdr_raise in E. assert (e' = e) by congruence. subst e'. tauto.
Qed.

Section Sources.

Variable osfn : pyval -> res string.
Variable getdata : string -> string -> pyval -> res ndarray.
Variable dgeo_vals : string -> option sdict.

Local Abbreviation run := (applyDgeoCorr osfn getdata dgeo_vals).

(** An exception of [getdata]. *)
Local Abbreviation from_getdata e := (exists f a v, getdata f a v = Raise e).

Lemma axis_step_raise (dgfile : string) (wcsd : dict) (v : pyval) (ename : string)
    (st : option nat * Z) (s s' : HDUList) (e : exn) :
  axis_step getdata dgeo_vals dgfile wcsd v ename st s = (s', Raise e) ->
  s ≠ [] ->
  (forall q idx, dict_get wcsd q = Some idx -> (idx < List.length s)%nat) ->
  e = KeyError \/ from_getdata e.
Proof.
  intros H Hne Hd. rewrite axis_step_eq, addSciExtKw_eq in H. cbv zeta in H.
  assert (Hlen : forall f, upd_slot st.1 f s ≠ []).
  { intros f E. apply (f_equal List.length) in E. rewrite upd_slot_length in E.
    destruct s; [contradiction|discriminate]. }
  destruct (primary_kw _ "DGEOFILE") as [raw|e'] eqn:Er.
  - destruct (createDgeoHDU getdata dgeo_vals dgfile (st.2 + 1) ename v _).2
      as [hdu|e'] eqn:Eh.
    + destruct (dict_nonempty wcsd); [|discriminate].
      destruct (dict_get wcsd (PInt (st.2 + 1))) as [idx|] eqn:Ed.
      * apply Hd in Ed. rewrite <- (upd_slot_length st.1
          (apply_cards (kw_cards raw ename (st.2 + 1))) s) in Ed.
        apply Nat.ltb_lt in Ed. rewrite Ed in H. discriminate.
      * left. congruence.
    + assert (e' = e) by congruence. subst e'. apply createDgeoHDU_raise in Eh.
      destruct Eh as [->|[[_ Hs]|Hg]]; [now left|now apply Hlen in Hs|].
      right. eauto.
  - assert (e' = e) by congruence. subst e'. apply primary_kw_raise in Er.
    destruct Er as [->|[_ Hs]]; [now left|now apply Hlen in Hs].
Qed.

Lemma sci_body_raise (dgfile : string) (wcsd : dict) (i : nat) (dg : Z)
    (s s' : HDUList) (e : exn) :
  sci_body getdata dgeo_vals dgfile wcsd i dg s = (s', Raise e) ->
  (i < List.length s)%nat ->
  (forall q idx, dict_get wcsd q = Some idx -> (idx < List.length s)%nat) ->
  e = KeyError \/ from_getdata e.
Proof.
  intros H Hi Hd. unfold sci_body in H.
  assert (Hne : s ≠ []) by (intros ->; simpl in Hi; lia).
  apply bind_inv in H. destruct H as [(s0 & v & Hv & H)|(e' & Hv & He)].
  2: { left. rewrite getkw_eq in Hv.
       destruct (lookup_lt_is_Some_2 s i Hi) as [h Hh]. rewrite Hh in Hv.
       destruct (header_get (header h) "EXTVER"); simpl in Hv; congruence. }
  apply getkw_ok in Hv. destruct Hv as [-> _].
  apply bind_inv in H. destruct H as [(s3 & st & Hl & H)|(e' & Hl & He)].
  - apply bind_inv in H. destruct H as [(s4 & [] & _ & H)|(e' & Hu & He)];
      [discriminate|].
    rewrite updateDGEOkw_eq in Hu.
    destruct (primary_kw s3 "DGEOFILE") as [raw|e''] eqn:Er; [discriminate|].
    assert (e'' = e) by congruence. subst e''. apply primary_kw_raise in Er.
    destruct Er as [->|[_ ->]]; [now left|].
    exfalso. simpl in Hl.
    apply bind_ok_inv in Hl. destruct Hl as (s1 & st1 & H1 & Hl).
    apply bind_ok_inv in Hl. destruct Hl as (s2 & st2 & H2 & Hl).
    unfold ret in Hl. inversion Hl; subst.
    destruct (axis_step_frame getdata dgeo_vals dgfile wcsd v "DX" i (Some i, dg)
                (or_introl eq_refl) s) as [[L1 _] V1].
    rewrite H1 in L1, V1. simpl in L1, V1.
    destruct (axis_step_frame getdata dgeo_vals dgfile wcsd v "DY" i st1
                (V1 st1 eq_refl) s1) as [[L2 _] _].
    rewrite H2 in L2. simpl in L2. lia.
  - assert (e' = e) by congruence. subst e'. clear He. simpl in Hl.
    apply bind_inv in Hl. destruct Hl as [(s1 & st1 & H1 & Hl)|(e' & H1 & He)].
    + destruct (axis_step_frame getdata dgeo_vals dgfile wcsd v "DX" i (Some i, dg)
                  (or_introl eq_refl) s) as [[L1 _] _].
      rewrite H1 in L1. simpl in L1.
      apply bind_inv in Hl. destruct Hl as [(s2 & st2 & H2 & Hl)|(e' & H2 & He)];
        [discriminate|].
      assert (e' = e) by congruence. subst e'.
      apply (axis_step_raise _ _ _ _ _ _ _ _ H2).
      * intros ->. simpl in L1. lia.
      * intros q idx Hq. specialize (Hd q idx Hq). lia.
    + assert (e' = e) by congruence. subst e'.
      now apply (axis_step_raise _ _ _ _ _ _ _ _ H1).
Qed.

(** X15.  An exception of the run is a [KeyError], or an [IndexError] on
    an empty file object, or an [AttributeError] when some [EXTNAME] of
    the file object is not a string, or an exception raised by [osfn] or by
    [getdata].  In particular the assignment to a slot found by the scan
    and the reads of headers never go out of range. *)
Theorem exception_sources (fobj fin : HDUList) (e : exn) :
  run fobj = Some (fin, Raise e) ->
  e = KeyError \/
  (e = IndexError /\ fobj = []) \/
  (e = AttributeError /\ exists x, x ∈ fobj /\ name_ok x = false) \/
  (exists v, osfn v = Raise e) \/
  (exists f a v, getdata f a v = Raise e).
Proof.
  intros Hrun. apply applyDgeoCorr_fuel_inv in Hrun.
  destruct Hrun as [(_ & e' & He & [H|[(raw & _ & H)|H]])|
                    (raw & dgfile & wcsd & Hraw & _ & Hw & Hloop)].
  - assert (e' = e) by congruence. subst e'. apply primary_kw_raise in H. tauto.
  - assert (e' = e) by congruence. subst e'. right. right. right. left. eauto.
  - assert (e' = e) by congruence. subst e'. left.
    now apply getwcsindex_from_raise in H.
  - destruct (ext_loop_raise_inv getdata dgeo_vals fobj wcsd raw dgfile _ Hw 0%nat 0 fobj
                fin e (loop_inv_init _ _ _ _ _ _ Hraw) Hloop)
      as (i & dg & cur & ext & I & Hext & Hb).
    pose proof (lookup_lt_Some _ _ _ Hext) as Hi.
    destruct (is_sci ext) eqn:Es.
    + rewrite ext_body_sci in Hb by exact Es.
      apply sci_body_raise in Hb; [tauto|exact Hi|].
      intros q idx Hq.
      destruct (in_range_wcsdvarr fobj wcsd idx Hw) as (x & Hx & _); [now exists q|].
      apply lookup_lt_Some in Hx.
      pose proof (inv_length _ _ _ _ _ _ _ _ _ I) as Hl.
      destruct (dict_nonempty wcsd); lia.
    + destruct (name_ok ext) eqn:En.
      { rewrite ext_body_skip in Hb by assumption. discriminate. }
      right. right. left.
      assert (He : e = AttributeError).
      { unfold ext_body in Hb. unfold name_ok in En.
        destruct (header_get (header ext) "EXTNAME") as [[| | | |nm]|];
          try discriminate; unfold raise in Hb; congruence. }
      split; [exact He|]. exists ext. split; [|exact En].
      destruct (fobj !! i) as [h|] eqn:Eo.
      * destruct (is_sci h) eqn:Esh.
        -- pose proof (inv_sci _ _ _ _ _ _ _ _ _ I i h Eo Esh) as Hc.
           rewrite decide_False in Hc by lia. congruence.
        -- destruct (inv_other _ _ _ _ _ _ _ _ _ I i h Eo Esh)
             as [H|(j & hdu & _ & _ & H & Hbu)].
           ++ assert (ext = h) by congruence. subst h.
              now apply list_elem_of_lookup_2 with i.
           ++ apply built_name_ok in Hbu. congruence.
      * destruct (loop_inv_beyond _ _ _ _ _ _ _ _ _ _ I Hext Eo) as [_ H]. congruence.
Qed.

End Sources.

(** ** The end of the loop, and a second scan *)

Section Traversal.

Variable osfn : pyval -> res string.
Variable getdata : string -> string -> pyval -> res ndarray.
Variable dgeo_vals : string -> option sdict.

Local Abbreviation run := (applyDgeoCorr osfn getdata dgeo_vals).

(** X16.  The loop over the extensions ends, although it runs over the
    list it appends to: len + 2N + 1 turns are enough (one per HDU, the
    appended ones included, and one to see the end), and with any larger
    number of turns the result is the same. *)
Theorem traversal_terminates (fobj : HDUList) :
  exists fin r,
    run fobj = Some (fin, r) /\
    forall fuel, (List.length fobj + 2 * nsci fobj + 1 <= fuel)%nat ->
                 applyDgeoCorr_fuel osfn getdata dgeo_vals fuel fobj = Some (fin, r).
Proof.
  assert (Hen : forall fuel, (turns_from 0 fobj <= fuel)%nat ->
            applyDgeoCorr_fuel osfn getdata dgeo_vals fuel fobj =
            applyDgeoCorr_fuel osfn getdata dgeo_vals (turns_from 0 fobj) fobj).
  { intros fuel Hf. unfold applyDgeoCorr_fuel.
    destruct ((v <- getkw 0 "DGEOFILE";; lift (osfn v)) fobj) as [s [dgfile|e]];
      [|reflexivity].
    destruct (getwcsindex fobj) as [wcsd|e]; [|reflexivity].
    destruct (ext_loop_total getdata dgeo_vals dgfile wcsd (turns_from 0 fobj) 0%nat 0 fobj
                (le_n _)) as [x Hx].
    rewrite Hx. now apply ext_loop_fuel_mono with (turns_from 0 fobj). }
  destruct (applyDgeoCorr_total osfn getdata dgeo_vals fobj) as [[fin r] Hrun].
  exists fin, r. split; [exact Hrun|].
  assert (Ht : turns_from 0 fobj = (List.length fobj + 2 * nsci fobj + 1)%nat).
  { unfold turns_from. rewrite drop_0. lia. }
  intros fuel Hf. rewrite Hen by lia. rewrite <- Hrun. symmetry.
  unfold applyDgeoCorr. apply Hen. unfold turns. pose proof (nsci_le_length fobj). lia.
Qed.

(** X17.  When the primary header has a [DGEOFILE] that resolves and some
    extension named [WCSDVARR] has no [EXTVER], the run raises [KeyError]
    before the loop and the file object is left as it was, whether or not
    there is a science extension to annotate. *)
Theorem versionless_wcsdvarr_aborts (fobj : HDUList) (raw : pyval) (dgfile : string)
    (h : HDU) :
  primary_kw fobj "DGEOFILE" = Ok raw ->
  osfn raw = Ok dgfile ->
  h ∈ fobj ->
  is_wcsdvarr h = true ->
  header_get (header h) "EXTVER" = None ->
  run fobj = Some (fobj, Raise KeyError).
Proof.
  intros Hraw Hos Hin Hk Hv.
  assert (Hw : getwcsindex fobj = Raise KeyError).
  { destruct (getwcsindex fobj) as [wcsd|e] eqn:E.
    - destruct (getwcsindex_from_ok_inv _ _ _ _ E h Hin Hk) as [v Hv']. congruence.
    - apply getwcsindex_from_raise in E. destruct E as [-> _]. reflexivity. }
  unfold applyDgeoCorr, applyDgeoCorr_fuel, bind, lift.
  rewrite getkw_primary, Hraw, Hos, Hw. reflexivity.
Qed.

(** X18.  The file object a run leaves without exception can be scanned
    again: [getwcsindex] succeeds on it and records, for every version
    from 1 to 2N, the slot of a WCSDVARR HDU of that version; on a file
    object that had no WCSDVARR extension, version j is recorded at
    position len + j - 1. *)
Theorem annotated_file_scans_to_its_lookups (fobj fin : HDUList) :
  run fobj = Some (fin, Ok tt) ->
  exists wcsd2,
    getwcsindex fin = Ok wcsd2 /\
    forall j, 1 <= j <= 2 * Z.of_nat (nsci fobj) ->
      exists e hdu,
        dict_get wcsd2 (PInt j) = Some e /\ fin !! e = Some hdu /\
        is_wcsdvarr hdu = true /\
        header_get (header hdu) "EXTVER" = Some (PInt j) /\
        (existsb is_wcsdvarr fobj = false ->
         e = (List.length fobj + Z.to_nat (j - 1))%nat).
Proof.
  intros Hrun. pose proof Hrun as Hrun'. apply run_ok_inv in Hrun.
  destruct Hrun as (raw & dgfile & wcsd & i & Hraw & Hos & Hw & I & Hi1 & Hi2).
  destruct (fin_scan_ok getdata dgeo_vals fobj wcsd raw dgfile fin i Hw I Hi1 Hi2)
    as [wcsd2 Hw2].
  exists wcsd2. split; [exact Hw2|]. intros j Hj.
  destruct (fin_dict getdata dgeo_vals fobj wcsd raw dgfile fin i Hw I Hi1 Hi2 wcsd2 j
              Hw2 Hj) as (e & hdu & Hd & Hf & Hb).
  exists e, hdu. pose proof (built_kind _ _ _ _ _ _ Hb) as (_ & Hk & Hv).
  do 3 (split; [assumption|]). split; [apply Hv; lia|].
  intros Hex.
  assert (En : dict_nonempty wcsd = false) by now rewrite (getwcsindex_nonempty _ _ Hw).
  destruct (fin_slots getdata dgeo_vals fobj wcsd raw dgfile fin i I Hi1 Hi2 e hdu Hf)
    as [(h & Ho & Hs & ->)|[(h & Ho & Hs & ->)|(j' & Hj' & Hb' & _ & Hd')]].
  - rewrite annotate_is_wcsdvarr in Hk. apply is_wcsdvarr_not_sci in Hk. congruence.
  - exfalso. assert (existsb is_wcsdvarr fobj = true); [|congruence].
    apply existsb_exists. exists h. split; [|exact Hk].
    apply list_elem_of_In. now apply list_elem_of_lookup_2 with e.
  - rewrite En in Hd'. apply built_kind in Hb'. destruct Hb' as (_ & _ & Hv').
    rewrite Hv in Hv' by lia. specialize (Hv' ltac:(lia)).
    assert (j' = j) by congruence. now subst j'.
Qed.

End Traversal.

(** ** The theorems on the sample files

    Each theorem above that has hypotheses is applied here to one of the
    files of [Sample], its hypotheses checked by evaluation. *)

Lemma non_science_untouched_witness :
  Sample.two_chips_out !! 2%nat = Some Sample.anon.
Proof.
  refine (proj1 (proj2 (non_science_untouched Sample.osfn Sample.getdata Sample.dgeo_vals
                          Sample.two_chips Sample.two_chips_out (Ok tt) 2 Sample.anon
                          _ _ _)) _);
    vm_compute; reflexivity.
Defined.

Lemma missing_DGEOFILE_witness :
  applyDgeoCorr Sample.osfn Sample.getdata Sample.dgeo_vals Sample.no_dgeofile =
  Some (Sample.no_dgeofile, Raise KeyError).
Proof.
  apply (missing_DGEOFILE_raises_unchanged Sample.osfn Sample.getdata Sample.dgeo_vals
           Sample.no_dgeofile
           (mkHDU [mkCard "SIMPLE" (PBool true) ""; mkCard "INSTRUME" (PStr "ACS") ""] None));
    reflexivity.
Defined.

Lemma lookup_extensions_numbered_witness :
  (fun h => header_get (header h) "EXTVER") <$>
    filter (fun h => is_wcsdvarr h = true) Sample.two_chips_out =
  (fun j => Some (PInt j)) <$> seqZ 1 (2 * Z.of_nat (nsci Sample.two_chips)).
Proof.
  apply (lookup_extensions_numbered Sample.osfn Sample.getdata Sample.dgeo_vals
           Sample.two_chips Sample.two_chips_out);
    vm_compute; reflexivity.
Defined.

Lemma dp_extver_by_rank_witness :
  exists h',
    Sample.two_chips_out !! 3%nat = Some h' /\
    header_get (header h') "DP1.EXTVER" =
      Some (PInt (2 * Z.of_nat (nsci (take 4 Sample.two_chips)) - 1)) /\
    header_get (header h') "DP2.EXTVER" =
      Some (PInt (2 * Z.of_nat (nsci (take 4 Sample.two_chips)))).
Proof.
  apply (dp_extver_by_rank Sample.osfn Sample.getdata Sample.dgeo_vals
           Sample.two_chips Sample.two_chips_out 3 (Sample.ext "sci" 1));
    vm_compute; reflexivity.
Defined.

Lemma science_header_keywords_witness :
  exists raw h',
    primary_kw Sample.one_chip "DGEOFILE" = Ok raw /\
    Sample.one_chip_out !! 1%nat = Some h' /\
    header_get (header h') "DGEOFILE" = Some raw /\
    header_get (header h') "DP2.EXTVER" = Some (PInt 2).
Proof.
  destruct (science_header_keywords Sample.osfn Sample.getdata Sample.dgeo_vals
              Sample.one_chip Sample.one_chip_out 1 (Sample.ext "SCI" 1))
    as (raw & h' & H1 & H2 & _ & _ & _ & _ & _ & _ & _ & _ & _ & H3 & _ & _ & _ & H4 & _);
    try (vm_compute; reflexivity).
  exists raw, h'. auto.
Defined.

Lemma unknown_instrument_fails_witness :
  (exists e, Raise KeyError = Raise e :> res unit) /\
  List.length Sample.unknown_out = List.length Sample.unknown /\
  Sample.unknown_out !! 2%nat = Some Sample.anon.
Proof.
  destruct (unknown_instrument_fails Sample.osfn Sample.getdata Sample.dgeo_vals
              Sample.unknown Sample.unknown_out (Raise KeyError) (PStr "WFC3"))
    as (H1 & _ & H2 & H3); try (vm_compute; reflexivity).
  split; [apply H1; vm_compute; lia|]. split; [exact H2|].
  apply (H3 2%nat Sample.anon); [reflexivity|]. left. reflexivity.
Defined.

Lemma names_sci_any_case_wcsdvarr_exact_witness :
  (exists h', Sample.two_chips_out !! 3%nat = Some h' /\
              header_get (header h') "CPDIS1" = Some (PStr "Lookup") /\
              header_get (header h') "DP1.EXTVER" = Some (PInt 3)) /\
  (exists x, Sample.lower_sci !! 3%nat = Some x /\
             header_get (header x) "EXTNAME" = Some (PStr "WCSDVARR")) /\
  (exists e', dict_get [(PInt 1, 2%nat); (PInt 2, 3%nat)] (PInt 1) = Some e' /\ (2 <= e')%nat).
Proof.
  pose proof (names_sci_any_case_wcsdvarr_exact Sample.osfn Sample.getdata Sample.dgeo_vals)
    as (_ & HA & HB & HC).
  split; [|split].
  - destruct (HA Sample.two_chips Sample.two_chips_out 3%nat (Sample.ext "sci" 1) "sci")
      as (h' & H1 & H2 & _ & H3); try (vm_compute; reflexivity).
    exists h'. auto.
  - destruct (HB Sample.lower_sci [(PInt 1, 2%nat); (PInt 2, 3%nat)] (PInt 2) 3%nat)
      as (x & v & H1 & H2 & _); try (vm_compute; reflexivity).
    exists x. auto.
  - apply (HC Sample.lower_sci [(PInt 1, 2%nat); (PInt 2, 3%nat)] 2%nat
             (Sample.ext "WCSDVARR" 1) (PInt 1)); vm_compute; reflexivity.
Defined.

Lemma annotation_idempotent_witness :
  applyDgeoCorr Sample.osfn Sample.getdata Sample.dgeo_vals Sample.two_chips_out =
  Some (Sample.two_chips_out, Ok tt).
Proof.
  apply (annotation_idempotent Sample.osfn Sample.getdata Sample.dgeo_vals Sample.two_chips).
  vm_compute. reflexivity.
Defined.

Lemma getwcsindex_last_position_witness :
  dict_get [(PInt 1, 4%nat); (PInt 2, 3%nat)] (PInt 1) = Some 4%nat <->
  exists h, Sample.duplicated !! 4%nat = Some h /\ matches h (PInt 1) = true /\
            forall p' h', (4 < p')%nat -> Sample.duplicated !! p' = Some h' ->
                          matches h' (PInt 1) = false.
Proof. apply (getwcsindex_last_position Sample.duplicated). vm_compute. reflexivity. Defined.

Lemma created_lookup_found_by_scan_witness :
  getwcsindex (Sample.one_chip ++ [Sample.lookup_dx]) =
    Ok (dict_set [] (PInt 1) (List.length Sample.one_chip)) /\
  forall q, dict_get (dict_set [] (PInt 1) (List.length Sample.one_chip)) q =
            if py_eq (PInt 1) q then Some (List.length Sample.one_chip) else dict_get [] q.
Proof.
  apply (created_lookup_found_by_scan Sample.getdata Sample.dgeo_vals Sample.os_path 1 "DX"
           (PInt 1) Sample.one_chip Sample.one_chip Sample.lookup_dx []);
    [vm_compute; reflexivity|lia|vm_compute; reflexivity].
Defined.

Lemma science_extension_kept_witness :
  exists h',
    Sample.unknown_out !! 1%nat = Some h' /\ data h' = data (Sample.ext "SCI" 1) /\
    is_sci h' = true /\
    other_cards (header h') = other_cards (header (Sample.ext "SCI" 1)) /\
    forall k, k ∉ annot_keys ->
              card_get (header h') k = card_get (header (Sample.ext "SCI" 1)) k.
Proof.
  apply (science_extension_kept Sample.osfn Sample.getdata Sample.dgeo_vals
           Sample.unknown Sample.unknown_out (Raise KeyError) 1 (Sample.ext "SCI" 1));
    vm_compute; reflexivity.
Defined.

Lemma overwritten_slot_is_last_of_its_version_witness :
  Sample.duplicated_out !! 2%nat = Some (Sample.ext "WCSDVARR" 1) \/
  exists j hdu,
    1 <= j <= 2 * Z.of_nat (nsci Sample.duplicated) /\
    matches (Sample.ext "WCSDVARR" 1) (PInt j) = true /\
    (forall p' h', (2 < p')%nat -> Sample.duplicated !! p' = Some h' ->
                   matches h' (PInt j) = false) /\
    Sample.duplicated_out !! 2%nat = Some hdu /\ is_lookup hdu /\
    header_get (header hdu) "EXTVER" = Some (PInt j).
Proof.
  apply (overwritten_slot_is_last_of_its_version Sample.osfn Sample.getdata Sample.dgeo_vals
           Sample.duplicated Sample.duplicated_out (Ok tt) 2 (Sample.ext "WCSDVARR" 1));
    vm_compute; reflexivity.
Defined.

Lemma file_object_growth_witness :
  (List.length Sample.two_chips <= List.length Sample.two_chips_out <=
   List.length Sample.two_chips + 2 * nsci Sample.two_chips)%nat /\
  List.length Sample.two_chips_out =
    (List.length Sample.two_chips + 2 * nsci Sample.two_chips)%nat.
Proof.
  destruct (file_object_growth Sample.osfn Sample.getdata Sample.dgeo_vals
              Sample.two_chips Sample.two_chips_out (Ok tt)) as (H1 & _ & H2 & _);
    [vm_compute; reflexivity|].
  split; [exact H1|]. apply H2; reflexivity.
Defined.

Lemma failure_keeps_earlier_annotations_witness :
  Sample.third_chip_out = Sample.third_chip \/
  exists i raw,
    (i < List.length Sample.third_chip)%nat /\
    primary_kw Sample.third_chip "DGEOFILE" = Ok raw /\
    (forall p h, (p < i)%nat -> Sample.third_chip !! p = Some h -> is_sci h = true ->
       Sample.third_chip_out !! p =
       Some (annotate raw (2 * Z.of_nat (nsci (take (S p) Sample.third_chip)) - 1) h)) /\
    (forall p h, (i < p)%nat -> Sample.third_chip !! p = Some h -> is_sci h = true ->
       Sample.third_chip_out !! p = Some h).
Proof.
  apply (failure_keeps_earlier_annotations Sample.osfn Sample.getdata Sample.dgeo_vals
           Sample.third_chip Sample.third_chip_out KeyError).
  vm_compute. reflexivity.
Defined.

Lemma lookup_data_from_reference_witness :
  exists raw dgfile v dx dy eX eY hduX hduY,
    primary_kw Sample.two_chips "DGEOFILE" = Ok raw /\ Sample.osfn raw = Ok dgfile /\
    header_get (header (Sample.ext "sci" 1)) "EXTVER" = Some v /\
    Sample.getdata dgfile "DX" v = Ok dx /\ Sample.getdata dgfile "DY" v = Ok dy /\
    Sample.two_chips_out !! eX = Some hduX /\ Sample.two_chips_out !! eY = Some hduY /\
    is_wcsdvarr hduX = true /\ is_wcsdvarr hduY = true /\
    header_get (header hduX) "EXTVER" =
      Some (PInt (2 * Z.of_nat (nsci (take 4 Sample.two_chips)) - 1)) /\
    header_get (header hduY) "EXTVER" =
      Some (PInt (2 * Z.of_nat (nsci (take 4 Sample.two_chips)))) /\
    data hduX = Some dx /\ data hduY = Some dy /\
    (existsb is_wcsdvarr Sample.two_chips = false ->
     eX = (List.length Sample.two_chips + 2 * nsci (take 3 Sample.two_chips))%nat /\
     eY = S eX).
Proof.
  apply (lookup_data_from_reference Sample.osfn Sample.getdata Sample.dgeo_vals
           Sample.two_chips Sample.two_chips_out 3 (Sample.ext "sci" 1));
    vm_compute; reflexivity.
Defined.

Lemma rerun_needs_and_fills_every_slot_witness :
  exists e x hdu,
    Sample.lower_sci !! e = Some x /\ matches x (PInt 2) = true /\
    Sample.lower_sci_out !! e = Some hdu /\ is_wcsdvarr hdu = true /\
    header_get (header hdu) "EXTVER" = Some (PInt 2).
Proof.
  apply (rerun_needs_and_fills_every_slot Sample.osfn Sample.getdata Sample.dgeo_vals
           Sample.lower_sci Sample.lower_sci_out 2);
    [vm_compute; reflexivity|reflexivity|vm_compute; split; discriminate].
Defined.

Lemma cperror_comments_name_the_rank_witness :
  exists h',
    Sample.two_chips_out !! 3%nat = Some h' /\
    comment <$> card_get (header h') "CPERROR1" =
      Some ("Maximum error of dgeo correction for axis " +:+
            str_of_int (Z.of_nat (nsci (take 3 Sample.two_chips)))) /\
    comment <$> card_get (header h') "CPERROR2" =
      Some ("Maximum error of dgeo correction for axis " +:+
            str_of_int (Z.of_nat (nsci (take 4 Sample.two_chips)))).
Proof.
  apply (cperror_comments_name_the_rank Sample.osfn Sample.getdata Sample.dgeo_vals
           Sample.two_chips Sample.two_chips_out 3 (Sample.ext "sci" 1));
    vm_compute; reflexivity.
Defined.

Lemma override_or_default_witness :
  [Sample.primary "ACS"] = [Sample.primary "ACS"] /\
  exists instr vals a,
    primary_kw [Sample.primary "ACS"] "INSTRUME" = Ok instr /\
    dgeo_vals_item Sample.dgeo_vals instr = Ok vals /\
    sdict_get (dgeokw 1) "crval1" = Some a /\
    (truthy a = true -> header_get (header Sample.lookup_dx) "CRVAL1" = Some a) /\
    (truthy a = false ->
     is_Some (sdict_get vals "crval1") /\
     header_get (header Sample.lookup_dx) "CRVAL1" = sdict_get vals "crval1").
Proof.
  apply (override_or_default Sample.dgeo_vals (dgeokw 1) [Sample.primary "ACS"]
           [Sample.primary "ACS"] (header Sample.lookup_dx) "crval1" "CRVAL1").
  - vm_compute. reflexivity.
  - apply list_elem_of_lookup_2 with 5%nat. reflexivity.
Defined.

Lemma descriptor_without_value_raises_witness :
  createDgeoHdr Sample.bare_table (dgeokw 1) [Sample.primary "ACS"] =
  ([Sample.primary "ACS"], Raise KeyError).
Proof.
  apply (descriptor_without_value_raises Sample.bare_table (dgeokw 1) [Sample.primary "ACS"]
           (PStr "ACS") Sample.bare_vals "crpix2").
  - reflexivity.
  - reflexivity.
  - apply list_elem_of_lookup_2 with 4%nat. reflexivity.
  - right. exists PNone. repeat split.
Defined.

Lemma exception_sources_witness :
  KeyError = KeyError \/
  (KeyError = IndexError /\ Sample.unknown = []) \/
  (KeyError = AttributeError /\ exists x, x ∈ Sample.unknown /\ name_ok x = false) \/
  (exists v, Sample.osfn v = Raise KeyError) \/
  (exists f a v, Sample.getdata f a v = Raise KeyError).
Proof.
  apply (exception_sources Sample.osfn Sample.getdata Sample.dgeo_vals
           Sample.unknown Sample.unknown_out KeyError).
  vm_compute. reflexivity.
Defined.

Lemma versionless_wcsdvarr_aborts_witness :
  applyDgeoCorr Sample.osfn Sample.getdata Sample.dgeo_vals Sample.versionless =
  Some (Sample.versionless, Raise KeyError).
Proof.
  apply (versionless_wcsdvarr_aborts Sample.osfn Sample.getdata Sample.dgeo_vals
           Sample.versionless (PStr Sample.raw_path) Sample.os_path
           (mkHDU [mkCard "XTENSION" (PStr "IMAGE") ""; mkCard "EXTNAME" (PStr "WCSDVARR") ""]
              None)).
  - reflexivity.
  - vm_compute. reflexivity.
  - apply list_elem_of_lookup_2 with 2%nat. reflexivity.
  - reflexivity.
  - reflexivity.
Defined.

Lemma annotated_file_scans_to_its_lookups_witness :
  exists wcsd2,
    getwcsindex Sample.two_chips_out = Ok wcsd2 /\
    forall j, 1 <= j <= 2 * Z.of_nat (nsci Sample.two_chips) ->
      exists e hdu,
        dict_get wcsd2 (PInt j) = Some e /\ Sample.two_chips_out !! e = Some hdu /\
        is_wcsdvarr hdu = true /\
        header_get (header hdu) "EXTVER" = Some (PInt j) /\
        (existsb is_wcsdvarr Sample.two_chips = false ->
         e = (List.length Sample.two_chips + Z.to_nat (j - 1))%nat).
Proof.
  apply (annotated_file_scans_to_its_lookups Sample.osfn Sample.getdata Sample.dgeo_vals
           Sample.two_chips Sample.two_chips_out).
  vm_compute. reflexivity.
Defined.

Lemma updateDGEOkw_after_addSciExtKw_witness :
  updateDGEOkw (Some 1%nat) (addSciExtKw (Some 1%nat) 1 "DX" Sample.one_chip).1 =
    ((addSciExtKw (Some 1%nat) 1 "DX" Sample.one_chip).1, Ok tt) /\
  sci_body Sample.getdata Sample.dgeo_vals Sample.os_path [(PInt 1, 2%nat); (PInt 2, 3%nat)]
    1 0 Sample.lower_sci = (Sample.lower_sci_out, Ok 2) /\
  (snd (sci_body Sample.getdata Sample.dgeo_vals Sample.os_path
          [(PInt 2, 0%nat); (PInt 1, 2%nat)] 1 0 Sample.primary_lookup) = Raise KeyError /\
   dict_get [(PInt 2, 0%nat); (PInt 1, 2%nat)] (PInt (0 + 2)) = Some 0%nat).
Proof.
  pose proof (updateDGEOkw_after_addSciExtKw Sample.getdata Sample.dgeo_vals) as [HA HB].
  split; [|split].
  - apply (HA (Some 1%nat) 1 "DX" Sample.one_chip). vm_compute. reflexivity.
  - destruct (HB Sample.os_path [(PInt 1, 2%nat); (PInt 2, 3%nat)] 1%nat 0 Sample.lower_sci
                Sample.lower_sci_out (PInt 1) (Some 1%nat, 2)
                ltac:(vm_compute; reflexivity) ltac:(vm_compute; reflexivity))
      as [[_ H]|[H _]].
    + exact H.
    + vm_compute in H. discriminate H.
  - destruct (HB Sample.os_path [(PInt 2, 0%nat); (PInt 1, 2%nat)] 1%nat 0
                Sample.primary_lookup
                (fst (sci_body Sample.getdata Sample.dgeo_vals Sample.os_path
                        [(PInt 2, 0%nat); (PInt 1, 2%nat)] 1 0 Sample.primary_lookup))
                (PInt 1) (Some 1%nat, 2)
                ltac:(vm_compute; reflexivity) ltac:(vm_compute; reflexivity))
      as [[H _]|(_ & H & Hd)].
    + vm_compute in H. discriminate H.
    + split; [now rewrite H|exact Hd].
Defined.

Lemma annotation_succeeds_exactly_when_witness :
  (exists fin, applyDgeoCorr Sample.osfn Sample.getdata Sample.dgeo_vals Sample.lower_sci =
               Some (fin, Ok tt)) <->
  (exists raw dgfile,
     primary_kw Sample.lower_sci "DGEOFILE" = Ok raw /\ Sample.osfn raw = Ok dgfile /\
     (forall x, x ∈ Sample.lower_sci -> name_ok x = true) /\
     (forall x, x ∈ Sample.lower_sci -> is_wcsdvarr x = true ->
        is_Some (header_get (header x) "EXTVER")) /\
     (forall x, x ∈ Sample.lower_sci -> is_sci x = true ->
        exists v dx dy, header_get (header x) "EXTVER" = Some v /\
                        Sample.getdata dgfile "DX" v = Ok dx /\
                        Sample.getdata dgfile "DY" v = Ok dy) /\
     ((0 < nsci Sample.lower_sci)%nat ->
        exists instr vals,
          primary_kw Sample.lower_sci "INSTRUME" = Ok instr /\
          dgeo_vals_item Sample.dgeo_vals instr = Ok vals /\ complete vals = true) /\
     (existsb is_wcsdvarr Sample.lower_sci = true ->
      forall j, 1 <= j <= 2 * Z.of_nat (nsci Sample.lower_sci) ->
        exists e x, e ≠ 0%nat /\ Sample.lower_sci !! e = Some x /\
                    matches x (PInt j) = true)).
Proof.
  apply (annotation_succeeds_exactly_when Sample.osfn Sample.getdata Sample.dgeo_vals
           Sample.lower_sci).
  intros x Hin Hs. unfold Sample.lower_sci in Hin.
  repeat (apply elem_of_cons in Hin; destruct Hin as [->|Hin];
          [first [reflexivity|vm_compute in Hs; discriminate Hs]|]).
  inversion Hin.
Defined.
